(** * Deployment script, transactions service and survey form: a
      shallow embedding

    Three artifacts of the repository are modelled here.

    - [Deploy]: the bash deployment script (docker checks, port check,
      file validation, cleanup, build, validation, health checks, image
      inspection, summary).  The script is a sequence of commands run
      under [set -e]; every external command (docker, docker-compose,
      curl, netstat, lsof, file tests) is answered by the host, which is
      a parameter of the model.  A run yields an exit status and the
      trace of what the script did.

    - [Transactions]: the Express handler of
      [GET /api/transactions/:email], which groups the documents of one
      user by the month label of their timestamp.

    - [Survey]: the validation of the transport survey form and its
      submit listener.  Strings are sequences of UTF-16 code units, the
      pattern of the email check is matched as a regular expression,
      and the page in which the listener runs is a parameter of the
      model; the three input nodes and the form are taken to exist. *)

From Stdlib Require Import ZArith NArith String List Lia Bool Ascii DecimalString.
From Stdlib Require Import Sorted Permutation.
Import ListNotations.
Local Open Scope string_scope.
Local Open Scope Z_scope.

(** ** Text utilities used by the script's pipelines *)

Module Text.

(** [contains pat s]: [pat] occurs in [s] (what [grep -q] reports for a
    fixed pattern that holds no newline). *)
Fixpoint contains (pat s : string) : bool :=
  prefix pat s ||
  match s with
  | EmptyString => false
  | String _ rest => contains pat rest
  end.

Definition newline : ascii := "010"%char.

(** Command substitution [$(...)] drops the trailing newlines of the
    captured output. *)
Fixpoint strip_trailing_newlines (s : string) : string :=
  match s with
  | EmptyString => EmptyString
  | String c rest =>
      match strip_trailing_newlines rest with
      | EmptyString => if Ascii.eqb c newline then EmptyString else String c EmptyString
      | rest' => String c rest'
      end
  end.

(** The lines of a text, as a line-oriented filter reads them: a final
    newline ends the last line and starts no new one. *)
Fixpoint lines_from (cur : string) (s : string) : list string :=
  match s with
  | EmptyString => match cur with EmptyString => [] | _ => [cur] end
  | String c rest =>
      if Ascii.eqb c newline then cur :: lines_from EmptyString rest
      else lines_from (cur ++ String c EmptyString) rest
  end.

Definition lines (s : string) : list string := lines_from EmptyString s.

(** [grep -E "p1|p2|..."] for literal alternatives: the lines holding at
    least one of them. *)
Definition grep_E (alternatives : list string) (text : string) : list string :=
  filter (fun line => existsb (fun p => contains p line) alternatives) (lines text).

Definition show_Z (z : Z) : string := NilZero.string_of_int (Z.to_int z).

End Text.

(** ** The deployment script *)

Module Deploy.

Import Text.

(** External commands of the script.  A pipeline whose stages are all
    external is one command, with the status of its last stage (the
    script does not set [pipefail]). *)
Inductive Cmd : Type :=
| command_v_docker            (* command -v docker *)
| docker_version              (* docker --version *)
| command_v_docker_compose    (* command -v docker-compose *)
| docker_compose_version      (* docker compose version *)
| docker_info                 (* docker info *)
| netstat_listen (port : Z)   (* netstat -an 2>/dev/null | grep -q ":$port.*LISTEN" *)
| lsof_listen (port : Z)      (* lsof -Pi :$port -sTCP:LISTEN -t *)
| compose_down                (* docker-compose down 2>/dev/null *)
| script_dir                  (* cd "$(dirname "${BASH_SOURCE[0]}")" && pwd *)
| test_f (path : string)      (* [ -f path ] *)
| test_d (path : string)      (* [ -d path ] *)
| compose_down_v              (* docker-compose down -v 2>/dev/null *)
| compose_up_build_d          (* docker-compose up --build -d *)
| docker_images               (* docker images *)
| docker_ps                   (* docker ps *)
| docker_ps_filter_nginx      (* docker ps --filter "name=nginx" --format "{{.ID}}" *)
| curl_f (url : string)       (* curl -f url *)
| curl_s (url : string)       (* curl -s url *)
| docker_inspect_nginx        (* docker inspect nginx:alpine > nginx-logs.txt *)
| extract_RepoTags            (* grep -A 2 '"RepoTags"' nginx-logs.txt | ... | sed ... *)
| extract_Created             (* grep '"Created":' nginx-logs.txt | head -1 | sed ... *)
| extract_Os                  (* grep '"Os":' nginx-logs.txt | head -1 | sed ... *)
| extract_ExposedPorts.       (* grep -A 5 '"ExposedPorts"' nginx-logs.txt | head -7 *)

(** What the host answers: exit status and standard output. *)
Record Result : Type := mkResult { status : Z; stdout : string }.

(** What a run of the script does, in order. *)
Inductive Event : Type :=
| Ran (c : Cmd) (r : Result)            (* an external command and its answer *)
| Slept (seconds : Z)                   (* sleep n *)
| Log (msg : string)                    (* log "..." *)
| Error (msg : string)                  (* error "..." *)
| Warning (msg : string)                (* warning "..." *)
| Echo (msg : string)                   (* echo "..." *)
| Printed (out : list string)           (* lines a filter wrote to the terminal *)
| AssignZ (var : string) (value : Z)    (* VAR=number *)
| AssignS (var : string) (value : string).

(** How a fragment of the script ends: it falls through to the next
    command, the shell exits with a status, or the model of a loop ran
    out of iterations ([OutOfFuel], shown below never to happen). *)
Inductive Outcome (A : Type) : Type :=
| Next (a : A)
| Exit (code : Z)
| OutOfFuel.
Arguments Next {A} a.
Arguments Exit {A} code.
Arguments OutOfFuel {A}.

(** The commands that act on containers: the two teardowns and the
    build/start. *)
Definition container_action (c : Cmd) : bool :=
  match c with
  | compose_down | compose_down_v | compose_up_build_d => true
  | _ => false
  end.

Definition teardown (c : Cmd) : bool :=
  match c with
  | compose_down | compose_down_v => true
  | _ => false
  end.

(** The commands of a trace, in order. *)
Fixpoint commands (t : list Event) : list Cmd :=
  match t with
  | [] => []
  | Ran c _ :: t' => c :: commands t'
  | _ :: t' => commands t'
  end.

(** The host on which the script runs: its state, how it answers a
    command, and how it evolves while the script sleeps. *)
Class Host : Type := {
  World : Type;
  exec : Cmd -> World -> Result * World;
  pause : Z -> World -> World
}.

Section Monad.

Context {host : Host}.

(** Shell state: the host and the script's variables. *)
Record Shell : Type := mkShell {
  world : World;
  MAX_RETRIES : Z;
  RETRY_COUNT : Z;
  NGINX_CONTAINER_ID : string;
  SCRIPT_DIR : string
}.

(** A fragment of the script: from a shell state to how it ends, the
    state it leaves and what it did. *)
Definition Sh (A : Type) : Type := Shell -> Outcome A * Shell * list Event.

Definition ret {A} (a : A) : Sh A := fun s => (Next a, s, []).

Definition bind {A B} (m : Sh A) (f : A -> Sh B) : Sh B :=
  fun s =>
    match m s with
    | (Next a, s1, t1) =>
        match f a s1 with
        | (o, s2, t2) => (o, s2, (t1 ++ t2)%list)
        end
    | (Exit c, s1, t1) => (Exit c, s1, t1)
    | (OutOfFuel, s1, t1) => (OutOfFuel, s1, t1)
    end.

End Monad.

Notation "x <- m ;; k" := (bind m (fun x => k))
  (at level 61, m at next level, right associativity).
Notation "m ;; k" := (bind m (fun _ => k))
  (at level 61, right associativity).

Section Script.

Context {host : Host}.

Definition emit (e : Event) : Sh unit := fun s => (Next tt, s, [e]).

(** [exit n] *)
Definition exit {A} (code : Z) : Sh A := fun s => (Exit code, s, []).

(** [log], [error] and [warning] print one line with [echo -e], which
    does not fail.  The colour codes and the [date] stamp that [log]
    puts before the message are left out of the trace. *)
Definition log (msg : string) : Sh unit := emit (Log msg).
Definition error (msg : string) : Sh unit := emit (Error msg).
Definition warning (msg : string) : Sh unit := emit (Warning msg).
Definition echo (msg : string) : Sh unit := emit (Echo msg).

Definition set_world (w : World) (s : Shell) : Shell :=
  mkShell w (MAX_RETRIES s) (RETRY_COUNT s) (NGINX_CONTAINER_ID s) (SCRIPT_DIR s).

(** An external command where its status does not stop the script: in
    the condition of an [if], left of [||], or inside the [$(...)] of a
    word. *)
Definition run (c : Cmd) : Sh Result :=
  fun s =>
    let '(r, w) := exec c (world s) in
    (Next r, set_world w s, [Ran c r]).

(** The same, reduced to success or failure. *)
Definition succeeds (c : Cmd) : Sh bool :=
  r <- run c ;; ret (status r =? 0).

(** An external command as a statement of its own: under [set -e] a
    non-zero status ends the script with that status. *)
Definition errexit (c : Cmd) : Sh Result :=
  r <- run c ;;
  if status r =? 0 then ret r else exit (status r).

(** [sleep n] with a literal number: time passes on the host, and the
    command itself does not fail. *)
Definition sleep (n : Z) : Sh unit :=
  fun s => (Next tt, set_world (pause n (world s)) s, [Slept n]).

Definition set_MAX_RETRIES (v : Z) : Sh unit :=
  fun s => (Next tt,
            mkShell (world s) v (RETRY_COUNT s) (NGINX_CONTAINER_ID s) (SCRIPT_DIR s),
            [AssignZ "MAX_RETRIES" v]).

Definition set_RETRY_COUNT (v : Z) : Sh unit :=
  fun s => (Next tt,
            mkShell (world s) (MAX_RETRIES s) v (NGINX_CONTAINER_ID s) (SCRIPT_DIR s),
            [AssignZ "RETRY_COUNT" v]).

Definition set_NGINX_CONTAINER_ID (v : string) : Sh unit :=
  fun s => (Next tt,
            mkShell (world s) (MAX_RETRIES s) (RETRY_COUNT s) v (SCRIPT_DIR s),
            [AssignS "NGINX_CONTAINER_ID" v]).

Definition set_SCRIPT_DIR (v : string) : Sh unit :=
  fun s => (Next tt,
            mkShell (world s) (MAX_RETRIES s) (RETRY_COUNT s) (NGINX_CONTAINER_ID s) v,
            [AssignS "SCRIPT_DIR" v]).

Definition get {A} (field : Shell -> A) : Sh A := fun s => (Next (field s), s, []).

(** [for x in list; do body; done] *)
Fixpoint for_each {A} (l : list A) (body : A -> Sh unit) : Sh unit :=
  match l with
  | [] => ret tt
  | x :: l' => body x ;; for_each l' body
  end.

Definition banner (title : string) : Sh unit :=
  log "=========================================" ;;
  log title ;;
  log "=========================================".

(** *** Section 1: pre-deployment checks *)

Definition check_docker : Sh unit :=
  log "Checking if Docker is installed..." ;;
  found <- succeeds command_v_docker ;;
  (if negb found then
     error "Docker is not installed. Please install Docker first." ;;
     exit 1
   else ret tt) ;;
  v <- run docker_version ;;
  log ("✓ Docker is installed: " ++ strip_trailing_newlines (stdout v)).

Definition check_compose : Sh unit :=
  log "Checking if Docker Compose is installed..." ;;
  standalone <- succeeds command_v_docker_compose ;;
  missing <- (if negb standalone then
                plugin <- succeeds docker_compose_version ;; ret (negb plugin)
              else ret false) ;;
  (if missing then
     error "Docker Compose is not installed. Please install Docker Compose first." ;;
     exit 1
   else ret tt) ;;
  log "✓ Docker Compose is installed".

Definition check_daemon : Sh unit :=
  log "Checking if Docker daemon is running..." ;;
  up <- succeeds docker_info ;;
  (if negb up then
     error "Docker daemon is not running. Please start Docker." ;;
     exit 1
   else ret tt) ;;
  log "✓ Docker daemon is running".

Definition REQUIRED_PORTS : list Z := [80; 5000; 3000; 27017].

(** [netstat ... | grep -q ... || lsof ...]: [lsof] is consulted only
    when the first pipeline fails. *)
Definition port_in_use (port : Z) : Sh bool :=
  listed <- succeeds (netstat_listen port) ;;
  if listed then ret true else succeeds (lsof_listen port).

Definition check_port (port : Z) : Sh unit :=
  busy <- port_in_use port ;;
  if busy then
    warning ("Port " ++ show_Z port ++ " is already in use. Attempting to stop existing containers...") ;;
    _ <- run compose_down ;;          (* docker-compose down || true *)
    sleep 2 ;;
    still <- port_in_use port ;;
    if still then
      warning ("Port " ++ show_Z port ++ " is still in use. Continuing anyway...")
    else ret tt
  else ret tt.

Definition check_ports : Sh unit :=
  log "Checking if required ports are available..." ;;
  for_each REQUIRED_PORTS check_port ;;
  log "✓ Port check completed".

Definition section1 : Sh unit :=
  banner "SECTION 1: PRE-DEPLOYMENT CHECKS" ;;
  check_docker ;;
  check_compose ;;
  check_daemon ;;
  check_ports.

(** *** Section 2: directory and file validation *)

Definition section2 : Sh unit :=
  banner "SECTION 2: DIRECTORY AND FILE VALIDATION" ;;
  (* SCRIPT_DIR="$(cd ... && pwd)": the assignment is made, and its
     status is that of the substitution *)
  here <- run script_dir ;;
  set_SCRIPT_DIR (strip_trailing_newlines (stdout here)) ;;
  (if status here =? 0 then ret tt else exit (status here)) ;;
  dir <- get SCRIPT_DIR ;;
  log ("Current directory: " ++ dir) ;;
  log "Validating presence of docker-compose.yaml..." ;;
  yaml <- succeeds (test_f "docker-compose.yaml") ;;
  absent <- (if negb yaml then
               yml <- succeeds (test_f "docker-compose.yml") ;; ret (negb yml)
             else ret false) ;;
  (if absent then
     error "docker-compose.yaml not found in current directory!" ;;
     exit 1
   else ret tt) ;;
  log "✓ docker-compose.yaml found" ;;
  log "Checking for required directories..." ;;
  backend <- succeeds (test_d "banking-backend") ;;
  (if negb backend then
     error "banking-backend directory not found!" ;;
     exit 1
   else ret tt) ;;
  portfolio <- succeeds (test_d "studentportfolio") ;;
  (if negb portfolio then
     error "studentportfolio directory not found!" ;;
     exit 1
   else ret tt) ;;
  log "✓ All required directories present" ;;
  log "Checking for nginx.conf..." ;;
  conf <- succeeds (test_f "nginx.conf") ;;
  (if negb conf then
     error "nginx.conf not found!" ;;
     exit 1
   else ret tt) ;;
  log "✓ nginx.conf found".

(** *** Section 3: cleanup of an existing deployment *)

Definition section3 : Sh unit :=
  banner "SECTION 3: CLEANUP EXISTING DEPLOYMENT" ;;
  log "Stopping and removing existing containers (if any)..." ;;
  _ <- run compose_down_v ;;          (* docker-compose down -v || true *)
  log "✓ Cleanup completed".

(** *** Section 4: build and deploy *)

Definition section4 : Sh unit :=
  banner "SECTION 4: BUILD AND DEPLOY WITH COMPOSE" ;;
  log "Building and starting containers..." ;;
  _ <- errexit compose_up_build_d ;;
  log "Waiting for containers to initialize (30 seconds)..." ;;
  sleep 30.

(** *** Section 5: validation of build and deployment *)

Definition image_filter : list string :=
  ["mongo"; "backend"; "portfolio"; "nginx"; "assignment"].

(** [docker images | grep -E "..."]: the statement has the status of
    [grep], which is 1 when it selects no line. *)
Definition list_images : Sh unit :=
  log "Listing Docker images..." ;;
  listing <- run docker_images ;;
  let selected := grep_E image_filter (stdout listing) in
  emit (Printed selected) ;;
  match selected with
  | [] => exit 1
  | _ :: _ => ret tt
  end.

Definition show_containers : Sh unit :=
  log "Showing running containers..." ;;
  _ <- errexit docker_ps ;;
  ret tt.

(** [NGINX_CONTAINER_ID=$(docker ps --filter ...)], then the [-z] test. *)
Definition resolve_nginx : Sh unit :=
  log "Getting nginx container ID..." ;;
  found <- run docker_ps_filter_nginx ;;
  set_NGINX_CONTAINER_ID (strip_trailing_newlines (stdout found)) ;;
  (if status found =? 0 then ret tt else exit (status found)) ;;
  id <- get NGINX_CONTAINER_ID ;;
  (if String.eqb id "" then
     error "Nginx container not found!" ;;
     exit 1
   else ret tt) ;;
  log ("✓ Nginx container ID: " ++ id).

Definition section5 : Sh unit :=
  banner "SECTION 5: VALIDATE BUILD AND DEPLOYMENT" ;;
  list_images ;;
  show_containers ;;
  resolve_nginx.

(** *** Section 6: health checks *)

(** [curl -f .../api/login || curl -s ...:5000] *)
Definition backend_probe : Sh bool :=
  login <- succeeds (curl_f "http://localhost:5000/api/login") ;;
  if login then ret true else succeeds (curl_s "http://localhost:5000").

(** [curl -f ...:80 || curl -s ...:80 | grep -q "Pixel River"]: the
    pipeline has the status of [grep -q]. *)
Definition nginx_probe : Sh bool :=
  root <- succeeds (curl_f "http://localhost:80") ;;
  if root then ret true
  else
    page <- run (curl_s "http://localhost:80") ;;
    ret (contains "Pixel River" (stdout page)).

Definition out_of_fuel {A} : Sh A := fun s => (OutOfFuel, s, []).

(** The [while [ $RETRY_COUNT -lt $MAX_RETRIES ]] loop, written once for
    the two health checks, which differ in the probe and in the words of
    their messages.  [fuel] bounds the iterations of the model. *)
Fixpoint retry_loop (probe : Sh bool) (ok_msg Name name : string) (fuel : nat) : Sh unit :=
  count <- get RETRY_COUNT ;;
  max <- get MAX_RETRIES ;;
  if count <? max then
    match fuel with
    | O => out_of_fuel
    | S fuel' =>
        up <- probe ;;
        if up then log ok_msg                                   (* break *)
        else
          set_RETRY_COUNT (count + 1) ;;
          count' <- get RETRY_COUNT ;;
          (if count' =? max then
             error (Name ++ " health check failed after " ++ show_Z max ++ " attempts") ;;
             exit 1
           else ret tt) ;;
          log ("Waiting for " ++ name ++ "... (Attempt " ++ show_Z count' ++ "/" ++ show_Z max ++ ")") ;;
          sleep 3 ;;
          retry_loop probe ok_msg Name name fuel'
    end
  else ret tt.

(** Iterations left before the loop condition fails. *)
Definition iterations_left (s : Shell) : nat := Z.to_nat (MAX_RETRIES s - RETRY_COUNT s).

Definition health_check (probe : Sh bool) (ok_msg Name name : string) : Sh unit :=
  set_RETRY_COUNT 0 ;;
  fuel <- get iterations_left ;;
  retry_loop probe ok_msg Name name fuel.

(** The two health checks of the script. *)
Inductive Check : Type := Backend | Nginx.

Definition probe (c : Check) : Sh bool :=
  match c with
  | Backend => backend_probe
  | Nginx => nginx_probe
  end.

(** [RETRY_COUNT=0] and the loop that follows it. *)
Definition poll (c : Check) : Sh unit :=
  match c with
  | Backend => health_check backend_probe "✓ Backend is responding" "Backend" "backend"
  | Nginx => health_check nginx_probe "✓ Nginx is responding and serving content" "Nginx" "nginx"
  end.

Definition backend_health : Sh unit :=
  log "Performing health check on backend (http://localhost:5000)..." ;;
  set_MAX_RETRIES 10 ;;
  poll Backend.

Definition nginx_health : Sh unit :=
  log "Performing health check on nginx (http://localhost:80)..." ;;
  poll Nginx.

Definition section6 : Sh unit :=
  banner "SECTION 6: HEALTH CHECKS" ;;
  backend_health ;;
  nginx_health ;;
  log "✓ All services are healthy and responding".

(** *** Section 7: nginx image inspection *)

Definition section7 : Sh unit :=
  banner "SECTION 7: NGINX IMAGE INSPECTION" ;;
  log "Inspecting nginx:alpine image..." ;;
  _ <- errexit docker_inspect_nginx ;;
  log "✓ Inspection results saved to nginx-logs.txt" ;;
  log "Extracting key information from nginx:alpine image..." ;;
  echo "" ;;
  log "--- RepoTags ---" ;;
  _ <- errexit extract_RepoTags ;;
  echo "" ;;
  log "--- Created ---" ;;
  _ <- errexit extract_Created ;;
  echo "" ;;
  log "--- Os ---" ;;
  _ <- errexit extract_Os ;;
  echo "" ;;
  log "--- Config (ExposedPorts) ---" ;;
  _ <- errexit extract_ExposedPorts ;;
  echo "" ;;
  log "✓ Nginx image inspection completed".

(** *** Section 8: deployment summary *)

Definition section8 : Sh unit :=
  banner "SECTION 8: DEPLOYMENT SUMMARY" ;;
  log "Deployment Summary:" ;;
  echo "" ;;
  echo "✓ MongoDB running on port 27017" ;;
  echo "✓ Backend running on port 5000" ;;
  echo "✓ Frontend running on port 3000" ;;
  echo "✓ Nginx (entry point) running on port 80" ;;
  echo "" ;;
  log "Application is accessible at: http://localhost" ;;
  echo "" ;;
  banner "DEPLOYMENT COMPLETED SUCCESSFULLY!" ;;
  echo "" ;;
  log "Next Steps for Testing:" ;;
  echo "1. Open browser and navigate to http://localhost" ;;
  echo "2. Register a new user" ;;
  echo "3. Login with credentials" ;;
  echo "4. Deposit a float amount (e.g., 600.45)" ;;
  echo "5. Withdraw a float amount" ;;
  echo "6. Verify balance updates correctly" ;;
  echo "" ;;
  log "To view logs: docker-compose logs -f" ;;
  log "To stop: docker-compose down" ;;
  log "To cleanup: docker-compose down -v".

(** *** The whole script *)

Definition script : Sh unit :=
  section1 ;;
  section2 ;;
  section3 ;;
  section4 ;;
  section5 ;;
  section6 ;;
  section7 ;;
  section8.

(** The shell at invocation: no variable is set yet. *)
Definition fresh (w : World) : Shell := mkShell w 0 0 "" "".

(** A run from host state [w]: how the script ends and what it did. *)
Definition deploy (w : World) : Outcome unit * list Event :=
  match script (fresh w) with
  | (o, _, t) => (o, t)
  end.

(** *** Observations on a run, used to state properties *)

(** Every attempt of a health check begins with one [curl -f]. *)
Definition begins_attempt (c : Check) (cmd : Cmd) : bool :=
  match c, cmd with
  | Backend, curl_f url => String.eqb url "http://localhost:5000/api/login"
  | Nginx, curl_f url => String.eqb url "http://localhost:80"
  | _, _ => false
  end.

Definition attempts_made (c : Check) (t : list Event) : nat :=
  length (filter (begins_attempt c) (commands t)).

(** The values given to [RETRY_COUNT] in the course of a run, in order. *)
Fixpoint counter_values (t : list Event) : list Z :=
  match t with
  | [] => []
  | AssignZ var v :: t' =>
      if String.eqb var "RETRY_COUNT" then v :: counter_values t' else counter_values t'
  | _ :: t' => counter_values t'
  end.

(** How a health check reports that its budget is spent: the counter
    reaches the maximum and the error is printed (then [exit 1]). *)
Definition check_Name (c : Check) : string :=
  match c with Backend => "Backend" | Nginx => "Nginx" end.

Definition failure_report (c : Check) (max : Z) : list Event :=
  [AssignZ "RETRY_COUNT" max;
   Error (check_Name c ++ " health check failed after " ++ show_Z max ++ " attempts")].

(** [from + 1, from + 2, ..., from + k] *)
Definition counting (from : Z) (k : nat) : list Z :=
  map (fun i => from + Z.of_nat i) (seq 1 k).

(** One attempt of a health check, seen from the host: whether it
    succeeds, and the host state it leaves. *)
Definition attempt (c : Check) (w : World) : bool * World :=
  match probe c (fresh w) with
  | (Next up, s, _) => (up, world s)
  | (_, s, _) => (false, world s)
  end.

(** The host state in which attempt [k+1] is made when the [k] attempts
    before it have failed: each failed attempt is followed by
    [sleep 3]. *)
Fixpoint host_before (c : Check) (w : World) (k : nat) : World :=
  match k with
  | O => w
  | S k' => pause 3 (snd (attempt c (host_before c w k')))
  end.

(** [responds c w k]: attempt number [k] (counted from 1) of check [c],
    polling from host state [w], gets a success. *)
Definition responds (c : Check) (w : World) (k : nat) : bool :=
  fst (attempt c (host_before c w (k - 1))).

(** The first of at most [n] attempts that succeeds, counted from 0. *)
Fixpoint first_success (c : Check) (w : World) (n : nat) : option nat :=
  match n with
  | O => None
  | S n' =>
      let '(up, w') := attempt c w in
      if up then Some O
      else option_map S (first_success c (pause 3 w') n')
  end.

(** Check [c], polling from shell state [s], succeeds at attempt [K]:
    the loop is left by [break] after [K] attempts. *)
Definition succeeds_at (c : Check) (s : Shell) (K : nat) : Prop :=
  exists s' t, poll c s = (Next tt, s', t) /\ attempts_made c t = K.

(** Check [c] fails: the script exits with status 1. *)
Definition gives_up (c : Check) (s : Shell) : Prop :=
  exists s' t, poll c s = (Exit 1, s', t).

(** Every command a fragment runs satisfies [pc]. *)
Definition only {A} (pc : Cmd -> bool) (m : Sh A) : Prop :=
  forall s c, In c (commands (snd (m s))) -> pc c = true.

(** A fragment falls through or exits with a non-zero status: it never
    exits with 0 and its model never runs out of fuel. *)
Definition sound {A} (m : Sh A) : Prop :=
  forall s, match fst (fst (m s)) with
            | Next _ => True
            | Exit code => code <> 0
            | OutOfFuel => False
            end.

(** What section 3 does, whatever the teardown answers. *)
Definition cleanup_trace (r : Result) : list Event :=
  [Log "=========================================";
   Log "SECTION 3: CLEANUP EXISTING DEPLOYMENT";
   Log "=========================================";
   Log "Stopping and removing existing containers (if any)...";
   Ran compose_down_v r;
   Log "✓ Cleanup completed"].

(** The commands of the installation checks, which precede the port
    check in section 1. *)
Definition installation_check (c : Cmd) : bool :=
  match c with
  | command_v_docker | docker_version | command_v_docker_compose
  | docker_compose_version | docker_info => true
  | _ => false
  end.

(** The two warnings of the port check. *)
Definition port_in_use_warning (port : Z) : Event :=
  Warning ("Port " ++ show_Z port ++ " is already in use. Attempting to stop existing containers...").

Definition port_still_in_use_warning (port : Z) : Event :=
  Warning ("Port " ++ show_Z port ++ " is still in use. Continuing anyway...").

(** The identifier captured by [NGINX_CONTAINER_ID=$(docker ps ...)]. *)
Definition identifier (r : Result) : string := strip_trailing_newlines (stdout r).

(** How the resolution of the nginx container ends, given what
    [docker ps --filter] answers. *)
Definition resolution (r : Result) : Outcome unit :=
  if status r =? 0 then
    if String.eqb (identifier r) "" then Exit 1 else Next tt
  else Exit (status r).

(** The script from the health checks on. *)
Definition from_health_checks : Sh unit :=
  section6 ;; section7 ;; section8.

(** The script up to the health checks. *)
Definition up_to_validation : Sh unit :=
  section1 ;; section2 ;; section3 ;; section4 ;; section5.

(** Section 1 up to the port check: the installation checks. *)
Definition installation : Sh unit :=
  banner "SECTION 1: PRE-DEPLOYMENT CHECKS" ;;
  check_docker ;;
  check_compose ;;
  check_daemon.

(** No container action occurs in a trace. *)
Definition no_container_action (t : list Event) : Prop :=
  forall c, In c (commands t) -> container_action c = false.

(** A command always fails on this host (a file that is not there, an
    endpoint that is down). *)
Definition always_fails (c : Cmd) : Prop :=
  forall w, status (fst (exec c w)) <> 0.

(** A required file or directory is absent. *)
Definition required_missing : Prop :=
  (always_fails (test_f "docker-compose.yaml") /\ always_fails (test_f "docker-compose.yml"))
  \/ always_fails (test_d "banking-backend")
  \/ always_fails (test_d "studentportfolio")
  \/ always_fails (test_f "nginx.conf").

End Script.

(** The section of the script in which a command occurs. *)
Definition section_of (c : Cmd) : nat :=
  match c with
  | command_v_docker | docker_version | command_v_docker_compose
  | docker_compose_version | docker_info
  | netstat_listen _ | lsof_listen _ | compose_down => 1
  | script_dir | test_f _ | test_d _ => 2
  | compose_down_v => 3
  | compose_up_build_d => 4
  | docker_images | docker_ps | docker_ps_filter_nginx => 5
  | curl_f _ | curl_s _ => 6
  | docker_inspect_nginx | extract_RepoTags | extract_Created
  | extract_Os | extract_ExposedPorts => 7
  end%nat.

Definition in_section (n : nat) (c : Cmd) : bool := Nat.eqb (section_of c) n.

(** The exit status of the process: 0 when the script runs to its end. *)
Definition exit_status (o : Outcome unit) : option Z :=
  match o with
  | Next _ => Some 0
  | Exit code => Some code
  | OutOfFuel => None
  end.

Definition halts_nonzero (o : Outcome unit) : Prop :=
  exists code, o = Exit code /\ code <> 0.

(** *** Concrete hosts *)

Definition ok : Result := mkResult 0 "".
Definition failed : Result := mkResult 1 "".
Definition nl : string := String newline EmptyString.

(** A host whose answers never change. *)
Definition static_host (answer : Cmd -> Result) : Host :=
  {| World := unit;
     exec := fun c w => (answer c, w);
     pause := fun _ w => w |}.

(** A host whose answers depend on how many commands it has answered
    so far. *)
Definition clocked_host (answer : nat -> Cmd -> Result) : Host :=
  {| World := nat;
     exec := fun c n => (answer n c, S n);
     pause := fun _ n => n |}.

(** Everything installed, files present, ports free, services up. *)
Definition healthy (c : Cmd) : Result :=
  match c with
  | netstat_listen _ | lsof_listen _ => failed
  | docker_images =>
      mkResult 0 ("REPOSITORY TAG" ++ nl ++ "nginx alpine" ++ nl ++ "mongo 7" ++ nl)
  | docker_ps_filter_nginx => mkResult 0 ("3f2a9c1b7d10" ++ nl)
  | _ => ok
  end.

(** Port 80 is taken and stays taken, and the directory
    banking-backend is not there. *)
Definition busy_port_no_backend (c : Cmd) : Result :=
  match c with
  | netstat_listen 80 => ok
  | test_d "banking-backend" => failed
  | _ => healthy c
  end.

(** A first deployment: there is nothing for the teardowns to remove,
    and they report an error. *)
Definition first_deployment (c : Cmd) : Result :=
  match c with
  | compose_down | compose_down_v => failed
  | _ => healthy c
  end.

(** The backend refuses every probe. *)
Definition backend_down (c : Cmd) : Result :=
  match c with
  | curl_f "http://localhost:5000/api/login" | curl_s "http://localhost:5000" =>
      mkResult 7 ""
  | _ => healthy c
  end.

(** The login path answers with an HTTP error, so that [curl -f] fails
    with status 22, while the server itself is up. *)
Definition login_down (c : Cmd) : Result :=
  match c with
  | curl_f "http://localhost:5000/api/login" => mkResult 22 ""
  | _ => healthy c
  end.

(** No image of the deployment is listed. *)
Definition no_images (c : Cmd) : Result :=
  match c with
  | docker_images => mkResult 0 ("REPOSITORY TAG" ++ nl ++ "redis latest" ++ nl)
  | _ => healthy c
  end.

(** [docker ps --filter] fails after printing an identifier. *)
Definition failing_filter (c : Cmd) : Result :=
  match c with
  | docker_ps_filter_nginx => mkResult 1 ("3f2a9c1b7d10" ++ nl)
  | _ => healthy c
  end.

(** The backend answers from its third attempt on: the first four
    probes (two attempts of two probes each) are refused. *)
Definition third_try (n : nat) (c : Cmd) : Result :=
  match c with
  | curl_f _ | curl_s _ => if (n <? 4)%nat then mkResult 7 "" else ok
  | _ => healthy c
  end.

(** A shell about to poll, with the budget of the script. *)
Definition polling {host : Host} (w : World) : Shell := mkShell w 10 0 "" "".

End Deploy.

(** ** The transactions service *)

Module Transactions.

(** A JavaScript object used as a dictionary: its own properties, in
    insertion order. *)
Definition Obj (V : Type) : Type := list (string * V).

Fixpoint own {V} (k : string) (o : Obj V) : option V :=
  match o with
  | [] => None
  | (k', v) :: o' => if String.eqb k k' then Some v else own k o'
  end.

(** [o[k] = v]: an existing property keeps its place, a new one is
    added last. *)
Fixpoint assign {V} (k : string) (v : V) (o : Obj V) : Obj V :=
  match o with
  | [] => [(k, v)]
  | (k', v') :: o' =>
      if String.eqb k k' then (k, v) :: o' else (k', v') :: assign k v o'
  end.

(** The properties an object literal [{}] inherits from
    [Object.prototype]; the value of each is truthy and is not an
    array. *)
Definition Object_prototype : list string :=
  ["constructor"; "__defineGetter__"; "__defineSetter__"; "hasOwnProperty";
   "__lookupGetter__"; "__lookupSetter__"; "isPrototypeOf";
   "propertyIsEnumerable"; "toString"; "valueOf"; "__proto__"; "toLocaleString"].

Definition inherited (k : string) : bool :=
  existsb (String.eqb k) Object_prototype.

Section Handler.

(** [amount] and [timestamp] are stored values that the handler passes
    on untouched. *)
Variable Amount : Type.
Variable Timestamp : Type.

(** [new Date(timestamp).toLocaleString("en-US", { month: "long", year:
    "numeric" })]: the label of the calendar month of a timestamp in the
    time zone of the server, such as "March 2024". *)
Variable monthYear : Timestamp -> string.

(** A document of the collection [transactions]. *)
Record Transaction : Type := mkTransaction {
  email : string;
  type : string;
  amount : Amount;
  timestamp : Timestamp
}.

(** What the handler returns for a transaction. *)
Record Entry : Type := mkEntry {
  entry_type : string;
  entry_amount : Amount;
  entry_timestamp : Timestamp
}.

Definition entry (tx : Transaction) : Entry :=
  mkEntry (type tx) (amount tx) (timestamp tx).

(** [db.collection("transactions").find({ email }).toArray()] *)
Definition find (stored : list Transaction) (user : string) : list Transaction :=
  filter (fun tx => String.eqb (email tx) user) stored.

(** The callback of [reduce].  [None] stands for the [TypeError] thrown
    when [acc[monthYear]] is an inherited property, which has no
    [push]. *)
Definition group_step (acc : Obj (list Entry)) (tx : Transaction)
  : option (Obj (list Entry)) :=
  let label := monthYear (timestamp tx) in
  match own label acc with
  | Some group => Some (assign label (group ++ [entry tx])%list acc)
  | None =>
      if inherited label then None
      else Some (assign label [entry tx] acc)
  end.

(** [transactions.reduce(callback, {})] *)
Definition groupedByMonth (transactions : list Transaction)
  : option (Obj (list Entry)) :=
  fold_left
    (fun acc tx => match acc with Some o => group_step o tx | None => None end)
    transactions (Some []).

Inductive Response : Type :=
| Json (groupedByMonth : Obj (list Entry))     (* res.json(groupedByMonth) *)
| Status500 (error : string).                  (* res.status(500).json({ error }) *)

(** The handler of [GET /api/transactions/:email].  The store is [None]
    while [db] is not set (no connection yet) or when the query fails:
    the exception is caught and answered with status 500. *)
Definition get_transactions (db : option (list Transaction)) (user : string) : Response :=
  match db with
  | None => Status500 "Failed to fetch transactions"
  | Some stored =>
      match groupedByMonth (find stored user) with
      | Some groups => Json groups
      | None => Status500 "Failed to fetch transactions"
      end
  end.

(** The month label of a transaction is [label]. *)
Definition labelled (label : string) (tx : Transaction) : bool :=
  String.eqb (monthYear (timestamp tx)) label.

(** The transactions of [user] whose month label is [label], as
    entries, in stored order. *)
Definition month_of (stored : list Transaction) (user label : string) : list Entry :=
  map entry
    (filter (fun tx => String.eqb (email tx) user && labelled label tx) stored).

(** The group of a label in an object under construction. *)
Definition group_of (o : Obj (list Entry)) (label : string) : list Entry :=
  match own label o with
  | Some g => g
  | None => []
  end.

(** Every group of the object holds an entry, and no label occurs
    twice. *)
Definition well_formed (o : Obj (list Entry)) : Prop :=
  (forall k g, own k o = Some g -> g <> []) /\ NoDup (map fst o).

End Handler.

Arguments email {Amount Timestamp} _.
Arguments type {Amount Timestamp} _.
Arguments amount {Amount Timestamp} _.
Arguments timestamp {Amount Timestamp} _.
Arguments entry_type {Amount Timestamp} _.
Arguments entry_amount {Amount Timestamp} _.
Arguments entry_timestamp {Amount Timestamp} _.
Arguments entry {Amount Timestamp} tx.
Arguments find {Amount Timestamp} stored user.
Arguments group_step {Amount Timestamp} monthYear acc tx.
Arguments groupedByMonth {Amount Timestamp} monthYear transactions.
Arguments get_transactions {Amount Timestamp} monthYear db user.
Arguments labelled {Amount Timestamp} monthYear label tx.
Arguments month_of {Amount Timestamp} monthYear stored user label.
Arguments group_of {Amount Timestamp} o label.
Arguments well_formed {Amount Timestamp} o.
Arguments Json {Amount Timestamp} groupedByMonth.
Arguments Status500 {Amount Timestamp} error.
Arguments mkTransaction {Amount Timestamp} email type amount timestamp.
Arguments mkEntry {Amount Timestamp} entry_type entry_amount entry_timestamp.

(** A store for concrete runs: amounts in cents, timestamps as
    milliseconds since the epoch. *)
Definition sample_label (ts : Z) : string :=
  if ts <? 1706745600000 then "January 2024" else "February 2024".

Definition sample_store : list (Transaction Z Z) :=
  [mkTransaction "ann@example.com" "deposit" 60045 1704103200000;
   mkTransaction "bob@example.com" "deposit" 1000 1704189600000;
   mkTransaction "ann@example.com" "withdraw" 2000 1707000000000;
   mkTransaction "ann@example.com" "deposit" 500 1704300000000].

End Transactions.

(** ** Observations on whole runs of the script *)

Module Behaviour.

Import Text Deploy.

(** The stage of the script in which a command occurs: the sections,
    with the two health checks of section 6 told apart by the address
    they probe (6 for the backend, 7 for nginx) and the image inspection
    after them. *)
Definition stage (c : Cmd) : nat :=
  match c with
  | curl_f url => if String.eqb url "http://localhost:5000/api/login" then 6 else 7
  | curl_s url => if String.eqb url "http://localhost:5000" then 6 else 7
  | docker_inspect_nginx | extract_RepoTags | extract_Created
  | extract_Os | extract_ExposedPorts => 8
  | _ => section_of c
  end%nat.

Definition at_stage (n : nat) (c : Cmd) : bool := Nat.eqb (stage c) n.

(** The stages of the commands of a trace, in the order of the run. *)
Definition stages (t : list Event) : list nat := map stage (commands t).

(** Seconds spent in [sleep]. *)
Fixpoint slept (t : list Event) : Z :=
  match t with
  | [] => 0
  | Slept n :: t' => n + slept t'
  | _ :: t' => slept t'
  end.

(** Values of the counter below the maximum: the iterations that go on
    to wait. *)
Definition waits (max : Z) (t : list Event) : nat :=
  length (filter (fun v => negb (v =? max)) (counter_values t)).

(** A probe of the port check reports a required port in use. *)
Definition reports (e : Event) : bool :=
  match e with
  | Ran (netstat_listen port) r | Ran (lsof_listen port) r =>
      existsb (Z.eqb port) REQUIRED_PORTS && (status r =? 0)
  | _ => false
  end.

(** The teardown of the port check: [docker-compose down], without
    [-v]. *)
Definition tears_down (e : Event) : bool :=
  match e with
  | Ran compose_down _ => true
  | _ => false
  end.

Definition warns (e : Event) : bool :=
  match e with
  | Warning _ => true
  | _ => false
  end.

(** Neither a probe of the port check nor its teardown. *)
Definition elsewhere (c : Cmd) : bool :=
  match c with
  | netstat_listen _ | lsof_listen _ | compose_down => false
  | _ => true
  end.

(** What a deployment has to get through. *)
Inductive Checkpoint : Type :=
| DockerInstalled | ComposeInstalled | DaemonRunning
| ComposeFilePresent | BackendPresent | PortfolioPresent | NginxConfPresent
| Built | ImagesListed | ContainersShown | NginxResolved
| BackendAnswered | NginxAnswered | ImageInspected.

(** The event of a trace that shows a checkpoint was passed: the
    command that tests it, with an answer that lets the script go on. *)
Definition evidence (k : Checkpoint) (e : Event) : bool :=
  match e with
  | Ran c r =>
      match k, c with
      | DockerInstalled, command_v_docker => status r =? 0
      | ComposeInstalled, command_v_docker_compose => status r =? 0
      | ComposeInstalled, docker_compose_version => status r =? 0
      | DaemonRunning, docker_info => status r =? 0
      | ComposeFilePresent, test_f path =>
          (String.eqb path "docker-compose.yaml" || String.eqb path "docker-compose.yml")
          && (status r =? 0)
      | BackendPresent, test_d path =>
          String.eqb path "banking-backend" && (status r =? 0)
      | PortfolioPresent, test_d path =>
          String.eqb path "studentportfolio" && (status r =? 0)
      | NginxConfPresent, test_f path =>
          String.eqb path "nginx.conf" && (status r =? 0)
      | Built, compose_up_build_d => status r =? 0
      | ImagesListed, docker_images =>
          match grep_E image_filter (stdout r) with
          | [] => false
          | _ :: _ => true
          end
      | ContainersShown, docker_ps => status r =? 0
      | NginxResolved, docker_ps_filter_nginx =>
          (status r =? 0) && negb (String.eqb (identifier r) "")
      | BackendAnswered, curl_f url =>
          String.eqb url "http://localhost:5000/api/login" && (status r =? 0)
      | BackendAnswered, curl_s url =>
          String.eqb url "http://localhost:5000" && (status r =? 0)
      | NginxAnswered, curl_f url =>
          String.eqb url "http://localhost:80" && (status r =? 0)
      | NginxAnswered, curl_s url =>
          String.eqb url "http://localhost:80" && contains "Pixel River" (stdout r)
      | ImageInspected, docker_inspect_nginx => status r =? 0
      | _, _ => false
      end
  | _ => false
  end.

(** The checkpoint of a health check. *)
Definition answered (c : Check) : Checkpoint :=
  match c with
  | Backend => BackendAnswered
  | Nginx => NginxAnswered
  end.

(** The line that ends the summary of section 8. *)
Definition completed : Event := Log "DEPLOYMENT COMPLETED SUCCESSFULLY!".

(** No line was printed by [error]. *)
Definition no_error (t : list Event) : Prop :=
  forall msg, ~ In (Error msg) t.

Section Predicates.

Context {host : Host}.

(** A fragment whose trace runs through the stages from [n] on, in
    order. *)
Definition staged (n : nat) {A} (m : Sh A) : Prop :=
  forall s, StronglySorted le (stages (snd (m s)))
            /\ Forall (le n) (stages (snd (m s))).

(** A fragment prints an error only as its last act, right before
    [exit 1]. *)
Definition graceful {A} (m : Sh A) : Prop :=
  forall s,
    no_error (snd (m s))
    \/ (fst (fst (m s)) = Exit 1
        /\ exists t0 msg, snd (m s) = (t0 ++ [Error msg])%list /\ no_error t0).

(** A fragment sleeps for at most [n] seconds. *)
Definition rests (n : Z) {A} (m : Sh A) : Prop :=
  forall s, 0 <= slept (snd (m s)) <= n.

(** The exit status of a fragment is accounted for: it is 1, or the
    status of a command that was run, in the fragment or in the [before]
    of it. *)
Definition accounted (before : list Event) {A} (m : Sh A) : Prop :=
  forall s code,
    fst (fst (m s)) = Exit code ->
    code = 1
    \/ exists c r, In (Ran c r) (before ++ snd (m s)) /\ status r = code.

(** A fragment that falls through has left an event that is [good]. *)
Definition passes (good : Event -> bool) {A} (m : Sh A) : Prop :=
  forall s,
    match m s with
    | (Next _, _, t) => existsb good t = true
    | _ => True
    end.

(** A fragment does not print the line of completion. *)
Definition unannounced {A} (m : Sh A) : Prop :=
  forall s, ~ In completed (snd (m s)).

(** A fragment prints the line of completion exactly when it falls
    through. *)
Definition announcing (m : Sh unit) : Prop :=
  forall s, In completed (snd (m s)) <-> fst (fst (m s)) = Next tt.

(** In the trace of a fragment a teardown occurs exactly when a probe
    reports. *)
Definition warranted {A} (m : Sh A) : Prop :=
  forall s, existsb tears_down (snd (m s)) = existsb reports (snd (m s)).

(** One of the installation checks of section 1 fails. *)
Definition installation_missing : Prop :=
  always_fails command_v_docker
  \/ (always_fails command_v_docker_compose /\ always_fails docker_compose_version)
  \/ always_fails docker_info.

End Predicates.

(** *** More hosts *)

(** The Docker daemon is not running. *)
Definition no_daemon (c : Cmd) : Result :=
  match c with
  | docker_info => failed
  | _ => healthy c
  end.

(** nginx refuses every probe. *)
Definition nginx_down (c : Cmd) : Result :=
  match c with
  | curl_f "http://localhost:80" | curl_s "http://localhost:80" => mkResult 7 ""
  | _ => healthy c
  end.

(** The build fails with a status of its own. *)
Definition build_fails (c : Cmd) : Result :=
  match c with
  | compose_up_build_d => mkResult 17 ""
  | _ => healthy c
  end.

End Behaviour.

(** ** The survey form *)

Module Survey.

(** A JavaScript string is a sequence of UTF-16 code units. *)
Definition JsString : Type := list N.

(** The code units of an ASCII text. *)
Definition js (s : string) : JsString := map N_of_ascii (list_ascii_of_string s).

Definition at_sign : N := 64.
Definition full_stop : N := 46.

(** The class escape [\s]: white space and line terminators. *)
Definition white_space (c : N) : bool :=
  ((c =? 9) || (c =? 10) || (c =? 11) || (c =? 12) || (c =? 13) || (c =? 32)
   || (c =? 160) || (c =? 5760) || ((8192 <=? c) && (c <=? 8202))
   || (c =? 8232) || (c =? 8233) || (c =? 8239) || (c =? 8287)
   || (c =? 12288) || (c =? 65279))%N.

(** What may stand between the brackets of a class. *)
Inductive ClassItem : Type :=
| Space                  (* \s *)
| Unit (c : N).          (* a literal character *)

Definition in_class (items : list ClassItem) (c : N) : bool :=
  existsb (fun item => match item with
                       | Space => white_space c
                       | Unit u => N.eqb c u
                       end) items.

(** Regular expressions.  [Fail] and [Alt] are not written in the
    pattern of the form; they arise when a pattern is matched. *)
Inductive Regex : Type :=
| Fail
| Empty
| Char (c : N)                       (* a character, or an escaped one such as \. *)
| NotIn (items : list ClassItem)     (* [^...] *)
| Seq (r1 r2 : Regex)
| Alt (r1 r2 : Regex)
| Star (r : Regex).

(** [r+] *)
Definition Plus (r : Regex) : Regex := Seq r (Star r).

Fixpoint nullable (r : Regex) : bool :=
  match r with
  | Fail => false
  | Empty => true
  | Char _ => false
  | NotIn _ => false
  | Seq r1 r2 => nullable r1 && nullable r2
  | Alt r1 r2 => nullable r1 || nullable r2
  | Star _ => true
  end.

(** What is left of [r] to match once [c] has been read. *)
Fixpoint after (c : N) (r : Regex) : Regex :=
  match r with
  | Fail => Fail
  | Empty => Fail
  | Char c' => if N.eqb c c' then Empty else Fail
  | NotIn items => if in_class items c then Fail else Empty
  | Seq r1 r2 =>
      if nullable r1 then Alt (Seq (after c r1) r2) (after c r2)
      else Seq (after c r1) r2
  | Alt r1 r2 => Alt (after c r1) (after c r2)
  | Star r1 => Seq (after c r1) (Star r1)
  end.

(** [/^r$/.test(s)]: the whole of [s] matches [r]. *)
Definition test (r : Regex) (s : JsString) : bool :=
  nullable (fold_left (fun r c => after c r) s r).

(** The strings a regular expression stands for. *)
Inductive lang : Regex -> JsString -> Prop :=
| lang_Empty : lang Empty []
| lang_Char c : lang (Char c) [c]
| lang_NotIn items c : in_class items c = false -> lang (NotIn items) [c]
| lang_Seq r1 r2 s1 s2 : lang r1 s1 -> lang r2 s2 -> lang (Seq r1 r2) (s1 ++ s2)%list
| lang_Alt_l r1 r2 s : lang r1 s -> lang (Alt r1 r2) s
| lang_Alt_r r1 r2 s : lang r2 s -> lang (Alt r1 r2) s
| lang_Star_nil r : lang (Star r) []
| lang_Star_app r s1 s2 : lang r s1 -> lang (Star r) s2 -> lang (Star r) (s1 ++ s2)%list.

(** [[^\s@]] *)
Definition no_space_no_at : Regex := NotIn [Space; Unit at_sign].

(** [/^[^\s@]+@[^\s@]+\.[^\s@]+$/] *)
Definition emailPattern : Regex :=
  Seq (Plus no_space_no_at)
      (Seq (Char at_sign)
           (Seq (Plus no_space_no_at)
                (Seq (Char full_stop) (Plus no_space_no_at)))).

(** A code unit that [[^\s@]] accepts. *)
Definition plain (c : N) : bool := negb (white_space c) && negb (N.eqb c at_sign).

(** A non-empty run of such code units. *)
Definition word (s : JsString) : Prop := s <> [] /\ Forall (fun c => plain c = true) s.

(** *** The form *)

(** The values of the three input nodes at the time of a submit. *)
Record Fields : Type := mkFields {
  nameInput : JsString;         (* nameInputNode.value *)
  transportType : JsString;     (* dropdownInputNode.value *)
  emailInput : JsString         (* emailInputNode.value *)
}.

(** An object pushed on [errorMessages]: the entered value under the
    name of its variable, and [fieldError]. *)
Record ErrorMessage : Type := mkErrorMessage {
  property : string;
  entered : JsString;
  fieldError : string
}.

(** The two variables the checks of [validateForm] share. *)
Record Validated : Type := mkValidated {
  isValid : bool;
  errorMessages : list ErrorMessage
}.

Definition push (m : ErrorMessage) (v : Validated) : Validated :=
  mkValidated false (errorMessages v ++ [m])%list.

Definition nameIsNotEmpty (f : Fields) (v : Validated) : Validated :=
  let nameEntered := nameInput f in
  if (length nameEntered <=? 0)%nat
  then push (mkErrorMessage "nameEntered" nameEntered "Name cannot be empty. ") v
  else v.

Definition isSelected (f : Fields) (v : Validated) : Validated :=
  let transportationSelection := transportType f in
  match transportationSelection with
  | [] => push (mkErrorMessage "transportationSelection" transportationSelection
                  "Transport type must be selected. ") v
  | _ :: _ => v
  end.

Definition isValidEmail (f : Fields) (v : Validated) : Validated :=
  let emailInput := emailInput f in
  let v1 :=
    match emailInput with
    | [] => push (mkErrorMessage "emailInput" emailInput "Email cannot be blank. ") v
    | _ :: _ => v
    end in
  if negb (test emailPattern emailInput)
  then push (mkErrorMessage "emailInput" emailInput "Please enter a valid email address. ") v1
  else v1.

(** [isValid] is still true exactly when no message has been pushed. *)
Definition coherent (v : Validated) : Prop :=
  isValid v = true <-> errorMessages v = [].

Definition validateForm (f : Fields) : Validated :=
  isValidEmail f (isSelected f (nameIsNotEmpty f (mkValidated true []))).

(** *** The submit listener *)

(** An element as [showErrors] builds it. *)
Record Element : Type := mkElement {
  localName : string;
  role : string;
  textContent : string;
  className : string
}.

(** [showErrors]: a [span] with the role of an alert. *)
Definition error_span (fieldError : string) : Element :=
  mkElement "span" "alert" fieldError "error-message".

(** The page in which the listener runs: what [querySelectorAll]
    finds, how a node is removed, what the inputs hold, and how a child
    is appended to the survey form. *)
Class Dom : Type := {
  Page : Type;
  Node : Type;
  querySelectorAll : string -> Page -> list Node;
  remove : Node -> Page -> Page;
  fields : Page -> Fields;
  appendChild : Element -> Page -> Page
}.

Section Listener.

Context {dom : Dom}.

(** What the listener does to the page and to the event. *)
Inductive Call : Type :=
| Removed (node : Node)             (* node.remove() *)
| PreventedDefault                  (* event.preventDefault() *)
| Appended (e : Element).           (* transportSurveyNode.appendChild(e) *)

Definition clearErrors (p : Page) : Page * list Call :=
  let errorMessageNodes := querySelectorAll "error-message" p in
  (fold_left (fun p node => remove node p) errorMessageNodes p,
   map Removed errorMessageNodes).

Definition showErrors (fieldError : string) (p : Page) : Page * list Call :=
  let errorTextNode := error_span fieldError in
  (appendChild errorTextNode p, [Appended errorTextNode]).

(** The listener of the [submit] event. *)
Definition submit (p : Page) : Page * list Call :=
  let '(p1, cleared) := clearErrors p in
  let validatedObject := validateForm (fields p1) in
  if negb (isValid validatedObject) then
    fold_left
      (fun '(p, calls) message =>
         let '(p', shown) := showErrors (fieldError message) p in
         (p', (calls ++ shown)%list))
      (errorMessages validatedObject)
      (p1, (cleared ++ [PreventedDefault])%list)
  else (p1, cleared).

End Listener.

(** A page whose survey form holds a flat list of elements, each with
    an identity; a selector is read as a type selector, which is what
    the listener passes. *)
Record FlatPage : Type := mkFlatPage {
  inputs : Fields;
  children : list (nat * Element);
  next_id : nat
}.

Definition flat : Dom :=
  {| Page := FlatPage;
     Node := nat;
     querySelectorAll := fun selector p =>
       map fst (filter (fun '(_, e) => String.eqb (localName e) selector) (children p));
     remove := fun node p =>
       mkFlatPage (inputs p)
                  (filter (fun '(id, _) => negb (Nat.eqb id node)) (children p))
                  (next_id p);
     fields := inputs;
     appendChild := fun e p =>
       mkFlatPage (inputs p) (children p ++ [(next_id p, e)])%list (S (next_id p)) |}.

(** Each element has an identity of its own, older than [next_id]. *)
Definition distinct_nodes (p : FlatPage) : Prop :=
  NoDup (map fst (children p)) /\
  Forall (fun '(id, _) => (id < next_id p)%nat) (children p).

(** The elements of the form that are [span]s. *)
Definition spans (p : FlatPage) : list Element :=
  filter (fun e => String.eqb (localName e) "span") (map snd (children p)).

(** The page after [n] submits. *)
Definition resubmit (n : nat) (p : FlatPage) : FlatPage :=
  Nat.iter n (fun p => fst (submit (dom := flat) p)) p.

(** The alerts a submit of the fields [f] shows. *)
Definition alerts (f : Fields) : list Element :=
  map (fun message => error_span (fieldError message))
      (errorMessages (validateForm f)).

(** The fields pass the three checks. *)
Definition acceptable (f : Fields) : Prop :=
  nameInput f <> [] /\ transportType f <> [] /\
  test emailPattern (emailInput f) = true.

Definition is_appended {dom : Dom} (c : Call) : bool :=
  match c with Appended _ => true | _ => false end.

Definition sample_page : FlatPage :=
  mkFlatPage (mkFields (js "Ada") [] (js "ada@example"))
             [(0%nat, mkElement "input" EmptyString EmptyString EmptyString); (1%nat, mkElement "span" "alert" "Old. " "error-message")]
             2%nat.

End Survey.

(** ** Properties of the deployment script *)

Module DeployFacts.

Import Text Deploy.

#[local] Arguments show_Z : simpl never.
#[local] Arguments strip_trailing_newlines : simpl never.
#[local] Arguments grep_E : simpl never.
#[local] Arguments contains : simpl never.

(** Symbolic execution: unfold the shell operations, then case on what
    the host answers. *)
Ltac open_sh :=
  cbv beta iota delta
    [bind ret emit exit log error warning echo run succeeds errexit sleep get banner
     set_MAX_RETRIES set_RETRY_COUNT set_NGINX_CONTAINER_ID set_SCRIPT_DIR fresh].

Ltac tidy :=
  unfold set_world;
  cbn [fst snd world MAX_RETRIES RETRY_COUNT NGINX_CONTAINER_ID SCRIPT_DIR
       status stdout negb app].

Ltac exec_step :=
  match goal with
  | |- context [exec ?c ?w] =>
      let r := fresh "r" in
      let w' := fresh "w" in
      let E := fresh "E" in
      destruct (exec c w) as [r w'] eqn:E; tidy
  end.

Ltac status_step :=
  match goal with
  | |- context [status ?r =? 0] =>
      let Z := fresh "Z" in
      destruct (Z.eqb_spec (status r) 0) as [Z|Z]; tidy
  end.


Section Traces.

Context {host : Host}.

(** *** Traces *)

Lemma commands_app (t1 t2 : list Event) :
  commands (t1 ++ t2) = (commands t1 ++ commands t2)%list.
Proof.
  induction t1 as [|e t1 IH]; simpl; [reflexivity|].
  destruct e; simpl; rewrite ?IH; reflexivity.
Qed.

Lemma counter_values_app (t1 t2 : list Event) :
  counter_values (t1 ++ t2) = (counter_values t1 ++ counter_values t2)%list.
Proof.
  induction t1 as [|e t1 IH]; simpl; [reflexivity|].
  destruct e; simpl; rewrite ?IH; try reflexivity.
  destruct (String.eqb var "RETRY_COUNT"); reflexivity.
Qed.

Lemma attempts_made_app c (t1 t2 : list Event) :
  attempts_made c (t1 ++ t2) = (attempts_made c t1 + attempts_made c t2)%nat.
Proof.
  unfold attempts_made. rewrite commands_app, filter_app, length_app. reflexivity.
Qed.


(** *** Which commands a fragment runs *)

Lemma only_bind {A B} pc (m : Sh A) (f : A -> Sh B) :
  only pc m -> (forall a, only pc (f a)) -> only pc (bind m f).
Proof.
  intros Hm Hf s c. unfold bind.
  destruct (m s) as [[[a|code|] s1] t1] eqn:E; simpl.
  - destruct (f a s1) as [[o s2] t2] eqn:F; simpl.
    rewrite commands_app, in_app_iff. intros [H|H].
    + apply (Hm s). rewrite E. exact H.
    + apply (Hf a s1). rewrite F. exact H.
  - intros H. apply (Hm s). rewrite E. exact H.
  - intros H. apply (Hm s). rewrite E. exact H.
Qed.

Lemma only_quiet {A} pc (m : Sh A) :
  (forall s, commands (snd (m s)) = []) -> only pc m.
Proof. intros H s c. rewrite H. intros []. Qed.

Lemma only_run pc c : pc c = true -> only pc (run c).
Proof.
  intros H s c'. unfold run. destruct (exec c (world s)) as [r w]. simpl.
  intros [<-|[]]. exact H.
Qed.

Lemma only_if {A} pc (b : bool) (m1 m2 : Sh A) :
  only pc m1 -> only pc m2 -> only pc (if b then m1 else m2).
Proof. destruct b; auto. Qed.

End Traces.

Ltac only_tac :=
  repeat first
    [ apply only_bind; [|intros]
    | apply only_if
    | apply only_run; reflexivity
    | apply only_quiet; intros; reflexivity
    | match goal with |- only _ (match ?x with _ => _ end) => destruct x end ].

Section Runs.

Context {host : Host}.

Lemma only_succeeds pc c : pc c = true -> only pc (succeeds c).
Proof. intros H. unfold succeeds. only_tac. apply only_run, H. Qed.

Lemma only_for_each {A} pc (l : list A) (body : A -> Sh unit) :
  (forall x, only pc (body x)) -> only pc (for_each l body).
Proof.
  intros H. induction l as [|x l IH]; simpl.
  - apply only_quiet. reflexivity.
  - apply only_bind; auto.
Qed.

Lemma section1_only : only (in_section 1) section1.
Proof.
  unfold section1, check_docker, check_compose, check_daemon, check_ports, banner, succeeds, log, error.
  only_tac.
Qed.

Lemma section2_only : only (in_section 2) section2.
Proof.
  unfold section2, banner, succeeds, log, error. only_tac.
Qed.

Lemma section3_only : only (in_section 3) section3.
Proof. unfold section3, banner, log. only_tac. Qed.
Lemma section4_only : only (in_section 4) section4.
Proof. unfold section4, errexit, banner, log. only_tac. Qed.
Lemma section5_only : only (in_section 5) section5.
Proof. unfold section5, list_images, show_containers, resolve_nginx, errexit, banner, log. only_tac. Qed.
Lemma section7_only : only (in_section 7) section7.
Proof. unfold section7, errexit, banner, log. only_tac. Qed.
Lemma section8_only : only (in_section 8) section8.
Proof. unfold section8, errexit, banner, log. only_tac. Qed.

(** *** Section 2 without a required file *)

Lemma halts_exit code : code <> 0 -> halts_nonzero (Exit code).
Proof. intros H. exists code. split; [reflexivity|exact H]. Qed.

Ltac fails_here H :=
  match goal with
  | E : exec ?c ?w = (?r, _), Z : status ?r = 0 |- _ =>
      exfalso; apply (H w); rewrite E; exact Z
  end.

Lemma section2_missing : required_missing -> forall s, halts_nonzero (fst (fst (section2 s))).
Proof.
  intros H s. unfold section2. open_sh. tidy.
  exec_step. status_step; [|apply halts_exit; assumption].
  exec_step. status_step.
  - (* yaml present *)
    exec_step. status_step; [|apply halts_exit; lia].
    exec_step. status_step; [|apply halts_exit; lia].
    exec_step. status_step; [|apply halts_exit; lia].
    destruct H as [[H _]|[H|[H|H]]]; fails_here H.
  - exec_step. status_step; [|apply halts_exit; lia].
    exec_step. status_step; [|apply halts_exit; lia].
    exec_step. status_step; [|apply halts_exit; lia].
    exec_step. status_step; [|apply halts_exit; lia].
    destruct H as [[_ H]|[H|[H|H]]]; fails_here H.
Qed.

(** *** The retry loop *)

(** A probe only consults the host. *)
Lemma probe_run (c : Check) (s : Shell) :
  exists t,
    probe c s = (Next (fst (attempt c (world s))), set_world (snd (attempt c (world s))) s, t)
    /\ attempts_made c t = 1%nat
    /\ counter_values t = []
    /\ (forall cmd, In cmd (commands t) -> section_of cmd = 6%nat).
Proof.
  unfold attempt. destruct c; unfold probe, backend_probe, nginx_probe; open_sh; tidy.
  - exec_step. status_step.
    + eexists. split; [reflexivity|]. repeat split. intros cmd [<-|[]]. reflexivity.
    + exec_step. eexists. split; [reflexivity|]. repeat split.
      intros cmd [<-|[<-|[]]]; reflexivity.
  - exec_step. status_step.
    + eexists. split; [reflexivity|]. repeat split. intros cmd [<-|[]]. reflexivity.
    + exec_step. eexists. split; [reflexivity|]. repeat split.
      intros cmd [<-|[<-|[]]]; reflexivity.
Qed.

Lemma first_success_step (c : Check) (w : World) (n : nat) :
  first_success c w (S n) =
    if fst (attempt c w) then Some O
    else option_map S (first_success c (pause 3 (snd (attempt c w))) n).
Proof. simpl. destruct (attempt c w) as [up w']. reflexivity. Qed.

Lemma counting_S (from : Z) (k : nat) :
  counting from (S k) = (from + 1) :: counting (from + 1) k.
Proof.
  unfold counting. simpl. f_equal. rewrite <- seq_shift, map_map.
  apply map_ext. intros i. lia.
Qed.

Lemma retry_loop_run (c : Check) (ok_msg name : string) :
  forall (fuel : nat) (s : Shell),
    (iterations_left s <= fuel)%nat ->
    match first_success c (world s) (iterations_left s) with
    | Some k =>
        exists s' t,
          retry_loop (probe c) ok_msg (check_Name c) name fuel s = (Next tt, s', t)
          /\ MAX_RETRIES s' = MAX_RETRIES s
          /\ RETRY_COUNT s' = RETRY_COUNT s + Z.of_nat k
          /\ attempts_made c t = S k
          /\ counter_values t = counting (RETRY_COUNT s) k
          /\ (forall cmd, In cmd (commands t) -> section_of cmd = 6%nat)
    | None =>
        match iterations_left s with
        | O => retry_loop (probe c) ok_msg (check_Name c) name fuel s = (Next tt, s, [])
        | S k =>
            exists s' t,
              retry_loop (probe c) ok_msg (check_Name c) name fuel s
                = (Exit 1, s', (t ++ failure_report c (MAX_RETRIES s))%list)
              /\ MAX_RETRIES s' = MAX_RETRIES s
              /\ RETRY_COUNT s' = MAX_RETRIES s
              /\ attempts_made c t = S k
              /\ counter_values t = counting (RETRY_COUNT s) k
              /\ (forall cmd, In cmd (commands t) -> section_of cmd = 6%nat)
        end
    end.
Proof.
  induction fuel as [|fuel IH]; intros s Hfuel.
  - assert (E : iterations_left s = O) by lia. rewrite E. simpl first_success.
    unfold iterations_left in E. cbn [retry_loop]. open_sh. tidy.
    destruct (Z.ltb_spec (RETRY_COUNT s) (MAX_RETRIES s)); [lia|reflexivity].
  - destruct (iterations_left s) as [|n] eqn:En.
    + simpl first_success. unfold iterations_left in En. cbn [retry_loop]. open_sh. tidy.
      destruct (Z.ltb_spec (RETRY_COUNT s) (MAX_RETRIES s)); [lia|reflexivity].
    + rewrite first_success_step.
      destruct (probe_run c s) as (tp & Hp & Hatt & Hcnt & Hsec).
      unfold iterations_left in En.
      cbn [retry_loop]. open_sh. tidy.
      destruct (Z.ltb_spec (RETRY_COUNT s) (MAX_RETRIES s)) as [Hlt|Hge]; [|lia].
      rewrite Hp. tidy.
      destruct (fst (attempt c (world s))) eqn:Hup.
      * (* the probe succeeds: break *)
        eexists _, _. split; [reflexivity|]. tidy.
        rewrite attempts_made_app, counter_values_app, Hatt, Hcnt.
        repeat split; try reflexivity; try lia.
        intros cmd. rewrite commands_app, in_app_iff. intros [H|[]]. auto.
      * destruct (Z.eqb_spec (RETRY_COUNT s + 1) (MAX_RETRIES s)) as [Hmax|Hmore].
        -- (* the budget is spent *)
           assert (n = O) by lia. subst n. simpl first_success. cbn [option_map].
           eexists _, tp. split.
           ++ unfold failure_report. rewrite Hmax. reflexivity.
           ++ tidy. repeat split; auto.
        -- (* wait and try again *)
           tidy.
           set (s2 := mkShell (pause 3 (snd (attempt c (world s)))) (MAX_RETRIES s)
                              (RETRY_COUNT s + 1) (NGINX_CONTAINER_ID s) (SCRIPT_DIR s)).
           assert (Hn : iterations_left s2 = n) by (unfold iterations_left, s2; tidy; lia).
           specialize (IH s2). rewrite Hn in IH. specialize (IH ltac:(lia)).
           change (world s2) with (pause 3 (snd (attempt c (world s)))) in IH.
           destruct (first_success c (pause 3 (snd (attempt c (world s)))) n) as [k|].
           ++ destruct IH as (s' & t & Hrun & Hm & Hc & Ha & Hv & Hs).
              cbn [option_map]. fold s2. rewrite Hrun.
              eexists _, _. split; [reflexivity|].
              unfold attempts_made in *.
              rewrite !commands_app, !counter_values_app, filter_app, length_app.
              simpl (commands (_ :: _)). simpl (counter_values (_ :: _)).
              rewrite Hatt, Hcnt, Ha, Hv, counting_S. unfold s2 in *; cbn [world MAX_RETRIES RETRY_COUNT] in *.
              repeat split; auto; try lia.
              intros cmd. rewrite in_app_iff. intros [H|H]; auto.
           ++ cbn [option_map]. destruct n as [|k]; [lia|].
              destruct IH as (s' & t & Hrun & Hm & Hc & Ha & Hv & Hs).
              fold s2. rewrite Hrun.
              eexists s', (tp ++ AssignZ "RETRY_COUNT" (RETRY_COUNT s + 1) :: Log _ :: Slept 3 :: t)%list.
              split.
              { unfold s2; tidy. rewrite <- !app_assoc. simpl. reflexivity. }
              unfold attempts_made in *.
              rewrite !commands_app, !counter_values_app, filter_app, length_app.
              simpl (commands (_ :: _)). simpl (counter_values (_ :: _)).
              rewrite Hatt, Hcnt, Ha, Hv, counting_S. unfold s2 in *; cbn [world MAX_RETRIES RETRY_COUNT] in *.
              repeat split; auto; try lia.
              intros cmd. rewrite in_app_iff. intros [H|H]; auto.
Qed.

Lemma poll_run (c : Check) (s : Shell) :
  match first_success c (world s) (Z.to_nat (MAX_RETRIES s)) with
  | Some k =>
      exists s' t,
        poll c s = (Next tt, s', t)
        /\ MAX_RETRIES s' = MAX_RETRIES s
        /\ RETRY_COUNT s' = Z.of_nat k
        /\ attempts_made c t = S k
        /\ counter_values t = 0 :: counting 0 k
        /\ (forall cmd, In cmd (commands t) -> section_of cmd = 6%nat)
  | None =>
      match Z.to_nat (MAX_RETRIES s) with
      | O => exists s', poll c s = (Next tt, s', [AssignZ "RETRY_COUNT" 0])
      | S k =>
          exists s' t,
            poll c s = (Exit 1, s', (t ++ failure_report c (MAX_RETRIES s))%list)
            /\ MAX_RETRIES s' = MAX_RETRIES s
            /\ RETRY_COUNT s' = MAX_RETRIES s
            /\ attempts_made c t = S k
            /\ counter_values t = 0 :: counting 0 k
            /\ (forall cmd, In cmd (commands t) -> section_of cmd = 6%nat)
      end
  end.
Proof.
  set (s0 := mkShell (world s) (MAX_RETRIES s) 0 (NGINX_CONTAINER_ID s) (SCRIPT_DIR s)).
  assert (Hn : iterations_left s0 = Z.to_nat (MAX_RETRIES s)).
  { unfold iterations_left, s0. tidy. f_equal. lia. }
  assert (Hpoll : forall ok_msg name,
             health_check (probe c) ok_msg (check_Name c) name s
             = match retry_loop (probe c) ok_msg (check_Name c) name (iterations_left s0) s0 with
               | (o, s', t) => (o, s', AssignZ "RETRY_COUNT" 0 :: t)
               end).
  { intros. unfold health_check. open_sh. tidy. fold s0.
    destruct (retry_loop _ _ _ _ _ s0) as [[o s'] t]. reflexivity. }
  assert (Hc : exists ok_msg name,
             poll c s = health_check (probe c) ok_msg (check_Name c) name s).
  { destruct c; eexists _, _; reflexivity. }
  destruct Hc as (ok_msg & name & ->). rewrite Hpoll.
  pose proof (retry_loop_run c ok_msg name (iterations_left s0) s0 (le_n _)) as H.
  rewrite Hn in *. change (world s0) with (world s) in H.
  change (MAX_RETRIES s0) with (MAX_RETRIES s) in H.
  change (RETRY_COUNT s0) with 0 in H.
  destruct (first_success c (world s) (Z.to_nat (MAX_RETRIES s))) as [k|].
  - destruct H as (s' & t & -> & Hm & Hr & Ha & Hv & Hs).
    exists s', (AssignZ "RETRY_COUNT" 0 :: t). simpl counter_values. rewrite Hv.
    repeat split; auto.
  - destruct (Z.to_nat (MAX_RETRIES s)) as [|k].
    + rewrite H. eexists. reflexivity.
    + destruct H as (s' & t & -> & Hm & Hr & Ha & Hv & Hs).
      exists s', (AssignZ "RETRY_COUNT" 0 :: t). simpl counter_values. rewrite Hv.
      repeat split; auto.
Qed.

Lemma host_before_shift (c : Check) (w : World) (k : nat) :
  host_before c w (S k) = host_before c (pause 3 (snd (attempt c w))) k.
Proof.
  induction k as [|k IH]; [reflexivity|].
  change (host_before c w (S (S k)))
    with (pause 3 (snd (attempt c (host_before c w (S k))))).
  rewrite IH. reflexivity.
Qed.

Lemma responds_shift (c : Check) (w : World) (j : nat) :
  responds c w (S (S j)) = responds c (pause 3 (snd (attempt c w))) (S j).
Proof.
  unfold responds. cbn [Nat.sub]. rewrite Nat.sub_0_r, host_before_shift. reflexivity.
Qed.

Lemma responds_first (c : Check) (w : World) : responds c w 1 = fst (attempt c w).
Proof. reflexivity. Qed.

Lemma first_success_Some (c : Check) (n : nat) :
  forall (w : World) (k : nat),
    first_success c w n = Some k <->
    (k < n)%nat /\ responds c w (S k) = true
    /\ (forall j, (1 <= j <= k)%nat -> responds c w j = false).
Proof.
  induction n as [|n IH]; intros w k.
  - simpl. split; [discriminate|]. intros [H _]. lia.
  - rewrite first_success_step. destruct (fst (attempt c w)) eqn:Hup.
    + split.
      * intros [= <-]. repeat split; [lia|exact Hup|]. intros j Hj. lia.
      * intros (Hk & Hr & Hprev). destruct k as [|k]; [reflexivity|].
        specialize (Hprev 1%nat ltac:(lia)). rewrite responds_first in Hprev. congruence.
    + destruct k as [|k].
      * split.
        -- destruct (first_success c _ n); discriminate.
        -- intros (_ & Hr & _). rewrite responds_first in Hr. congruence.
      * specialize (IH (pause 3 (snd (attempt c w))) k).
        destruct (first_success c (pause 3 (snd (attempt c w))) n) as [k'|]; cbn [option_map].
        -- split.
           ++ intros [= ->]. destruct (proj1 IH eq_refl) as (Hk & Hr & Hprev).
              repeat split; [lia|rewrite responds_shift; exact Hr|].
              intros [|[|j]] Hj; [lia|exact Hup|].
              rewrite responds_shift. apply Hprev. lia.
           ++ intros (Hk & Hr & Hprev).
              assert (Some k' = Some k) as E; [|injection E as ->; reflexivity].
              apply IH. repeat split; [lia|rewrite <- responds_shift; exact Hr|].
              intros [|j] Hj; [lia|]. rewrite <- responds_shift. apply Hprev. lia.
        -- split; [discriminate|].
           intros (Hk & Hr & Hprev). exfalso.
           assert (None = Some k) as E; [|discriminate E].
           apply IH. repeat split; [lia|rewrite <- responds_shift; exact Hr|].
           intros [|j] Hj; [lia|]. rewrite <- responds_shift. apply Hprev. lia.
Qed.

Lemma first_success_None (c : Check) (n : nat) :
  forall (w : World),
    first_success c w n = None <->
    (forall j, (1 <= j <= n)%nat -> responds c w j = false).
Proof.
  induction n as [|n IH]; intros w.
  - simpl. split; [|reflexivity]. intros _ j Hj. lia.
  - rewrite first_success_step. destruct (fst (attempt c w)) eqn:Hup.
    + split; [discriminate|]. intros H.
      specialize (H 1%nat ltac:(lia)). rewrite responds_first in H. congruence.
    + specialize (IH (pause 3 (snd (attempt c w)))).
      destruct (first_success c (pause 3 (snd (attempt c w))) n) as [k|]; cbn [option_map].
      * split; [discriminate|]. intros H.
        assert (Some k = None) as E; [|discriminate E].
        apply IH. intros [|j] Hj; [lia|]. rewrite <- responds_shift. apply H. lia.
      * split; [|reflexivity]. intros _ [|[|j]] Hj; [lia|exact Hup|].
        rewrite responds_shift. apply (proj1 IH eq_refl). lia.
Qed.

Lemma counting_bounds (from : Z) (k : nat) :
  Forall (fun v => from < v <= from + Z.of_nat k) (counting from k).
Proof.
  unfold counting. apply Forall_forall. intros v Hv.
  apply in_map_iff in Hv. destruct Hv as (i & <- & Hi).
  apply in_seq in Hi. lia.
Qed.

End Runs.

(** *** The health-check loops *)

Section HealthChecks.

Context {host : Host}.

(** C2. With a budget of 10 attempts, a health check succeeds at attempt
    [K] (for 1 <= K <= 10) exactly when attempt [K] gets a success and
    each of the [K - 1] attempts before it does not; and it fails, ending
    the script with status 1, exactly when all 10 attempts get no
    success. *)
Theorem C2_polling_succeeds_at_first_success (c : Check) (s : Shell) :
  MAX_RETRIES s = 10 ->
  (forall K : nat, (1 <= K <= 10)%nat ->
     (succeeds_at c s K <->
      responds c (world s) K = true
      /\ forall j, (1 <= j < K)%nat -> responds c (world s) j = false))
  /\ (gives_up c s <->
      forall j, (1 <= j <= 10)%nat -> responds c (world s) j = false).
Proof.
  intros Hmax. pose proof (poll_run c s) as Hrun. rewrite Hmax in Hrun.
  change (Z.to_nat 10) with 10%nat in Hrun.
  destruct (first_success c (world s) 10) as [k|] eqn:Hfirst.
  - destruct Hrun as (s' & t & Hpoll & _ & _ & Hatt & _).
    apply first_success_Some in Hfirst. destruct Hfirst as (Hk & Hyes & Hno).
    split.
    + intros K HK. split.
      * intros (s1 & t1 & Hpoll1 & Hatt1). rewrite Hpoll in Hpoll1.
        injection Hpoll1 as _ Ht. subst t1. rewrite Hatt in Hatt1. subst K.
        split; [exact Hyes|]. intros j Hj. apply Hno. lia.
      * intros (Hyes' & Hno'). exists s', t. split; [exact Hpoll|].
        rewrite Hatt.
        destruct (Nat.lt_trichotomy K (S k)) as [Hlt|[Heq|Hgt]]; [|congruence|].
        -- rewrite (Hno K) in Hyes' by lia. discriminate.
        -- rewrite (Hno' (S k)) in Hyes by lia. discriminate.
    + split.
      * intros (s1 & t1 & Hpoll1). rewrite Hpoll in Hpoll1. discriminate.
      * intros Hall. rewrite (Hall (S k)) in Hyes by lia. discriminate.
  - destruct Hrun as (s' & t & Hpoll & _).
    pose proof (proj1 (first_success_None c 10 (world s)) Hfirst) as Hall.
    split.
    + intros K HK. split.
      * intros (s1 & t1 & Hpoll1 & _). rewrite Hpoll in Hpoll1. discriminate.
      * intros (Hyes & _). rewrite (Hall K) in Hyes by lia. discriminate.
    + split; [intros _; exact Hall|]. intros _. eexists _, _. exact Hpoll.
Qed.

(** C6. In a health-check loop with [MAX_RETRIES=10] the counter never
    exceeds the maximum: every value it takes lies between 0 and 10.
    The loop ends, by success or by [exit 1], after at most 10 attempts;
    the counter reaches 10 only in the iteration that reports the
    failure and exits. *)
Theorem C6_retry_counter_bounded (c : Check) (s : Shell) :
  MAX_RETRIES s = 10 ->
  exists o s' t,
    poll c s = (o, s', t)
    /\ (o = Next tt \/ o = Exit 1)
    /\ Forall (fun v => 0 <= v <= 10) (counter_values t)
    /\ MAX_RETRIES s' = 10
    /\ 0 <= RETRY_COUNT s' <= 10
    /\ (attempts_made c t <= 10)%nat
    /\ (o = Next tt -> Forall (fun v => 0 <= v < 10) (counter_values t))
    /\ (o = Exit 1 ->
        exists t0, t = (t0 ++ failure_report c 10)%list
                   /\ Forall (fun v => 0 <= v < 10) (counter_values t0)
                   /\ attempts_made c t0 = 10%nat).
Proof.
  intros Hmax. pose proof (poll_run c s) as Hrun. rewrite Hmax in Hrun.
  change (Z.to_nat 10) with 10%nat in Hrun.
  destruct (first_success c (world s) 10) as [k|] eqn:Hfirst.
  - destruct Hrun as (s' & t & Hpoll & Hm & Hc & Hatt & Hv & _).
    apply first_success_Some in Hfirst. destruct Hfirst as (Hk & _).
    assert (Hbelow : Forall (fun v => 0 <= v < 10) (counter_values t)).
    { rewrite Hv. constructor; [lia|].
      eapply Forall_impl; [|apply counting_bounds]. cbv beta. intros v Hb. lia. }
    exists (Next tt), s', t. repeat split; auto; try lia.
    + eapply Forall_impl; [|exact Hbelow]. cbv beta. intros v Hb. lia.
    + discriminate.
  - destruct Hrun as (s' & t0 & Hpoll & Hm & Hc & Hatt & Hv & _).
    assert (Hbelow : Forall (fun v => 0 <= v < 10) (counter_values t0)).
    { rewrite Hv. constructor; [lia|].
      eapply Forall_impl; [|apply counting_bounds]. cbv beta. intros v Hb. lia. }
    exists (Exit 1), s', (t0 ++ failure_report c 10)%list.
    repeat split; auto; try lia.
    + rewrite counter_values_app. apply Forall_app. split.
      * eapply Forall_impl; [|exact Hbelow]. cbv beta. intros v Hb. lia.
      * simpl. constructor; [lia|constructor].
    + rewrite attempts_made_app, Hatt.
      change (attempts_made c (failure_report c 10)) with 0%nat. lia.
    + discriminate.
    + intros _. exists t0. repeat split; auto.
Qed.

End HealthChecks.

(** *** Sequencing, outcomes, and the whole run *)

Section Sequencing.

Context {host : Host}.

(** *** Sequencing *)

Lemma bind_Next {A B} (m : Sh A) (f : A -> Sh B) s a s1 t1 :
  m s = (Next a, s1, t1) ->
  bind m f s = (fst (fst (f a s1)), snd (fst (f a s1)), (t1 ++ snd (f a s1))%list).
Proof. intros E. unfold bind. rewrite E. destruct (f a s1) as [[o s2] t2]. reflexivity. Qed.

Lemma bind_Exit {A B} (m : Sh A) (f : A -> Sh B) s code s1 t1 :
  m s = (Exit code, s1, t1) -> bind m f s = (Exit code, s1, t1).
Proof. intros E. unfold bind. rewrite E. reflexivity. Qed.

Lemma bind_OutOfFuel {A B} (m : Sh A) (f : A -> Sh B) s s1 t1 :
  m s = (OutOfFuel, s1, t1) -> bind m f s = (OutOfFuel, s1, t1).
Proof. intros E. unfold bind. rewrite E. reflexivity. Qed.

End Sequencing.

Ltac step_section E :=
  match goal with
  | |- context [bind ?m ?f ?s] =>
      let o := fresh "o" in
      let s' := fresh "s" in
      let t := fresh "t" in
      destruct (m s) as [[o s'] t] eqn:E; destruct o as [[]|?code|];
      [ rewrite (bind_Next m f s tt s' t E)
      | rewrite (bind_Exit m f s _ s' t E)
      | rewrite (bind_OutOfFuel m f s s' t E) ];
      cbn [fst snd]
  end.

Section WholeRun.

Context {host : Host}.

Lemma bind_trace_incl {A B} (m : Sh A) (f : A -> Sh B) (s : Shell) (c : Cmd) :
  In c (commands (snd (m s))) -> In c (commands (snd (bind m f s))).
Proof.
  unfold bind. destruct (m s) as [[[a|code|] s1] t1]; cbn [snd]; auto.
  destruct (f a s1) as [[o s2] t2]. cbn [snd]. rewrite commands_app, in_app_iff. auto.
Qed.

Lemma only_trace {A} pc (m : Sh A) s o s' t :
  only pc m -> m s = (o, s', t) -> forall c, In c (commands t) -> pc c = true.
Proof. intros H E c Hc. apply (H s). rewrite E. exact Hc. Qed.

Lemma events_commands c r t : In (Ran c r) t -> In c (commands t).
Proof.
  induction t as [|e t IH]; simpl; [auto|].
  intros [->|H]; [left; reflexivity|].
  destruct e; auto. right. auto.
Qed.

(** *** Outcomes *)

Lemma sound_bind {A B} (m : Sh A) (f : A -> Sh B) :
  sound m -> (forall a, sound (f a)) -> sound (bind m f).
Proof.
  intros Hm Hf s. specialize (Hm s). unfold bind.
  destruct (m s) as [[[a|code|] s1] t1]; cbn [fst snd] in *; auto.
  specialize (Hf a s1). destruct (f a s1) as [[o s2] t2]. exact Hf.
Qed.

Lemma sound_plain {A} (m : Sh A) :
  (forall s, exists a, fst (fst (m s)) = Next a) -> sound m.
Proof. intros H s. destruct (H s) as [a ->]. exact I. Qed.

Lemma sound_run c : sound (run c).
Proof. intros s. unfold run. destruct (exec c (world s)). exact I. Qed.

Lemma sound_exit {A} code : code <> 0 -> sound (@exit host A code).
Proof. intros H s. exact H. Qed.

Lemma sound_if {A} (b : bool) (m1 m2 : Sh A) :
  sound m1 -> sound m2 -> sound (if b then m1 else m2).
Proof. destruct b; auto. Qed.

Lemma sound_guard {A} (r : Result) (m : Sh A) :
  sound m -> sound (if status r =? 0 then m else exit (status r)).
Proof.
  intros H. destruct (Z.eqb_spec (status r) 0) as [E|E]; [exact H|].
  apply sound_exit, E.
Qed.

Ltac sound_tac :=
  repeat first
    [ apply sound_bind; [|intros]
    | apply sound_guard
    | apply sound_if
    | apply sound_run
    | apply sound_exit; lia
    | apply sound_plain; intros; eexists; reflexivity
    | match goal with |- sound (match ?x with _ => _ end) => destruct x end ].

Lemma section1_sound : sound section1.
Proof.
  unfold section1, check_docker, check_compose, check_daemon, check_ports, banner,
    succeeds, log, error.
  sound_tac.
Qed.

Lemma section2_sound : sound section2.
Proof. unfold section2, banner, succeeds, log, error. sound_tac. Qed.

Lemma section3_sound : sound section3.
Proof. unfold section3, banner, log. sound_tac. Qed.

Lemma section4_sound : sound section4.
Proof. unfold section4, errexit, banner, log. sound_tac. Qed.

Lemma section5_sound : sound section5.
Proof.
  unfold section5, list_images, show_containers, resolve_nginx, errexit, banner, log, error.
  sound_tac.
Qed.

Lemma section7_sound : sound section7.
Proof. unfold section7, errexit, banner, log, echo. sound_tac. Qed.

Lemma section8_sound : sound section8.
Proof. unfold section8, banner, log, echo. sound_tac. Qed.

Lemma poll_sound (c : Check) : sound (poll c).
Proof.
  intros s. pose proof (poll_run c s) as H.
  destruct (first_success c (world s) (Z.to_nat (MAX_RETRIES s))).
  - destruct H as (s' & t & -> & _). exact I.
  - destruct (Z.to_nat (MAX_RETRIES s)).
    + destruct H as (s' & ->). exact I.
    + destruct H as (s' & t & -> & _). cbn. lia.
Qed.

Lemma section6_sound : sound section6.
Proof.
  unfold section6, backend_health, nginx_health, banner, log.
  repeat first [ apply poll_sound | apply sound_bind; [|intros]
               | apply sound_plain; intros; eexists; reflexivity ].
Qed.

Lemma script_sound : sound script.
Proof.
  unfold script.
  repeat first
    [ apply section1_sound | apply section2_sound | apply section3_sound
    | apply section4_sound | apply section5_sound | apply section6_sound
    | apply section7_sound | apply section8_sound
    | apply sound_bind; [|intros _] ].
Qed.

(** The script ends: it runs to its end (status 0) or exits with a
    non-zero status. *)
Lemma deploy_ends (w : World) :
  fst (deploy w) = Next tt \/ halts_nonzero (fst (deploy w)).
Proof.
  unfold deploy. pose proof (script_sound (fresh w)) as H.
  destruct (script (fresh w)) as [[[[]|code|] s] t]; cbn [fst snd] in *.
  - left. reflexivity.
  - right. exists code. auto.
  - contradiction.
Qed.

Lemma sound_outcome {A} (m : Sh A) s o s' t :
  sound m -> m s = (o, s', t) ->
  (exists a, o = Next a) \/ (exists code, o = Exit code /\ code <> 0).
Proof.
  intros H E. specialize (H s). rewrite E in H. cbn [fst] in H.
  destruct o as [a|code|]; [left; eauto|right; eauto|contradiction].
Qed.


Lemma section6_only : only (in_section 6) section6.
Proof.
  assert (Hpoll : forall c, only (in_section 6) (poll c)).
  { intros c s cmd. pose proof (poll_run c s) as H.
    destruct (first_success c (world s) (Z.to_nat (MAX_RETRIES s))).
    - destruct H as (s' & t & -> & _ & _ & _ & _ & Hs). cbn [snd]. intros Hc.
      unfold in_section. rewrite (Hs _ Hc). reflexivity.
    - destruct (Z.to_nat (MAX_RETRIES s)).
      + destruct H as (s' & ->). intros [].
      + destruct H as (s' & t & -> & _ & _ & _ & _ & Hs). cbn [snd].
        rewrite commands_app, in_app_iff. intros [Hc|[]].
        unfold in_section. rewrite (Hs _ Hc). reflexivity. }
  unfold section6, backend_health, nginx_health, banner, log.
  repeat first [ apply Hpoll | apply only_bind; [|intros]
               | apply only_quiet; intros; reflexivity ].
Qed.

(** In the script both health checks poll with a budget of 10. *)
Lemma backend_health_budget (s : Shell) :
  exists s0,
    MAX_RETRIES s0 = 10 /\ world s0 = world s
    /\ backend_health s
       = (fst (fst (poll Backend s0)), snd (fst (poll Backend s0)),
          Log "Performing health check on backend (http://localhost:5000)..."
            :: AssignZ "MAX_RETRIES" 10 :: snd (poll Backend s0)).
Proof.
  eexists. split; [|split]; cycle 2.
  - unfold backend_health.
    rewrite (bind_Next (log _) _ s tt s _ eq_refl). cbn [fst snd app].
    rewrite (bind_Next (set_MAX_RETRIES 10) _ s tt _ _ eq_refl). cbn [fst snd app].
    reflexivity.
  - reflexivity.
  - reflexivity.
Qed.

Lemma nginx_health_budget (s s1 : Shell) (t1 : list Event) :
  MAX_RETRIES s = 10 ->
  poll Backend s = (Next tt, s1, t1) ->
  MAX_RETRIES s1 = 10
  /\ nginx_health s1
     = (fst (fst (poll Nginx s1)), snd (fst (poll Nginx s1)),
        Log "Performing health check on nginx (http://localhost:80)..."
          :: snd (poll Nginx s1)).
Proof.
  intros Hmax Hpoll. split.
  - pose proof (poll_run Backend s) as H. rewrite Hmax in H.
    change (Z.to_nat 10) with 10%nat in H.
    destruct (first_success Backend (world s) 10).
    + destruct H as (s' & t & E & Hm & _). rewrite Hpoll in E.
      injection E as <- _. exact Hm.
    + destruct H as (s' & t & E & _). rewrite Hpoll in E. discriminate E.
  - unfold nginx_health.
    rewrite (bind_Next (log _) _ s1 tt s1 _ eq_refl). reflexivity.
Qed.

Lemma deploy_script (w : World) :
  deploy w = (fst (fst (script (fresh w))), snd (script (fresh w))).
Proof. unfold deploy. destruct (script (fresh w)) as [[o s] t]. reflexivity. Qed.

(** C1. When a required configuration file (the compose file
    under both of its names, or nginx.conf) or a required directory
    (banking-backend, studentportfolio) is absent, the script halts with
    a non-zero status before the cleanup section and the build/start
    section are reached: it runs commands of sections 1 and 2 only, so
    neither [docker-compose down -v] nor [docker-compose up] is run, and
    the only container action it may have made is the
    [docker-compose down] of the port check. *)
Theorem C1_missing_file_halts_before_cleanup :
  required_missing ->
  forall w : World,
    halts_nonzero (fst (deploy w))
    /\ (forall c, In c (commands (snd (deploy w))) -> (section_of c <= 2)%nat)
    /\ ~ In compose_down_v (commands (snd (deploy w)))
    /\ ~ In compose_up_build_d (commands (snd (deploy w)))
    /\ (forall c, In c (commands (snd (deploy w))) ->
                  container_action c = true -> c = compose_down).
Proof.
  intros Hmiss w.
  assert (H : halts_nonzero (fst (deploy w))
              /\ forall c, In c (commands (snd (deploy w))) -> (section_of c <= 2)%nat).
  { rewrite deploy_script. unfold script. cbn [fst snd].
    step_section E1.
    - pose proof (section2_missing Hmiss s) as H2.
      step_section E2; cbn [fst] in H2;
        destruct H2 as (code' & Hc & Hne); try discriminate Hc.
      split; [exists code; injection Hc as ->; auto|].
      intros c. rewrite commands_app, in_app_iff. intros [H|H].
      + apply (only_trace _ _ _ _ _ _ section1_only E1) in H.
        apply Nat.eqb_eq in H. lia.
      + apply (only_trace _ _ _ _ _ _ section2_only E2) in H.
        apply Nat.eqb_eq in H. lia.
    - destruct (sound_outcome _ _ _ _ _ section1_sound E1) as [[a Ha]|(code' & Hc & Hne)];
        [discriminate Ha|].
      split; [exists code'; auto|].
      intros c H. apply (only_trace _ _ _ _ _ _ section1_only E1) in H.
      apply Nat.eqb_eq in H. lia.
    - destruct (sound_outcome _ _ _ _ _ section1_sound E1) as [[a Ha]|(code' & Hc & Hne)];
        discriminate. }
  destruct H as [Hhalt Hsec]. split; [exact Hhalt|]. split; [exact Hsec|].
  split; [|split].
  - intros Hin. apply Hsec in Hin. simpl in Hin. lia.
  - intros Hin. apply Hsec in Hin. simpl in Hin. lia.
  - intros c Hin Hact. apply Hsec in Hin.
    destruct c; try discriminate Hact; simpl in Hin; try lia. reflexivity.
Qed.

Lemma section3_run (s : Shell) :
  section3 s = (Next tt,
                set_world (snd (exec compose_down_v (world s))) s,
                cleanup_trace (fst (exec compose_down_v (world s)))).
Proof. unfold section3. open_sh. tidy. exec_step. reflexivity. Qed.

Lemma section4_starts (s : Shell) :
  In compose_up_build_d (commands (snd (section4 s))).
Proof.
  unfold section4. open_sh. tidy. exec_step. status_step; simpl; auto.
Qed.

Ltac not_in_section lemma E :=
  let H := fresh "H" in
  intros H; apply events_commands in H;
  apply (only_trace _ _ _ _ _ _ lemma E) in H; discriminate H.

(** C4. The cleanup section never halts the script: whatever status
    [docker-compose down -v] returns (an error when there is no prior
    deployment), section 3 falls through, and a run that reaches the
    cleanup goes on to the build/start command. *)
Theorem C4_cleanup_never_halts :
  (forall s : Shell,
      section3 s = (Next tt,
                    set_world (snd (exec compose_down_v (world s))) s,
                    cleanup_trace (fst (exec compose_down_v (world s)))))
  /\ (forall (w : World) (r : Result),
         In (Ran compose_down_v r) (snd (deploy w)) ->
         In compose_up_build_d (commands (snd (deploy w)))).
Proof.
  split; [exact section3_run|].
  intros w r. rewrite deploy_script. unfold script. cbn [fst snd].
  step_section E1; [|not_in_section section1_only E1..].
  step_section E2.
  2,3: intros H; apply in_app_iff in H; destruct H as [H|H]; revert H;
       [not_in_section section1_only E1|not_in_section section2_only E2].
  rewrite (bind_Next _ _ _ _ _ _ (section3_run s0)). cbn [fst snd].
  intros _. rewrite !commands_app, !in_app_iff. right. right. right.
  match goal with
  | |- context [bind section4 ?f ?s] =>
      pose proof (section4_starts s) as H4;
      destruct (section4 s) as [[[[]|code|] s4] t4] eqn:E4
  end.
  - rewrite (bind_Next _ _ _ _ _ _ E4). cbn [fst snd] in *.
    rewrite commands_app, in_app_iff. left. exact H4.
  - rewrite (bind_Exit _ _ _ _ _ _ E4). exact H4.
  - rewrite (bind_OutOfFuel _ _ _ _ _ E4). exact H4.
Qed.

(** *** The port check *)

Lemma port_in_use_run (port : Z) (s : Shell) :
  exists busy w t,
    port_in_use port s = (Next busy, set_world w s, t)
    /\ (forall c, In c (commands t) -> section_of c = 1%nat /\ installation_check c = false).
Proof.
  unfold port_in_use. open_sh. tidy. exec_step. status_step.
  - eexists _, _, _. split; [reflexivity|]. intros c [<-|[]]. split; reflexivity.
  - exec_step. eexists _, _, _. split; [reflexivity|].
    intros c [<-|[<-|[]]]; split; reflexivity.
Qed.

Lemma check_port_run (port : Z) (s : Shell) :
  exists busy s1 t1,
    port_in_use port s = (Next busy, s1, t1)
    /\ if busy then
         exists r w2 still s3 t3,
           exec compose_down (world s1) = (r, w2)
           /\ port_in_use port (set_world (pause 2 w2) s1) = (Next still, s3, t3)
           /\ check_port port s
              = (Next tt, s3,
                 (t1 ++ [port_in_use_warning port; Ran compose_down r; Slept 2] ++ t3
                     ++ (if still then [port_still_in_use_warning port] else []))%list)
       else check_port port s = (Next tt, s1, t1).
Proof.
  destruct (port_in_use_run port s) as (busy & w1 & t1 & E1 & _).
  exists busy, (set_world w1 s), t1. split; [exact E1|].
  unfold check_port. rewrite (bind_Next _ _ _ _ _ _ E1). destruct busy.
  - destruct (exec compose_down (world (set_world w1 s))) as [r w2] eqn:Ed.
    destruct (port_in_use_run port (set_world (pause 2 w2) (set_world w1 s)))
      as (still & w3 & t3 & E3 & _).
    exists r, w2, still, (set_world w3 (set_world (pause 2 w2) (set_world w1 s))), t3.
    split; [reflexivity|]. split; [exact E3|].
    open_sh. cbn [fst snd world set_world] in *. rewrite Ed.
    cbn [fst snd world set_world] in *. unfold set_world in *.
    cbn [fst snd world MAX_RETRIES RETRY_COUNT NGINX_CONTAINER_ID SCRIPT_DIR] in *.
    rewrite E3. destruct still; cbn [fst snd app]; rewrite ?app_nil_r; reflexivity.
  - cbn [fst snd]. rewrite app_nil_r. reflexivity.
Qed.

Lemma check_port_next (port : Z) (s : Shell) :
  exists s' t, check_port port s = (Next tt, s', t)
    /\ (forall c, In c (commands t) -> section_of c = 1%nat /\ installation_check c = false).
Proof.
  destruct (port_in_use_run port s) as (busy & w1 & t1 & E1 & H1).
  unfold check_port. rewrite (bind_Next _ _ _ _ _ _ E1). destruct busy.
  - destruct (exec compose_down (world (set_world w1 s))) as [r w2] eqn:Ed.
    destruct (port_in_use_run port (set_world (pause 2 w2) (set_world w1 s)))
      as (still & w3 & t3 & E3 & H3).
    open_sh. cbn [fst snd world set_world] in *. rewrite Ed.
    cbn [fst snd world set_world] in *. unfold set_world in *.
    cbn [fst snd world MAX_RETRIES RETRY_COUNT NGINX_CONTAINER_ID SCRIPT_DIR] in *.
    rewrite E3.
    assert (Hall : forall tail, commands tail = [] ->
              forall c, In c (commands t1) \/ In c (compose_down :: commands (t3 ++ tail)) ->
                        section_of c = 1%nat /\ installation_check c = false).
    { intros tail Htail c. rewrite commands_app, Htail, app_nil_r.
      intros [H|[<-|H]]; [auto|split; reflexivity|auto]. }
    destruct still; cbn [fst snd app]; (eexists _, _; split; [reflexivity|]);
      intros c; rewrite commands_app, in_app_iff; cbn [commands app];
      apply Hall; reflexivity.
  - eexists _, _. split; [reflexivity|]. cbn [snd]. rewrite app_nil_r. exact H1.
Qed.

Lemma for_each_next {A} (l : list A) (body : A -> Sh unit) (P : Cmd -> Prop) :
  (forall x s, exists s' t, body x s = (Next tt, s', t)
                            /\ forall c, In c (commands t) -> P c) ->
  forall s, exists s' t, for_each l body s = (Next tt, s', t)
                         /\ forall c, In c (commands t) -> P c.
Proof.
  intros Hbody. induction l as [|x l IH]; intros s.
  - exists s, []. split; [reflexivity|]. intros c [].
  - destruct (Hbody x s) as (s1 & t1 & E1 & H1).
    destruct (IH s1) as (s2 & t2 & E2 & H2).
    exists s2, (t1 ++ t2)%list. split.
    + cbn [for_each]. rewrite (bind_Next _ _ _ _ _ _ E1), E2. reflexivity.
    + intros c. rewrite commands_app, in_app_iff. intros [H|H]; auto.
Qed.

Lemma check_ports_next (s : Shell) :
  exists s' t, check_ports s = (Next tt, s', t).
Proof.
  destruct (for_each_next REQUIRED_PORTS check_port _ check_port_next s)
    as (s' & t & E & _).
  unfold check_ports, log, emit.
  eexists _, _. unfold bind at 1. unfold bind at 1. rewrite E. reflexivity.
Qed.

Lemma check_docker_only : only installation_check check_docker.
Proof. unfold check_docker, succeeds, log, error. only_tac. Qed.

Lemma check_compose_only : only installation_check check_compose.
Proof. unfold check_compose, succeeds, log, error. only_tac. Qed.

Lemma check_daemon_only : only installation_check check_daemon.
Proof. unfold check_daemon, succeeds, log, error. only_tac. Qed.

(** Section 1 can halt in the installation checks only. *)
Lemma section1_halts_early (s : Shell) :
  match section1 s with
  | (Next _, _, _) => True
  | (_, _, t) => forall c, In c (commands t) -> installation_check c = true
  end.
Proof.
  unfold section1.
  rewrite (bind_Next (banner _) _ s tt s _ eq_refl). cbn [fst snd app].
  step_section E1;
    [|intros c H; apply (only_trace _ _ _ _ _ _ check_docker_only E1 c); exact H..].
  step_section E2.
  2,3: intros c H; cbn [commands app] in H;
       rewrite commands_app, in_app_iff in H; destruct H as [H|H];
       [apply (only_trace _ _ _ _ _ _ check_docker_only E1 c H)
       |apply (only_trace _ _ _ _ _ _ check_compose_only E2 c H)].
  step_section E3.
  2,3: intros c H; cbn [commands app] in H;
       rewrite !commands_app, !in_app_iff in H; destruct H as [H|[H|H]];
       [apply (only_trace _ _ _ _ _ _ check_docker_only E1 c H)
       |apply (only_trace _ _ _ _ _ _ check_compose_only E2 c H)
       |apply (only_trace _ _ _ _ _ _ check_daemon_only E3 c H)].
  destruct (check_ports_next s2) as (s' & t' & ->). exact I.
Qed.

Lemma section2_starts (s : Shell) : In script_dir (commands (snd (section2 s))).
Proof.
  unfold section2.
  rewrite (bind_Next (banner _) _ s tt s _ eq_refl). cbn [fst snd app commands].
  apply bind_trace_incl. unfold run. destruct (exec script_dir (world s)). left. reflexivity.
Qed.

Lemma bind_assoc {A B C} (m : Sh A) (f : A -> Sh B) (g : B -> Sh C) (s : Shell) :
  bind (bind m f) g s = bind m (fun a => bind (f a) g) s.
Proof.
  unfold bind. destruct (m s) as [[[a|code|] s1] t1]; try reflexivity.
  destruct (f a s1) as [[[b|code|] s2] t2]; try reflexivity.
  destruct (g b s2) as [[o s3] t3]. rewrite app_assoc. reflexivity.
Qed.

Lemma bind_ext {A B} (m : Sh A) (f g : A -> Sh B) (s : Shell) :
  (forall a s', f a s' = g a s') -> bind m f s = bind m g s.
Proof.
  intros H. unfold bind. destruct (m s) as [[[a|code|] s1] t1]; try reflexivity.
  rewrite H. reflexivity.
Qed.

Lemma bind_trace_app {A B} (m : Sh A) (f : A -> Sh B) (s : Shell) :
  exists rest, snd (bind m f s) = (snd (m s) ++ rest)%list.
Proof.
  unfold bind. destruct (m s) as [[[a|code|] s1] t1]; cbn [snd].
  - destruct (f a s1) as [[o s2] t2]. exists t2. reflexivity.
  - exists []. rewrite app_nil_r. reflexivity.
  - exists []. rewrite app_nil_r. reflexivity.
Qed.

(** Section 1 is the installation checks followed by the port check. *)
Lemma section1_installation (s : Shell) :
  section1 s = bind installation (fun _ => check_ports) s.
Proof.
  unfold section1, installation. symmetry.
  rewrite bind_assoc. apply bind_ext. intros _ s1.
  rewrite bind_assoc. apply bind_ext. intros _ s2.
  rewrite bind_assoc. reflexivity.
Qed.

(** The port check is the check of the four required ports, in turn. *)
Lemma check_ports_run (s : Shell) :
  exists s1 t1 s2 t2 s3 t3 s4 t4,
    check_port 80 s = (Next tt, s1, t1)
    /\ check_port 5000 s1 = (Next tt, s2, t2)
    /\ check_port 3000 s2 = (Next tt, s3, t3)
    /\ check_port 27017 s3 = (Next tt, s4, t4)
    /\ check_ports s
       = (Next tt, s4,
          (Log "Checking if required ports are available..."
             :: t1 ++ t2 ++ t3 ++ t4 ++ [Log "✓ Port check completed"])%list).
Proof.
  destruct (check_port_next 80 s) as (s1 & t1 & E1 & _).
  destruct (check_port_next 5000 s1) as (s2 & t2 & E2 & _).
  destruct (check_port_next 3000 s2) as (s3 & t3 & E3 & _).
  destruct (check_port_next 27017 s3) as (s4 & t4 & E4 & _).
  exists s1, t1, s2, t2, s3, t3, s4, t4.
  repeat (split; [assumption|]).
  assert (Eall : for_each REQUIRED_PORTS check_port s
                 = (Next tt, s4, (t1 ++ t2 ++ t3 ++ t4)%list)).
  { unfold REQUIRED_PORTS. cbn [for_each].
    rewrite (bind_Next _ _ _ _ _ _ E1). cbn [fst snd].
    rewrite (bind_Next _ _ _ _ _ _ E2). cbn [fst snd].
    rewrite (bind_Next _ _ _ _ _ _ E3). cbn [fst snd].
    rewrite (bind_Next _ _ _ _ _ _ E4). cbn [fst snd].
    unfold ret. cbn [fst snd]. rewrite app_nil_r. reflexivity. }
  unfold check_ports.
  rewrite (bind_Next (log _) _ s tt s _ eq_refl). cbn [fst snd].
  rewrite (bind_Next _ _ _ _ _ _ Eall). cbn [fst snd].
  unfold log, emit. cbn [fst snd app]. rewrite <- !app_assoc. reflexivity.
Qed.

(** C5. A required port found occupied leads to a teardown attempt
    ([docker-compose down], its status ignored), a pause of 2 seconds
    and a second look; if the port is still occupied a warning is
    printed and nothing else happens.  The port check makes this check
    for the ports 80, 5000, 3000 and 27017 in turn and always falls
    through.  Every run whose installation checks pass makes the port
    check and then enters section 2, whatever the port check found. *)
Theorem C5_port_conflict_is_not_fatal :
  (forall (port : Z) (s : Shell),
      exists busy s1 t1,
        port_in_use port s = (Next busy, s1, t1)
        /\ if busy then
             exists r w2 still s3 t3,
               exec compose_down (world s1) = (r, w2)
               /\ port_in_use port (set_world (pause 2 w2) s1) = (Next still, s3, t3)
               /\ check_port port s
                  = (Next tt, s3,
                     (t1 ++ [port_in_use_warning port; Ran compose_down r; Slept 2] ++ t3
                         ++ (if still then [port_still_in_use_warning port] else []))%list)
           else check_port port s = (Next tt, s1, t1))
  /\ (forall s : Shell,
         exists s1 t1 s2 t2 s3 t3 s4 t4,
           check_port 80 s = (Next tt, s1, t1)
           /\ check_port 5000 s1 = (Next tt, s2, t2)
           /\ check_port 3000 s2 = (Next tt, s3, t3)
           /\ check_port 27017 s3 = (Next tt, s4, t4)
           /\ check_ports s
              = (Next tt, s4,
                 (Log "Checking if required ports are available..."
                    :: t1 ++ t2 ++ t3 ++ t4 ++ [Log "✓ Port check completed"])%list))
  /\ (forall w : World,
         match installation (fresh w) with
         | (Next _, s0, checks) =>
             exists s1 ports rest,
               check_ports s0 = (Next tt, s1, ports)
               /\ snd (deploy w) = (checks ++ ports ++ snd (section2 s1) ++ rest)%list
         | (_, _, checks) => snd (deploy w) = checks
         end)
  /\ (forall (w : World) (port : Z),
         In (netstat_listen port) (commands (snd (deploy w))) ->
         In script_dir (commands (snd (deploy w)))).
Proof.
  split; [exact check_port_run|]. split; [exact check_ports_run|]. split.
  - intros w. rewrite deploy_script. unfold script. cbn [snd].
    destruct (installation (fresh w)) as [[o s0] checks] eqn:Ei.
    destruct o as [[]|code|].
    + destruct (check_ports_next s0) as (s1 & ports & Ep).
      assert (E1 : section1 (fresh w) = (Next tt, s1, (checks ++ ports)%list)).
      { rewrite section1_installation, (bind_Next _ _ _ _ _ _ Ei), Ep. reflexivity. }
      rewrite (bind_Next _ _ _ _ _ _ E1). cbn [fst snd].
      match goal with
      | |- context [bind section2 ?f s1] =>
          destruct (bind_trace_app section2 f s1) as (rest & Hrest)
      end.
      exists s1, ports, rest. split; [exact Ep|].
      rewrite Hrest, <- app_assoc. reflexivity.
    + assert (E1 : section1 (fresh w) = (Exit code, s0, checks)).
      { rewrite section1_installation, (bind_Exit _ _ _ _ _ _ Ei). reflexivity. }
      rewrite (bind_Exit _ _ _ _ _ _ E1). reflexivity.
    + assert (E1 : section1 (fresh w) = (OutOfFuel, s0, checks)).
      { rewrite section1_installation, (bind_OutOfFuel _ _ _ _ _ Ei). reflexivity. }
      rewrite (bind_OutOfFuel _ _ _ _ _ E1). reflexivity.
  - intros w port. rewrite deploy_script. unfold script. cbn [fst snd].
    pose proof (section1_halts_early (fresh w)) as Hearly.
    step_section E1.
    2,3: intros H; apply Hearly in H; discriminate H.
    intros _. rewrite commands_app, in_app_iff. right.
    match goal with
    | |- context [bind section2 ?f ?s] =>
        pose proof (section2_starts s) as H2;
        destruct (section2 s) as [[[[]|code|] s2] t2] eqn:E2
    end.
    + rewrite (bind_Next _ _ _ _ _ _ E2). cbn [fst snd] in *.
      rewrite commands_app, in_app_iff. left. exact H2.
    + rewrite (bind_Exit _ _ _ _ _ _ E2). exact H2.
    + rewrite (bind_OutOfFuel _ _ _ _ _ E2). exact H2.
Qed.

(** *** Section 5 *)

Ltac absurd_in H :=
  rewrite ?commands_app, ?in_app_iff in H;
  repeat match type of H with
         | _ \/ _ => destruct H as [H|H]
         end;
  match goal with
  | Hn : forall c, In c (commands ?t) -> _, H' : In _ (commands ?t) |- _ =>
      apply Hn in H'; discriminate H'
  end.

Ltac pick_event H :=
  cbn [In] in H;
  repeat match type of H with
         | _ \/ _ => destruct H as [H|H]
         | False => destruct H
         | _ = _ => first [discriminate H | injection H as H; subst]
         end.

Lemma section5_run (s : Shell) :
  exists o s' t,
    section5 s = (o, s', t)
    /\ (forall r, In (Ran docker_images r) t ->
                  r = fst (exec docker_images (world s))
                  /\ (grep_E image_filter (stdout r) = [] ->
                      o = Exit 1 /\ commands t = [docker_images]))
    /\ (forall r, In (Ran docker_ps_filter_nginx r) t ->
                  o = resolution r
                  /\ NGINX_CONTAINER_ID s' = identifier r
                  /\ commands t = [docker_images; docker_ps; docker_ps_filter_nginx]).
Proof.
  unfold section5, list_images, show_containers, resolve_nginx, resolution, identifier.
  open_sh. tidy. exec_step.
  destruct (grep_E image_filter (stdout r)) as [|line more] eqn:Hsel; tidy.
  { eexists _, _, _. split; [reflexivity|]. split; intros r' H; pick_event H.
    rewrite Hsel. repeat split; reflexivity. }
  exec_step. status_step.
  2:{ eexists _, _, _. split; [reflexivity|]. split; intros r' H; pick_event H.
      rewrite Hsel. split; [reflexivity|discriminate]. }
  exec_step.
  destruct (status r1 =? 0) eqn:Hst; tidy;
    [destruct (String.eqb (strip_trailing_newlines (stdout r1)) "") eqn:Hid; tidy|];
    (eexists _, _, _; split; [reflexivity|]; split; intros r' H; pick_event H;
     [rewrite Hsel; split; [reflexivity|discriminate]
     |rewrite ?Hst, ?Hid; repeat split; reflexivity]).
Qed.

Lemma only_weaken {A} (p q : Cmd -> bool) (m : Sh A) :
  (forall c, p c = true -> q c = true) -> only p m -> only q m.
Proof. intros Hpq Hm s c H. apply Hpq, (Hm s c H). Qed.

Lemma from_health_checks_only :
  only (fun c => (6 <=? section_of c)%nat) from_health_checks.
Proof.
  unfold from_health_checks.
  apply only_bind; [|intros _; apply only_bind; [|intros _]].
  - apply (only_weaken (in_section 6)); [|apply section6_only].
    intros c H. apply Nat.eqb_eq in H. rewrite H. reflexivity.
  - apply (only_weaken (in_section 7)); [|apply section7_only].
    intros c H. apply Nat.eqb_eq in H. rewrite H. reflexivity.
  - apply (only_weaken (in_section 8)); [|apply section8_only].
    intros c H. apply Nat.eqb_eq in H. rewrite H. reflexivity.
Qed.

Lemma script_from_health_checks (s : Shell) :
  script s
  = (section1 ;; section2 ;; section3 ;; section4 ;; section5 ;; from_health_checks) s.
Proof. reflexivity. Qed.

Ltac through lemma E H :=
  step_section E; pose proof (only_trace _ _ _ _ _ _ lemma E) as H.

Ltac locate H :=
  rewrite ?in_app_iff in H;
  repeat match type of H with
         | _ \/ _ => destruct H as [H|H]
         end;
  try (apply events_commands in H;
       match goal with
       | Hn : forall c, In c (commands ?t) -> _, H' : In _ (commands ?t) |- _ =>
           apply Hn in H'; discriminate H'
       end).

Ltac into_section5 E5 H5 Hlist Hfind :=
  match goal with
  | |- context [bind section5 ?f ?s] =>
      let o := fresh "o" in
      let s5 := fresh "s" in
      let t5 := fresh "t" in
      destruct (section5_run s) as (o & s5 & t5 & E5 & Hlist & Hfind);
      pose proof (only_trace _ _ _ _ _ _ section5_only E5) as H5;
      destruct o as [[]|?code|];
      [ rewrite (bind_Next section5 f s tt s5 t5 E5)
      | rewrite (bind_Exit section5 f s _ s5 t5 E5)
      | rewrite (bind_OutOfFuel section5 f s s5 t5 E5) ];
      cbn [fst snd]
  end.

Ltac into_health_checks E6 H6 :=
  match goal with
  | |- context [from_health_checks ?s] =>
      let o := fresh "o" in
      let s6 := fresh "s" in
      let t6 := fresh "t" in
      destruct (from_health_checks s) as [[o s6] t6] eqn:E6;
      pose proof (only_trace _ _ _ _ _ _ from_health_checks_only E6) as H6;
      cbn [fst snd]
  end.

(** C9. The listing of images is itself fatal under [set -e]: when
    [docker images] shows no line matching mongo, backend, portfolio,
    nginx or assignment, [grep] returns 1 and the script exits with
    status 1 right there, before [docker ps] and before the resolution of
    the nginx container. *)
Theorem C9_image_listing_is_fatal :
  (forall s : Shell,
      grep_E image_filter (stdout (fst (exec docker_images (world s)))) = [] ->
      exists s' t, section5 s = (Exit 1, s', t) /\ commands t = [docker_images])
  /\ (forall (w : World) (r : Result),
         In (Ran docker_images r) (snd (deploy w)) ->
         grep_E image_filter (stdout r) = [] ->
         fst (deploy w) = Exit 1
         /\ ~ In docker_ps (commands (snd (deploy w)))
         /\ ~ In docker_ps_filter_nginx (commands (snd (deploy w)))).
Proof.
  split.
  - intros s Hnone. unfold section5, list_images. open_sh. tidy.
    destruct (exec docker_images (world s)) as [r w1]. cbn [fst] in Hnone. tidy.
    rewrite Hnone. eexists _, _. split; reflexivity.
  - intros w r. rewrite deploy_script, script_from_health_checks. cbn [fst snd].
    through section1_only E1 H1. 2,3: intros Hin _; locate Hin.
    through section2_only E2 H2. 2,3: intros Hin _; locate Hin.
    through section3_only E3 H3. 2,3: intros Hin _; locate Hin.
    through section4_only E4 H4. 2,3: intros Hin _; locate Hin.
    into_section5 E5 H5 Hlist Hfind.
    + into_health_checks E6 H6. intros Hin Hnone. locate Hin.
      destruct (Hlist r Hin) as [_ Hexit]. destruct (Hexit Hnone) as [Habs _].
      discriminate Habs.
    + intros Hin Hnone. locate Hin.
      destruct (Hlist r Hin) as [_ Hexit]. destruct (Hexit Hnone) as [Hcode Hcmds].
      split; [exact Hcode|].
      split; intros Hc; rewrite ?commands_app, ?in_app_iff in Hc;
        repeat (destruct Hc as [Hc|Hc]; [absurd_in Hc|]);
        rewrite Hcmds in Hc; pick_event Hc.
    + intros Hin Hnone. locate Hin.
      destruct (Hlist r Hin) as [_ Hexit]. destruct (Hexit Hnone) as [Habs _].
      discriminate Habs.
Qed.

(** *** Resolution of the nginx container *)

Lemma resolve_nginx_run (s : Shell) :
  fst (fst (resolve_nginx s)) = resolution (fst (exec docker_ps_filter_nginx (world s)))
  /\ NGINX_CONTAINER_ID (snd (fst (resolve_nginx s)))
     = identifier (fst (exec docker_ps_filter_nginx (world s))).
Proof.
  unfold resolve_nginx, resolution, identifier. open_sh. tidy. exec_step.
  destruct (status r =? 0); tidy;
    [destruct (String.eqb (strip_trailing_newlines (stdout r)) ""); tidy|];
    split; reflexivity.
Qed.

(** The resolution is fatal exactly when the command fails or prints no
    identifier. *)
Lemma resolution_fatal (r : Result) :
  halts_nonzero (resolution r) <-> status r <> 0 \/ identifier r = "".
Proof.
  unfold resolution. destruct (Z.eqb_spec (status r) 0) as [Hz|Hnz].
  - destruct (String.eqb_spec (identifier r) "") as [Hid|Hid].
    + split; [auto|]. intros _. apply halts_exit. lia.
    + split.
      * intros (code & Hc & _). discriminate Hc.
      * intros [H|H]; contradiction.
  - split; [auto|]. intros _. apply halts_exit, Hnz.
Qed.

Lemma resolution_next (r : Result) :
  resolution r = Next tt <-> status r = 0 /\ identifier r <> "".
Proof.
  unfold resolution. destruct (Z.eqb_spec (status r) 0) as [Hz|Hnz].
  - destruct (String.eqb_spec (identifier r) "") as [Hid|Hid].
    + split; [discriminate|]. intros [_ H]. contradiction.
    + split; auto.
  - split; [discriminate|]. intros [H _]. contradiction.
Qed.

Lemma attempted (c : Check) (t : list Event) :
  (0 < attempts_made c t)%nat ->
  exists cmd, In cmd (commands t) /\ begins_attempt c cmd = true.
Proof.
  unfold attempts_made. intros H.
  destruct (filter (begins_attempt c) (commands t)) as [|cmd l] eqn:E;
    [simpl in H; lia|].
  exists cmd. apply filter_In. rewrite E. left. reflexivity.
Qed.

Lemma poll_backend_starts (s : Shell) :
  MAX_RETRIES s = 10 ->
  In (curl_f "http://localhost:5000/api/login") (commands (snd (poll Backend s))).
Proof.
  intros Hmax. pose proof (poll_run Backend s) as H. rewrite Hmax in H.
  change (Z.to_nat 10) with 10%nat in H.
  assert (Hatt : (0 < attempts_made Backend (snd (poll Backend s)))%nat).
  { destruct (first_success Backend (world s) 10).
    - destruct H as (s' & t & -> & _ & _ & Ha & _). cbn [snd]. rewrite Ha. lia.
    - destruct H as (s' & t & -> & _ & _ & Ha & _). cbn [snd].
      rewrite attempts_made_app, Ha. lia. }
  destruct (attempted _ _ Hatt) as (cmd & Hin & Hb).
  destruct cmd; try discriminate Hb. cbn in Hb.
  apply String.eqb_eq in Hb. subst url. exact Hin.
Qed.

Lemma from_health_checks_starts (s : Shell) :
  In (curl_f "http://localhost:5000/api/login") (commands (snd (from_health_checks s))).
Proof.
  unfold from_health_checks. apply bind_trace_incl.
  unfold section6.
  rewrite (bind_Next (banner _) _ s tt s _ eq_refl). cbn [fst snd app commands].
  apply bind_trace_incl. unfold backend_health.
  rewrite (bind_Next (log _) _ s tt s _ eq_refl). cbn [fst snd app commands].
  rewrite (bind_Next (set_MAX_RETRIES 10) _ s tt _ _ eq_refl). cbn [fst snd app commands].
  apply poll_backend_starts. reflexivity.
Qed.

(** C7. The nginx container is resolved by a name filter.  The
    resolution is fatal (non-zero exit) exactly when [docker ps] fails
    or prints no identifier: a failing [docker ps] ends the script with
    its own status, by [set -e], whatever it printed, and an empty
    identifier ends it with status 1.  When [docker ps] succeeds with an
    identifier, the identifier is kept and the script goes on to the
    health checks. *)
Theorem C7_nginx_container_must_resolve :
  (forall s : Shell,
      let r := fst (exec docker_ps_filter_nginx (world s)) in
      (halts_nonzero (fst (fst (resolve_nginx s))) <-> status r <> 0 \/ identifier r = "")
      /\ (status r <> 0 -> fst (fst (resolve_nginx s)) = Exit (status r))
      /\ (status r = 0 -> identifier r = "" -> fst (fst (resolve_nginx s)) = Exit 1)
      /\ (status r = 0 -> identifier r <> "" ->
          fst (fst (resolve_nginx s)) = Next tt
          /\ NGINX_CONTAINER_ID (snd (fst (resolve_nginx s))) = identifier r))
  /\ (forall (w : World) (r : Result),
         In (Ran docker_ps_filter_nginx r) (snd (deploy w)) ->
         (status r <> 0 \/ identifier r = "" ->
          halts_nonzero (fst (deploy w))
          /\ forall c, In c (commands (snd (deploy w))) -> (section_of c <= 5)%nat)
         /\ (status r = 0 /\ identifier r <> "" ->
             In (curl_f "http://localhost:5000/api/login") (commands (snd (deploy w))))).
Proof.
  split.
  - intros s r. destruct (resolve_nginx_run s) as [Ho Hid]. fold r in Ho, Hid.
    rewrite Ho. split; [apply resolution_fatal|].
    unfold resolution. repeat split.
    + intros Hnz. apply Z.eqb_neq in Hnz. rewrite Hnz. reflexivity.
    + intros Hz Hempty. rewrite Hz, Hempty. reflexivity.
    + apply resolution_next. split; assumption.
    + exact Hid.
  - intros w r. rewrite deploy_script, script_from_health_checks. cbn [fst snd].
    through section1_only E1 H1. 2,3: intros Hin; locate Hin.
    through section2_only E2 H2. 2,3: intros Hin; locate Hin.
    through section3_only E3 H3. 2,3: intros Hin; locate Hin.
    through section4_only E4 H4. 2,3: intros Hin; locate Hin.
    into_section5 E5 H5 Hlist Hfind.
    + pose proof (from_health_checks_starts s3) as Hstart.
      into_health_checks E6 H6. intros Hin. locate Hin.
      destruct (Hfind r Hin) as (Ho & _). symmetry in Ho.
      apply resolution_next in Ho. destruct Ho as [Hz Hne].
      split; [intros [Hnz|Hempty]; contradiction|]. intros _.
      rewrite !commands_app, !in_app_iff. auto 10.
    + intros Hin. locate Hin.
      destruct (Hfind r Hin) as (Ho & _).
      assert (Hfatal : halts_nonzero (Exit code)).
      { rewrite Ho. apply resolution_fatal.
        destruct (Z.eq_dec (status r) 0) as [Hz|Hnz]; [|auto].
        right. unfold resolution in Ho. rewrite Hz in Ho. cbn in Ho.
        destruct (String.eqb_spec (identifier r) ""); [assumption|discriminate Ho]. }
      split.
      * intros _. split; [exact Hfatal|].
        intros c Hc. rewrite !commands_app, !in_app_iff in Hc.
        destruct Hc as [Hc|[Hc|[Hc|[Hc|Hc]]]];
          [apply H1 in Hc|apply H2 in Hc|apply H3 in Hc|apply H4 in Hc|apply H5 in Hc];
          apply Nat.eqb_eq in Hc; lia.
      * intros Hfound. apply resolution_next in Hfound.
        rewrite Hfound in Ho. discriminate Ho.
    + intros Hin. locate Hin.
      destruct (Hfind r Hin) as (Ho & _). exfalso. unfold resolution in Ho.
      destruct (status r =? 0); [destruct (String.eqb (identifier r) "")|]; discriminate Ho.
Qed.

(** *** A backend that never answers *)

Lemma section4_run (s s' : Shell) (t : list Event) :
  section4 s = (Next tt, s', t) ->
  exists r pre post,
    t = (pre ++ Ran compose_up_build_d r :: post)%list
    /\ status r = 0 /\ commands post = [].
Proof.
  unfold section4. open_sh. tidy. exec_step. status_step; [|discriminate].
  intros [= <- <-].
  eexists r, [_; _; _; _], [_; _]. repeat split. exact Z.
Qed.

Lemma backend_health_down (s : Shell) :
  (forall j, (1 <= j <= 10)%nat -> responds Backend (world s) j = false) ->
  exists s' t0,
    backend_health s = (Exit 1, s', (t0 ++ failure_report Backend 10)%list)
    /\ attempts_made Backend t0 = 10%nat
    /\ (forall c, In c (commands t0) -> section_of c = 6%nat).
Proof.
  intros Hdown. unfold backend_health.
  rewrite (bind_Next (log _) _ s tt s _ eq_refl). cbn [fst snd app].
  rewrite (bind_Next (set_MAX_RETRIES 10) _ s tt _ _ eq_refl). cbn [fst snd app].
  match goal with
  | |- context [poll Backend ?s0] =>
      pose proof (poll_run Backend s0) as Hrun; cbn [world MAX_RETRIES] in Hrun
  end.
  change (Z.to_nat 10) with 10%nat in Hrun.
  rewrite (proj2 (first_success_None Backend 10 (world s)) Hdown) in Hrun.
  destruct Hrun as (s' & t & Hpoll & _ & _ & Hatt & _ & Hsec).
  rewrite Hpoll. cbn [fst snd].
  eexists s', (_ :: _ :: t). split; [reflexivity|].
  split; [exact Hatt|]. exact Hsec.
Qed.

Lemma section6_backend_down (s : Shell) :
  (forall j, (1 <= j <= 10)%nat -> responds Backend (world s) j = false) ->
  exists s' t0,
    section6 s = (Exit 1, s', (t0 ++ failure_report Backend 10)%list)
    /\ attempts_made Backend t0 = 10%nat
    /\ (forall c, In c (commands t0) -> section_of c = 6%nat).
Proof.
  intros Hdown. destruct (backend_health_down s Hdown) as (s' & t & E & Hatt & Hsec).
  unfold section6.
  rewrite (bind_Next (banner _) _ s tt s _ eq_refl). cbn [fst snd app].
  rewrite (bind_Exit backend_health _ s _ _ _ E). cbn [fst snd].
  eexists s', (_ :: _ :: _ :: t). split; [reflexivity|].
  split; [exact Hatt|]. exact Hsec.
Qed.

Ltac through_both lemma E H Hpre :=
  match goal with
  | |- context [bind ?m ?f ?s] =>
      let o := fresh "o" in
      let s' := fresh "s" in
      let t := fresh "t" in
      destruct (m s) as [[o s'] t] eqn:E;
      pose proof (only_trace _ _ _ _ _ _ lemma E) as H;
      destruct o as [[]|?code|];
      [ rewrite (bind_Next m f s tt s' t E);
        rewrite (bind_Next m _ s tt s' t E) in Hpre
      | rewrite (bind_Exit m _ s _ s' t E) in Hpre; discriminate Hpre
      | rewrite (bind_OutOfFuel m _ s s' t E) in Hpre; discriminate Hpre ];
      cbn [fst snd] in Hpre |- *
  end.

(** C3. If the script reaches the health checks and the backend gets no
    success on any of the 10 attempts, the script halts in the backend
    health check with status 1.  The build/start command has run
    successfully before, and nothing is torn down after it: the
    containers are left as they are. *)
Theorem C3_backend_never_responds (w : World) (s5 : Shell) (t5 : list Event) :
  up_to_validation (fresh w) = (Next tt, s5, t5) ->
  (forall j, (1 <= j <= 10)%nat -> responds Backend (world s5) j = false) ->
  exists t6,
    deploy w = (Exit 1, (t5 ++ t6)%list)
    /\ (exists before r after,
           t5 = (before ++ Ran compose_up_build_d r :: after)%list
           /\ status r = 0
           /\ forall c, In c (commands (after ++ t6)) -> teardown c = false)
    /\ (exists t0, t6 = (t0 ++ failure_report Backend 10)%list
                   /\ attempts_made Backend t0 = 10%nat)
    /\ (forall c, In c (commands t6) -> section_of c = 6%nat).
Proof.
  intros Hpre Hdown. unfold up_to_validation in Hpre.
  rewrite deploy_script, script_from_health_checks.
  through_both section1_only E1 H1 Hpre.
  through_both section2_only E2 H2 Hpre.
  through_both section3_only E3 H3 Hpre.
  through_both section4_only E4 H4 Hpre.
  destruct (section5 s2) as [[o5 s5'] t5'] eqn:E5.
  pose proof (only_trace _ _ _ _ _ _ section5_only E5) as H5.
  cbn [fst snd] in Hpre. injection Hpre as -> -> <-.
  rewrite (bind_Next section5 _ s2 tt s5 t5' E5).
  destruct (section6_backend_down s5 Hdown) as (s6 & tq & E6 & Hatt & Hsec).
  unfold from_health_checks. rewrite (bind_Exit section6 _ s5 _ _ _ E6). cbn [fst snd].
  exists (tq ++ failure_report Backend 10)%list.
  assert (Hsec6 : forall c, In c (commands (tq ++ failure_report Backend 10)) ->
                            section_of c = 6%nat).
  { intros c. rewrite commands_app, in_app_iff. intros [Hc|[]]. auto. }
  split; [rewrite <- !app_assoc; reflexivity|].
  split; [|split; [exists tq; auto|exact Hsec6]].
  destruct (section4_run _ _ _ E4) as (r & pre & post & -> & Hok & Hpost).
  exists (t ++ t0 ++ t1 ++ pre)%list, r, (post ++ t5')%list.
  split; [rewrite <- !app_assoc; reflexivity|]. split; [exact Hok|].
  intros c. rewrite !commands_app, Hpost, !in_app_iff. cbn [app].
  intros [[[]|Hc]|Hc].
  - apply H5 in Hc. apply Nat.eqb_eq in Hc. destruct c; try discriminate Hc; reflexivity.
  - rewrite <- in_app_iff, <- commands_app in Hc.
    apply Hsec6 in Hc. destruct c; try discriminate Hc; reflexivity.
Qed.

End WholeRun.

(** *** The probes *)

(** C10. An attempt of the backend check succeeds when either of two
    probes succeeds: [curl -f] on the login path, or else plain
    [curl -s] on the root of port 5000.  An attempt of the nginx check
    succeeds when [curl -f] on the root succeeds, or else when the page
    fetched by [curl -s] contains "Pixel River".  So the backend check
    can pass although the login path never answers successfully. *)
Theorem C10_probes_are_disjunctions :
  (forall (host : Host) (s : Shell),
      let login := exec (curl_f "http://localhost:5000/api/login") (world s) in
      let root := exec (curl_s "http://localhost:5000") (snd login) in
      exists up,
        fst (fst (backend_probe s)) = Next up
        /\ (up = true <-> status (fst login) = 0 \/ status (fst root) = 0))
  /\ (forall (host : Host) (s : Shell),
         let root := exec (curl_f "http://localhost:80") (world s) in
         let page := exec (curl_s "http://localhost:80") (snd root) in
         exists up,
           fst (fst (nginx_probe s)) = Next up
           /\ (up = true <->
               status (fst root) = 0 \/ contains "Pixel River" (stdout (fst page)) = true))
  /\ (exists host : Host,
         always_fails (curl_f "http://localhost:5000/api/login")
         /\ forall w : World, succeeds_at Backend (polling w) 1).
Proof.
  split; [|split].
  - intros host s. unfold backend_probe. open_sh. tidy.
    destruct (exec (curl_f "http://localhost:5000/api/login") (world s)) as [r1 w1]. tidy.
    destruct (Z.eqb_spec (status r1) 0) as [Hz|Hnz]; tidy.
    + exists true. split; [reflexivity|]. split; auto.
    + destruct (exec (curl_s "http://localhost:5000") w1) as [r2 w2]. tidy.
      exists (status r2 =? 0). split; [reflexivity|].
      rewrite Z.eqb_eq. split; [auto|]. intros [H|H]; [contradiction|exact H].
  - intros host s. unfold nginx_probe. open_sh. tidy.
    destruct (exec (curl_f "http://localhost:80") (world s)) as [r1 w1]. tidy.
    destruct (Z.eqb_spec (status r1) 0) as [Hz|Hnz]; tidy.
    + exists true. split; [reflexivity|]. split; auto.
    + destruct (exec (curl_s "http://localhost:80") w1) as [r2 w2]. tidy.
      exists (contains "Pixel River" (stdout r2)). split; [reflexivity|].
      split; [auto|]. intros [H|H]; [contradiction|exact H].
  - exists (static_host login_down). split.
    + intros w. cbn. discriminate.
    + intros []. eexists _, _. split; reflexivity.
Qed.

(** *** Concrete runs *)

Ltac find_event := repeat (first [left; reflexivity | right]).

(** On a healthy host the script runs to its end: exit status 0. *)
Example healthy_run_exits_0 :
  exit_status (fst (deploy (host := static_host healthy) tt)) = Some 0.
Proof. reflexivity. Qed.

(** When [docker ps --filter] fails after printing an identifier, the
    script exits with the status of the command, by [set -e]. *)
Example failing_filter_run :
  fst (deploy (host := static_host failing_filter) tt) = Exit 1
  /\ In (AssignS "NGINX_CONTAINER_ID" "3f2a9c1b7d10")
        (snd (deploy (host := static_host failing_filter) tt)).
Proof. split; [reflexivity|]. vm_compute. find_event. Qed.

(** Port 80 is taken and banking-backend is missing: the script halts
    in section 2, having run commands of sections 1 and 2 only. *)
Lemma C1_witness :
  halts_nonzero (fst (deploy (host := static_host busy_port_no_backend) tt))
  /\ (forall c,
         In c (commands (snd (deploy (host := static_host busy_port_no_backend) tt))) ->
         (section_of c <= 2)%nat)
  /\ ~ In compose_down_v
          (commands (snd (deploy (host := static_host busy_port_no_backend) tt)))
  /\ ~ In compose_up_build_d
          (commands (snd (deploy (host := static_host busy_port_no_backend) tt)))
  /\ (forall c,
         In c (commands (snd (deploy (host := static_host busy_port_no_backend) tt))) ->
         container_action c = true -> c = compose_down).
Proof.
  apply (C1_missing_file_halts_before_cleanup (host := static_host busy_port_no_backend)).
  right. left. intros w. cbn. discriminate.
Defined.

(** On that host it is not so that the script halts before any
    container action: the port check has already run
    [docker-compose down]. *)
Lemma C1_counterexample :
  ~ (required_missing (host := static_host busy_port_no_backend) ->
     forall w,
       halts_nonzero (fst (deploy (host := static_host busy_port_no_backend) w))
       /\ no_container_action (snd (deploy (host := static_host busy_port_no_backend) w))).
Proof.
  intros Hall.
  assert (Hmiss : required_missing (host := static_host busy_port_no_backend)).
  { right. left. intros w. cbn. discriminate. }
  destruct (Hall Hmiss tt) as [_ Hnone].
  specialize (Hnone compose_down).
  assert (Hin : In compose_down
                   (commands (snd (deploy (host := static_host busy_port_no_backend) tt)))).
  { vm_compute. find_event. }
  specialize (Hnone Hin). discriminate Hnone.
Qed.

(** The backend is down: the script reaches the health checks and
    halts there with status 1. *)
Lemma C3_witness :
  exists t6,
    deploy (host := static_host backend_down) tt
    = (Exit 1,
       (snd (up_to_validation (host := static_host backend_down)
               (fresh (host := static_host backend_down) tt)) ++ t6)%list)
    /\ (exists before r after,
           snd (up_to_validation (host := static_host backend_down)
                  (fresh (host := static_host backend_down) tt))
           = (before ++ Ran compose_up_build_d r :: after)%list
           /\ status r = 0
           /\ forall c, In c (commands (after ++ t6)) -> teardown c = false)
    /\ (exists t0, t6 = (t0 ++ failure_report Backend 10)%list
                   /\ attempts_made Backend t0 = 10%nat)
    /\ (forall c, In c (commands t6) -> section_of c = 6%nat).
Proof.
  apply (C3_backend_never_responds (host := static_host backend_down) tt
           (snd (fst (up_to_validation (host := static_host backend_down)
                        (fresh (host := static_host backend_down) tt))))).
  - vm_compute. reflexivity.
  - intros j _. unfold responds. destruct (host_before _ _ _). reflexivity.
Defined.

(** A first deployment: [docker-compose down -v] reports an error, and
    the build/start command is run all the same. *)
Lemma C4_witness :
  In compose_up_build_d
     (commands (snd (deploy (host := static_host first_deployment) tt))).
Proof.
  apply (proj2 (C4_cleanup_never_halts (host := static_host first_deployment)) tt failed).
  vm_compute. find_event.
Defined.

(** Port 80 stays taken: section 2 is entered all the same. *)
Lemma C5_witness :
  In script_dir (commands (snd (deploy (host := static_host busy_port_no_backend) tt))).
Proof.
  apply (proj2 (proj2 (proj2 (C5_port_conflict_is_not_fatal
                                (host := static_host busy_port_no_backend)))) tt 80).
  vm_compute. find_event.
Defined.

(** On a healthy host the identifier is found and the health checks
    begin. *)
Lemma C7_witness :
  In (curl_f "http://localhost:5000/api/login")
     (commands (snd (deploy (host := static_host healthy) tt))).
Proof.
  refine (proj2 (proj2 (C7_nginx_container_must_resolve (host := static_host healthy))
                   tt (mkResult 0 ("3f2a9c1b7d10" ++ nl)) _) _).
  - vm_compute. find_event.
  - split; [reflexivity|]. vm_compute. discriminate.
Defined.

(** When [docker ps --filter] fails after printing an identifier, the
    resolution is fatal although the identifier is not empty, and the
    run halts with a resolved identifier before any health check. *)
Lemma C7_counterexample :
  ~ (forall s : Shell,
        halts_nonzero (fst (fst (resolve_nginx (host := static_host failing_filter) s)))
        <-> identifier (fst (exec (Host := static_host failing_filter)
                               docker_ps_filter_nginx (world s))) = "")
  /\ ~ (forall (w : World) (r : Result),
          In (Ran docker_ps_filter_nginx r)
             (snd (deploy (host := static_host failing_filter) w)) ->
          identifier r <> "" ->
          In (curl_f "http://localhost:5000/api/login")
             (commands (snd (deploy (host := static_host failing_filter) w)))).
Proof.
  split.
  - intros Hall.
    destruct (Hall (fresh (host := static_host failing_filter) tt)) as [Hempty _].
    assert (Hhalt : halts_nonzero
                      (fst (fst (resolve_nginx (host := static_host failing_filter)
                                   (fresh (host := static_host failing_filter) tt))))).
    { exists 1. split; [reflexivity|lia]. }
    apply Hempty in Hhalt. vm_compute in Hhalt. discriminate Hhalt.
  - intros Hall.
    specialize (Hall tt (mkResult 1 ("3f2a9c1b7d10" ++ nl))).
    assert (Hin : In (Ran docker_ps_filter_nginx (mkResult 1 ("3f2a9c1b7d10" ++ nl)))
                     (snd (deploy (host := static_host failing_filter) tt))).
    { vm_compute. find_event. }
    assert (Hne : identifier (mkResult 1 ("3f2a9c1b7d10" ++ nl)) <> "").
    { vm_compute. discriminate. }
    specialize (Hall Hin Hne). vm_compute in Hall.
    repeat (destruct Hall as [Hall|Hall]; [discriminate Hall|]). exact Hall.
Qed.

(** No image of the deployment is listed: the script exits with status
    1 before [docker ps]. *)
Lemma C9_witness :
  fst (deploy (host := static_host no_images) tt) = Exit 1
  /\ ~ In docker_ps (commands (snd (deploy (host := static_host no_images) tt)))
  /\ ~ In docker_ps_filter_nginx
          (commands (snd (deploy (host := static_host no_images) tt))).
Proof.
  apply (proj2 (C9_image_listing_is_fatal (host := static_host no_images)) tt
               (mkResult 0 ("REPOSITORY TAG" ++ nl ++ "redis latest" ++ nl))).
  - vm_compute. find_event.
  - reflexivity.
Defined.

(** With the login path down, an attempt of the backend check still
    succeeds, through the probe of the root path. *)
Lemma C10_witness :
  exists up,
    fst (fst (backend_probe (host := static_host login_down)
                (polling (host := static_host login_down) tt))) = Next up
    /\ (up = true <-> 22 = 0 \/ 0 = 0).
Proof.
  exact (proj1 C10_probes_are_disjunctions (static_host login_down)
           (polling (host := static_host login_down) tt)).
Defined.

(** On the host that answers from the third attempt on, the backend
    check succeeds at attempt 3. *)
Lemma C2_witness :
  succeeds_at (host := clocked_host third_try) Backend (polling (host := clocked_host third_try) 0%nat) 3.
Proof.
  apply (proj1 (C2_polling_succeeds_at_first_success
                  (host := clocked_host third_try) Backend
                  (polling (host := clocked_host third_try) 0%nat) eq_refl) 3%nat).
  - lia.
  - split; [reflexivity|].
    intros [|[|[|j]]] Hj; try reflexivity; lia.
Defined.

(** On a healthy host the counter is set to 0 and the first attempt
    succeeds. *)
Lemma C6_witness :
  exists o s' t,
    poll (host := static_host healthy) Backend (polling (host := static_host healthy) tt) = (o, s', t)
    /\ (o = Next tt \/ o = Exit 1)
    /\ Forall (fun v => 0 <= v <= 10) (counter_values t)
    /\ MAX_RETRIES s' = 10
    /\ 0 <= RETRY_COUNT s' <= 10
    /\ (attempts_made Backend t <= 10)%nat
    /\ (o = Next tt -> Forall (fun v => 0 <= v < 10) (counter_values t))
    /\ (o = Exit 1 ->
        exists t0, t = (t0 ++ failure_report Backend 10)%list
                   /\ Forall (fun v => 0 <= v < 10) (counter_values t0)
                   /\ attempts_made Backend t0 = 10%nat).
Proof.
  exact (C6_retry_counter_bounded (host := static_host healthy) Backend (polling (host := static_host healthy) tt) eq_refl).
Defined.

End DeployFacts.

(** ** Properties of the transactions service *)

Module TransactionsFacts.

Import Transactions.

Section Objects.

Context {V : Type}.

Lemma own_assign_eq (k : string) (v : V) (o : Obj V) :
  own k (assign k v o) = Some v.
Proof.
  induction o as [|[k' v'] o IH]; simpl.
  - rewrite String.eqb_refl. reflexivity.
  - destruct (String.eqb k k') eqn:E; simpl.
    + rewrite String.eqb_refl. reflexivity.
    + rewrite E. exact IH.
Qed.

Lemma own_assign_ne (k k' : string) (v : V) (o : Obj V) :
  k <> k' -> own k' (assign k v o) = own k' o.
Proof.
  intros Hne. induction o as [|[k0 v0] o IH]; simpl.
  - destruct (String.eqb_spec k' k); [congruence|reflexivity].
  - destruct (String.eqb_spec k k0) as [->|Hk]; simpl.
    + destruct (String.eqb_spec k' k0); [congruence|reflexivity].
    + destruct (String.eqb k' k0); [reflexivity|exact IH].
Qed.

Lemma own_None (k : string) (o : Obj V) :
  own k o = None -> ~ In k (map fst o).
Proof.
  induction o as [|[k' v'] o IH]; simpl; [auto|].
  destruct (String.eqb_spec k k') as [->|Hk]; [discriminate|].
  intros H [E|Hin]; [congruence|]. exact (IH H Hin).
Qed.

Lemma keys_assign_present (k : string) (v v' : V) (o : Obj V) :
  own k o = Some v' -> map fst (assign k v o) = map fst o.
Proof.
  induction o as [|[k0 v0] o IH]; simpl; [discriminate|].
  destruct (String.eqb_spec k k0) as [->|Hk]; simpl; [reflexivity|].
  intros H. rewrite (IH H). reflexivity.
Qed.

Lemma keys_assign_absent (k : string) (v : V) (o : Obj V) :
  own k o = None -> map fst (assign k v o) = (map fst o ++ [k])%list.
Proof.
  induction o as [|[k0 v0] o IH]; simpl; [reflexivity|].
  destruct (String.eqb_spec k k0) as [->|Hk]; simpl; [discriminate|].
  intros H. rewrite (IH H). reflexivity.
Qed.

End Objects.

Section Grouping.

Context {Amount Timestamp : Type}.
Variable monthYear : Timestamp -> string.

Lemma group_step_run (acc : Obj (list (Entry Amount Timestamp)))
    (tx : Transaction Amount Timestamp) :
  inherited (monthYear (timestamp tx)) = false ->
  well_formed acc ->
  exists acc',
    group_step monthYear acc tx = Some acc'
    /\ well_formed acc'
    /\ forall k, group_of acc' k
                 = (group_of acc k ++ if labelled monthYear k tx then [entry tx] else [])%list.
Proof.
  intros Hfresh [Hne Hnd]. unfold group_step, labelled. rewrite Hfresh.
  set (label := monthYear (timestamp tx)).
  destruct (own label acc) as [g|] eqn:Hown.
  - eexists. split; [reflexivity|]. split; [split|].
    + intros k g'. destruct (String.eqb_spec label k) as [<-|Hk].
      * rewrite own_assign_eq. intros [= <-]. destruct g; discriminate.
      * rewrite own_assign_ne by exact Hk. apply Hne.
    + rewrite (keys_assign_present _ _ _ _ Hown). exact Hnd.
    + intros k. unfold group_of. destruct (String.eqb_spec label k) as [<-|Hk].
      * rewrite own_assign_eq, Hown. reflexivity.
      * rewrite own_assign_ne by exact Hk. rewrite app_nil_r. reflexivity.
  - eexists. split; [reflexivity|]. split; [split|].
    + intros k g'. destruct (String.eqb_spec label k) as [<-|Hk].
      * rewrite own_assign_eq. intros [= <-]. discriminate.
      * rewrite own_assign_ne by exact Hk. apply Hne.
    + rewrite (keys_assign_absent _ _ _ Hown).
      apply NoDup_app; [exact Hnd|repeat constructor; intros []|].
      intros k Hin [<-|[]]. exact (own_None _ _ Hown Hin).
    + intros k. unfold group_of. destruct (String.eqb_spec label k) as [<-|Hk].
      * rewrite own_assign_eq, Hown. reflexivity.
      * rewrite own_assign_ne by exact Hk. rewrite app_nil_r. reflexivity.
Qed.

Lemma reduce_run (l : list (Transaction Amount Timestamp)) :
  forall acc : Obj (list (Entry Amount Timestamp)),
    (forall tx, In tx l -> inherited (monthYear (timestamp tx)) = false) ->
    well_formed acc ->
    exists acc',
      fold_left
        (fun a tx => match a with Some o => group_step monthYear o tx | None => None end)
        l (Some acc) = Some acc'
      /\ well_formed acc'
      /\ forall k, group_of acc' k
                   = (group_of acc k ++ map entry (filter (labelled monthYear k) l))%list.
Proof.
  induction l as [|tx l IH]; intros acc Hfresh Hwf.
  - exists acc. split; [reflexivity|]. split; [exact Hwf|].
    intros k. simpl. rewrite app_nil_r. reflexivity.
  - destruct (group_step_run acc tx (Hfresh tx (or_introl eq_refl)) Hwf)
      as (acc1 & Hstep & Hwf1 & Hg1).
    destruct (IH acc1 (fun tx' H => Hfresh tx' (or_intror H)) Hwf1)
      as (acc' & Hfold & Hwf' & Hg').
    exists acc'. split; [simpl; rewrite Hstep; exact Hfold|]. split; [exact Hwf'|].
    intros k. rewrite Hg', Hg1, <- app_assoc. f_equal. simpl.
    destruct (labelled monthYear k tx); reflexivity.
Qed.

Lemma filter_find (stored : list (Transaction Amount Timestamp)) (user label : string) :
  filter (labelled monthYear label) (find stored user)
  = filter (fun tx => String.eqb (email tx) user && labelled monthYear label tx) stored.
Proof.
  unfold find. induction stored as [|tx stored IH]; simpl; [reflexivity|].
  destruct (String.eqb (email tx) user); simpl; rewrite IH; reflexivity.
Qed.

(** C8. For every user identifier and every list of stored
    transactions (the month labels of the user's transactions not being
    names of [Object.prototype]), the endpoint answers with the grouping in which
    the group of a month label holds exactly the stored transactions
    with that email and that label, in stored order, each with its
    type, amount and timestamp; labels without such a transaction have
    no group, and no label has two. *)
Theorem C8_transactions_grouped_by_month
    (stored : list (Transaction Amount Timestamp)) (user : string) :
  (forall tx, In tx stored -> email tx = user ->
              inherited (monthYear (timestamp tx)) = false) ->
  exists groups,
    get_transactions monthYear (Some stored) user = Json groups
    /\ (forall label,
           own label groups
           = match month_of monthYear stored user label with
             | [] => None
             | e :: g => Some (e :: g)
             end)
    /\ NoDup (map fst groups)
    /\ (forall tx, In tx stored -> email tx = user ->
                   exists g, own (monthYear (timestamp tx)) groups = Some g
                             /\ In (entry tx) g)
    /\ (forall label g e,
           own label groups = Some g -> In e g ->
           exists tx, In tx stored /\ email tx = user
                      /\ monthYear (timestamp tx) = label
                      /\ entry_type e = type tx
                      /\ entry_amount e = amount tx
                      /\ entry_timestamp e = timestamp tx).
Proof.
  intros Hfresh.
  assert (Hfresh' : forall tx, In tx (find stored user) ->
                               inherited (monthYear (timestamp tx)) = false).
  { intros tx Hin. unfold find in Hin. apply filter_In in Hin.
    destruct Hin as [Hin Huser]. apply String.eqb_eq in Huser. auto. }
  assert (Hwf0 : well_formed (@nil (string * list (Entry Amount Timestamp)))).
  { split; [intros k g; discriminate|constructor]. }
  destruct (reduce_run (find stored user) [] Hfresh' Hwf0)
    as (groups & Hfold & [Hne Hnd] & Hgroups).
  assert (Hown : forall label,
             own label groups
             = match month_of monthYear stored user label with
               | [] => None
               | e :: g => Some (e :: g)
               end).
  { intros label. specialize (Hgroups label). unfold group_of in Hgroups.
    cbn [own app] in Hgroups. rewrite filter_find in Hgroups.
    fold (month_of monthYear stored user label) in Hgroups.
    destruct (own label groups) as [g|] eqn:Hg.
    - rewrite <- Hgroups. specialize (Hne label g Hg). destruct g; [contradiction|reflexivity].
    - rewrite <- Hgroups. reflexivity. }
  exists groups. split; [|split; [exact Hown|split; [exact Hnd|split]]].
  - unfold get_transactions, groupedByMonth.
    match goal with
    | |- match ?run with _ => _ end = _ =>
        replace run with (Some groups) by (symmetry; exact Hfold)
    end.
    reflexivity.
  - intros tx Hin Huser. rewrite Hown.
    assert (Hmem : In (entry tx) (month_of monthYear stored user (monthYear (timestamp tx)))).
    { unfold month_of, labelled. apply in_map, filter_In. split; [exact Hin|].
      rewrite Huser, !String.eqb_refl. reflexivity. }
    destruct (month_of monthYear stored user (monthYear (timestamp tx))) as [|e g];
      [destruct Hmem|].
    eexists. split; [reflexivity|exact Hmem].
  - intros label g e Hg Hin. rewrite Hown in Hg.
    assert (Hmem : In e (month_of monthYear stored user label)).
    { destruct (month_of monthYear stored user label); [discriminate|].
      injection Hg as <-. exact Hin. }
    unfold month_of in Hmem. apply in_map_iff in Hmem.
    destruct Hmem as (tx & <- & Htx). apply filter_In in Htx.
    destruct Htx as [Hstored Hboth]. apply andb_true_iff in Hboth.
    destruct Hboth as [Hu Hl]. apply String.eqb_eq in Hu, Hl.
    exists tx. repeat split; auto.
Qed.

End Grouping.

(** The two months of a user of the sample store. *)
Lemma C8_witness :
  exists groups,
    get_transactions sample_label (Some sample_store) "ann@example.com"
    = Json groups
    /\ own "January 2024" groups
       = Some [mkEntry "deposit" 60045 1704103200000;
               mkEntry "deposit" 500 1704300000000]
    /\ own "February 2024" groups
       = Some [mkEntry "withdraw" 2000 1707000000000].
Proof.
  destruct (C8_transactions_grouped_by_month sample_label sample_store
              "ann@example.com") as (groups & Hrun & Hown & _).
  - intros tx Hin _. simpl in Hin.
    destruct Hin as [<-|[<-|[<-|[<-|[]]]]]; reflexivity.
  - exists groups. split; [exact Hrun|]. rewrite !Hown. split; reflexivity.
Defined.

End TransactionsFacts.

(** ** More properties of the deployment script *)

Module BehaviourFacts.

Import Text Deploy DeployFacts Behaviour.

#[local] Arguments show_Z : simpl never.
#[local] Arguments strip_trailing_newlines : simpl never.
#[local] Arguments grep_E : simpl never.
#[local] Arguments contains : simpl never.

Section Order.

Context {host : Host}.

(** *** The stages of a run *)

Lemma retry_loop_only (pc : Cmd -> bool) (probe : Sh bool) (ok_msg Name name : string) :
  only pc probe -> forall fuel, only pc (retry_loop probe ok_msg Name name fuel).
Proof.
  intros Hprobe. induction fuel as [|fuel IH]; cbn [retry_loop].
  - unfold out_of_fuel. only_tac.
  - unfold log, error. only_tac; auto.
Qed.

Lemma poll_only (c : Check) :
  only (at_stage (match c with Backend => 6 | Nginx => 7 end)) (poll c).
Proof.
  destruct c; unfold poll, health_check.
  - apply only_bind; [apply only_quiet; reflexivity|intros _].
    apply only_bind; [apply only_quiet; reflexivity|intros fuel].
    apply retry_loop_only. unfold backend_probe, succeeds. only_tac.
  - apply only_bind; [apply only_quiet; reflexivity|intros _].
    apply only_bind; [apply only_quiet; reflexivity|intros fuel].
    apply retry_loop_only. unfold nginx_probe, succeeds. only_tac.
Qed.

Lemma backend_health_only : only (at_stage 6) backend_health.
Proof.
  unfold backend_health.
  apply only_bind; [apply only_quiet; reflexivity|intros _].
  apply only_bind; [apply only_quiet; reflexivity|intros _].
  apply (poll_only Backend).
Qed.

Lemma nginx_health_only : only (at_stage 7) nginx_health.
Proof.
  unfold nginx_health.
  apply only_bind; [apply only_quiet; reflexivity|intros _].
  apply (poll_only Nginx).
Qed.

Lemma early_stage (n : nat) (c : Cmd) :
  (n <= 5)%nat -> in_section n c = true -> at_stage n c = true.
Proof.
  unfold in_section, at_stage. intros Hn H. apply Nat.eqb_eq in H. apply Nat.eqb_eq.
  destruct c; simpl in *; try reflexivity; try exact H; lia.
Qed.

Lemma sorted_app (l1 l2 : list nat) (n k : nat) :
  (n <= k)%nat ->
  Forall (eq n) l1 ->
  StronglySorted le l2 -> Forall (le k) l2 ->
  StronglySorted le (l1 ++ l2) /\ Forall (le n) (l1 ++ l2).
Proof.
  intros Hnk H1 H2 Hk.
  assert (Hn : Forall (le n) l2).
  { eapply Forall_impl; [|exact Hk]. cbv beta. intros x Hx. lia. }
  induction H1 as [|x l1 <- H1 IH]; simpl; [auto|].
  destruct IH as [IHs IHf]. split.
  - constructor; [exact IHs|exact IHf].
  - constructor; [lia|exact IHf].
Qed.

Lemma stages_app (t1 t2 : list Event) :
  stages (t1 ++ t2) = (stages t1 ++ stages t2)%list.
Proof. unfold stages. rewrite commands_app, map_app. reflexivity. Qed.

Lemma only_stages {A} (n : nat) (m : Sh A) (s : Shell) :
  only (at_stage n) m -> Forall (eq n) (stages (snd (m s))).
Proof.
  intros H. unfold stages. apply Forall_forall. intros x Hx.
  apply in_map_iff in Hx. destruct Hx as (c & <- & Hc).
  specialize (H s c Hc). apply Nat.eqb_eq in H. auto.
Qed.

Lemma staged_bind {A B} (n k : nat) (m : Sh A) (f : A -> Sh B) :
  (n <= k)%nat -> only (at_stage n) m -> (forall a, staged k (f a)) ->
  staged n (bind m f).
Proof.
  intros Hnk Hm Hf s. pose proof (only_stages n m s Hm) as H1. unfold bind.
  destruct (m s) as [[[a|code|] s1] t1]; cbn [snd] in *.
  - destruct (Hf a s1) as [Hs Hk]. destruct (f a s1) as [[o s2] t2]. cbn [snd] in *.
    rewrite stages_app. apply (sorted_app _ _ n k); assumption.
  - rewrite <- (app_nil_r (stages t1)).
    apply (sorted_app _ _ n n); [lia|exact H1|constructor|constructor].
  - rewrite <- (app_nil_r (stages t1)).
    apply (sorted_app _ _ n n); [lia|exact H1|constructor|constructor].
Qed.

Lemma staged_only {A} (n : nat) (m : Sh A) : only (at_stage n) m -> staged n m.
Proof.
  intros Hm s. pose proof (only_stages n m s Hm) as H1.
  rewrite <- (app_nil_r (stages (snd (m s)))).
  apply (sorted_app _ _ n n); [lia|exact H1|constructor|constructor].
Qed.

Lemma section6_staged : staged 6 section6.
Proof.
  unfold section6.
  apply (staged_bind 6 6); [lia|unfold banner, log; only_tac|intros _].
  apply (staged_bind 6 7); [lia|apply backend_health_only|intros _].
  apply (staged_bind 7 7); [lia|apply nginx_health_only|intros _].
  apply staged_only. apply only_quiet. reflexivity.
Qed.

Lemma staged_then {A B} (n k : nat) (m : Sh A) (f : A -> Sh B) :
  (n <= k)%nat -> staged n m ->
  (forall s, Forall (fun x => x <= k)%nat (stages (snd (m s)))) ->
  (forall a, staged k (f a)) ->
  staged n (bind m f).
Proof.
  intros Hnk Hm Hmax Hf s. destruct (Hm s) as [Hs Hn]. specialize (Hmax s). unfold bind.
  destruct (m s) as [[[a|code|] s1] t1]; cbn [snd] in *; auto.
  destruct (Hf a s1) as [Hs2 Hk]. destruct (f a s1) as [[o s2] t2]. cbn [snd] in *.
  rewrite stages_app. split.
  - clear Hn. induction Hs as [|x l Hl IH Hx]; simpl; [exact Hs2|].
    inversion Hmax; subst. constructor; [auto|].
    apply Forall_app. split; [exact Hx|].
    eapply Forall_impl; [|exact Hk]. cbv beta. intros y Hy. lia.
  - apply Forall_app. split; [exact Hn|].
    eapply Forall_impl; [|exact Hk]. cbv beta. intros y Hy. lia.
Qed.

Lemma section6_stages_max (s : Shell) :
  Forall (fun x => x <= 7)%nat (stages (snd (section6 s))).
Proof.
  assert (H : only (fun c => (stage c <=? 7)%nat) section6).
  { unfold section6.
    apply only_bind; [unfold banner, log; only_tac|intros _].
    apply only_bind; [|intros _; apply only_bind; [|intros _]].
    - apply (only_weaken (at_stage 6)); [|apply backend_health_only].
      intros c Hc. apply Nat.eqb_eq in Hc. rewrite Hc. reflexivity.
    - apply (only_weaken (at_stage 7)); [|apply nginx_health_only].
      intros c Hc. apply Nat.eqb_eq in Hc. rewrite Hc. reflexivity.
    - apply only_quiet. reflexivity. }
  unfold stages. apply Forall_forall. intros x Hx.
  apply in_map_iff in Hx. destruct Hx as (c & <- & Hc).
  specialize (H s c Hc). apply Nat.leb_le in H. exact H.
Qed.

(** X1.  The commands of a run occur in the order of the stages: the
    sections one after the other and, within the health checks, every
    backend probe before every nginx probe. *)
Theorem stages_in_order (w : World) :
  StronglySorted le (stages (snd (deploy w))).
Proof.
  rewrite deploy_script. cbn [snd].
  assert (H : staged 1 script).
  { unfold script.
    apply (staged_bind 1 2); [lia|
      apply (only_weaken (in_section 1)); [intros c; apply early_stage; lia|apply section1_only]
      |intros _].
    apply (staged_bind 2 3); [lia|
      apply (only_weaken (in_section 2)); [intros c; apply early_stage; lia|apply section2_only]
      |intros _].
    apply (staged_bind 3 4); [lia|
      apply (only_weaken (in_section 3)); [intros c; apply early_stage; lia|apply section3_only]
      |intros _].
    apply (staged_bind 4 5); [lia|
      apply (only_weaken (in_section 4)); [intros c; apply early_stage; lia|apply section4_only]
      |intros _].
    apply (staged_bind 5 6); [lia|
      apply (only_weaken (in_section 5)); [intros c; apply early_stage; lia|apply section5_only]
      |intros _].
    apply (staged_then 6 8); [lia|apply section6_staged| |intros _].
    { intros s. eapply Forall_impl; [|apply section6_stages_max].
      cbv beta. intros x Hx. lia. }
    apply (staged_bind 8 8); [lia|unfold section7, errexit, banner, log, echo; only_tac|intros _].
    apply staged_only. unfold section8, banner, log, echo. only_tac. }
  exact (proj1 (H (fresh w))).
Qed.

End Order.

Section Errors.

Context {host : Host}.

(** *** Error lines *)

Lemma no_error_app (t1 t2 : list Event) :
  no_error t1 -> no_error t2 -> no_error (t1 ++ t2).
Proof.
  intros H1 H2 msg H. apply in_app_iff in H. destruct H as [H|H];
    [exact (H1 msg H)|exact (H2 msg H)].
Qed.

Lemma graceful_bind {A B} (m : Sh A) (f : A -> Sh B) :
  graceful m -> (forall a, graceful (f a)) -> graceful (bind m f).
Proof.
  intros Hm Hf s. specialize (Hm s). unfold bind.
  destruct (m s) as [[[a|code|] s1] t1]; cbn [fst snd] in *.
  - destruct Hm as [H1|[Habs _]]; [|discriminate Habs].
    specialize (Hf a s1). destruct (f a s1) as [[o s2] t2]. cbn [fst snd] in *.
    destruct Hf as [H2|(Ho & t0 & msg & -> & H0)].
    + left. apply no_error_app; assumption.
    + right. split; [exact Ho|]. exists (t1 ++ t0)%list, msg.
      split; [apply app_assoc|apply no_error_app; assumption].
  - destruct Hm as [H1|[Ho Hlast]]; [left; exact H1|right].
    split; [injection Ho as ->; reflexivity|exact Hlast].
  - destruct Hm as [H1|[Ho _]]; [left; exact H1|discriminate Ho].
Qed.

Lemma graceful_plain {A} (m : Sh A) :
  (forall s, no_error (snd (m s))) -> graceful m.
Proof. intros H s. left. apply H. Qed.

Lemma graceful_run (c : Cmd) : graceful (run c).
Proof.
  apply graceful_plain. intros s msg. unfold run.
  destruct (exec c (world s)) as [r w]. cbn. intros [H|[]]. discriminate H.
Qed.

Lemma graceful_fatal {A} (msg : string) :
  graceful (@bind host unit A (error msg) (fun _ => exit 1)).
Proof.
  intros s. right. split; [reflexivity|]. exists [], msg.
  split; [reflexivity|]. intros msg' [].
Qed.

Lemma graceful_if {A} (b : bool) (m1 m2 : Sh A) :
  graceful m1 -> graceful m2 -> graceful (if b then m1 else m2).
Proof. destruct b; auto. Qed.

Ltac silent :=
  let s := fresh "s" in
  let msg := fresh "msg" in
  let H := fresh "H" in
  intros s msg H; cbn in H;
  repeat (destruct H as [H|H]; [discriminate H|]); exact H.

Ltac graceful_tac :=
  repeat first
    [ apply graceful_fatal
    | apply graceful_run
    | apply graceful_bind; [|intros]
    | apply graceful_if
    | apply graceful_plain; silent
    | match goal with |- graceful (match ?x with _ => _ end) => destruct x end ].

Lemma retry_loop_graceful (probe : Sh bool) (ok_msg Name name : string) :
  graceful probe -> forall fuel, graceful (retry_loop probe ok_msg Name name fuel).
Proof.
  intros Hprobe. induction fuel as [|fuel IH]; cbn [retry_loop].
  - unfold out_of_fuel. graceful_tac.
  - unfold log. graceful_tac; auto.
Qed.

Lemma section1_graceful : graceful section1.
Proof.
  unfold section1, check_docker, check_compose, check_daemon, check_ports, banner,
    succeeds, log.
  graceful_tac.
Qed.

Lemma section2_graceful : graceful section2.
Proof. unfold section2, banner, succeeds, log. graceful_tac. Qed.

Lemma section3_graceful : graceful section3.
Proof. unfold section3, banner, log. graceful_tac. Qed.

Lemma section4_graceful : graceful section4.
Proof. unfold section4, errexit, banner, log. graceful_tac. Qed.

Lemma section5_graceful : graceful section5.
Proof.
  unfold section5, list_images, show_containers, resolve_nginx, errexit, banner, log.
  graceful_tac.
Qed.

Lemma poll_graceful (c : Check) : graceful (poll c).
Proof.
  destruct c; unfold poll, health_check;
    (apply graceful_bind; [apply graceful_plain; silent|intros _]);
    (apply graceful_bind; [apply graceful_plain; silent|intros fuel]);
    apply retry_loop_graceful;
    unfold backend_probe, nginx_probe, succeeds; graceful_tac.
Qed.

Lemma section6_graceful : graceful section6.
Proof.
  unfold section6, backend_health, nginx_health, banner, log.
  repeat first [ apply poll_graceful | apply graceful_bind; [|intros]
               | apply graceful_plain; silent ].
Qed.

Lemma section7_graceful : graceful section7.
Proof. unfold section7, errexit, banner, log, echo. graceful_tac. Qed.

Lemma section8_graceful : graceful section8.
Proof. unfold section8, banner, log, echo. graceful_tac. Qed.

Lemma script_graceful : graceful script.
Proof.
  unfold script.
  repeat first
    [ apply section1_graceful | apply section2_graceful | apply section3_graceful
    | apply section4_graceful | apply section5_graceful | apply section6_graceful
    | apply section7_graceful | apply section8_graceful
    | apply graceful_bind; [|intros _] ].
Qed.

(** X3.  A line printed by [error] is the last thing a run does before it
    exits with status 1, and a run prints at most one; a run that ends
    with status 0 has printed none.  (The converse fails: an exit forced
    by [set -e] prints no error line.) *)
Theorem error_line_is_final (w : World) :
  (forall msg,
      In (Error msg) (snd (deploy w)) ->
      fst (deploy w) = Exit 1
      /\ exists t0, snd (deploy w) = (t0 ++ [Error msg])%list /\ no_error t0)
  /\ (fst (deploy w) = Next tt -> no_error (snd (deploy w))).
Proof.
  rewrite deploy_script. cbn [fst snd].
  destruct (script_graceful (fresh w)) as [Hnone|(Ho & t0 & msg' & Ht & H0)].
  - split; [|auto]. intros msg Hin. destruct (Hnone msg Hin).
  - split.
    + intros msg Hin. split; [exact Ho|]. exists t0. split; [|exact H0].
      rewrite Ht in Hin |- *. apply in_app_iff in Hin.
      destruct Hin as [Hin|[Hin|[]]]; [destruct (H0 msg Hin)|].
      injection Hin as ->. reflexivity.
    + intros Hnext. rewrite Hnext in Ho. discriminate Ho.
Qed.

End Errors.

Section Waiting.

Context {host : Host}.

(** *** Time spent waiting *)

Lemma slept_app (t1 t2 : list Event) : slept (t1 ++ t2) = slept t1 + slept t2.
Proof.
  induction t1 as [|e t1 IH]; simpl; [reflexivity|].
  destruct e; rewrite ?IH; lia.
Qed.

Lemma probe_no_sleep (c : Check) (s : Shell) : slept (snd (probe c s)) = 0.
Proof.
  destruct c; unfold probe, backend_probe, nginx_probe; open_sh; tidy;
    exec_step; status_step; try reflexivity; exec_step; reflexivity.
Qed.

Lemma retry_loop_slept (c : Check) (ok_msg name : string) :
  forall (fuel : nat) (s : Shell),
    slept (snd (retry_loop (probe c) ok_msg (check_Name c) name fuel s))
    = 3 * Z.of_nat
          (waits (MAX_RETRIES s)
             (snd (retry_loop (probe c) ok_msg (check_Name c) name fuel s))).
Proof.
  unfold waits.
  induction fuel as [|fuel IH]; intros s.
  - cbn [retry_loop]. open_sh. tidy.
    destruct (RETRY_COUNT s <? MAX_RETRIES s); reflexivity.
  - destruct (probe_run c s) as (tp & Hp & _ & Hcnt & _).
    pose proof (probe_no_sleep c s) as Hsl. rewrite Hp in Hsl. cbn [snd] in Hsl.
    cbn [retry_loop]. open_sh. tidy.
    destruct (RETRY_COUNT s <? MAX_RETRIES s); [|reflexivity].
    rewrite Hp. tidy.
    destruct (fst (attempt c (world s))).
    + cbn [snd]. rewrite slept_app, counter_values_app, Hsl, Hcnt. reflexivity.
    + destruct (Z.eqb_spec (RETRY_COUNT s + 1) (MAX_RETRIES s)) as [Hmax|Hmore]; tidy.
      * cbn [snd]. rewrite slept_app, counter_values_app, Hsl, Hcnt.
        cbn [slept counter_values app filter].
        change (String.eqb "RETRY_COUNT" "RETRY_COUNT") with true. cbn iota beta.
        cbn [filter]. rewrite Hmax, Z.eqb_refl. reflexivity.
      * set (s2 := mkShell (pause 3 (snd (attempt c (world s)))) (MAX_RETRIES s)
                           (RETRY_COUNT s + 1) (NGINX_CONTAINER_ID s) (SCRIPT_DIR s)).
        specialize (IH s2). change (MAX_RETRIES s2) with (MAX_RETRIES s) in IH.
        destruct (retry_loop (probe c) ok_msg (check_Name c) name fuel s2)
          as [[o s'] t] eqn:Hrun.
        cbn [snd] in *.
        rewrite slept_app, counter_values_app, Hsl, Hcnt.
        cbn [slept counter_values app filter].
        change (String.eqb "RETRY_COUNT" "RETRY_COUNT") with true. cbn iota beta.
        cbn [filter]. apply Z.eqb_neq in Hmore. rewrite Hmore. cbn [negb length].
        rewrite IH. lia.
Qed.

Lemma poll_slept (c : Check) (s : Shell) :
  slept (snd (poll c s))
  = 3 * Z.of_nat (waits (MAX_RETRIES s) (snd (poll c s))) - (if 0 =? MAX_RETRIES s then 0 else 3).
Proof.
  set (s0 := mkShell (world s) (MAX_RETRIES s) 0 (NGINX_CONTAINER_ID s) (SCRIPT_DIR s)).
  assert (Hc : exists ok_msg name,
             poll c s = health_check (probe c) ok_msg (check_Name c) name s).
  { destruct c; eexists _, _; reflexivity. }
  destruct Hc as (ok_msg & name & ->).
  pose proof (retry_loop_slept c ok_msg name (iterations_left s0) s0) as H.
  unfold health_check. open_sh. tidy. fold s0.
  change (MAX_RETRIES s0) with (MAX_RETRIES s) in H.
  destruct (retry_loop (probe c) ok_msg (check_Name c) name (iterations_left s0) s0)
    as [[o s'] t].
  cbn [snd] in *. unfold waits in *.
  cbn [slept counter_values app filter].
  change (String.eqb "RETRY_COUNT" "RETRY_COUNT") with true. cbn iota beta.
  cbn [filter]. rewrite H.
  destruct (0 =? MAX_RETRIES s); cbn [negb length]; lia.
Qed.

Lemma filter_all {X} (f : X -> bool) (l : list X) :
  Forall (fun x => f x = true) l -> filter f l = l.
Proof.
  induction 1 as [|x l Hx Hl IH]; simpl; [reflexivity|]. rewrite Hx, IH. reflexivity.
Qed.

Lemma counting_below (max : Z) (k : nat) :
  Z.of_nat k < max ->
  filter (fun v => negb (v =? max)) (counting 0 k) = counting 0 k.
Proof.
  intros Hk. apply filter_all.
  eapply Forall_impl; [|apply counting_bounds]. cbv beta. intros v Hv.
  apply negb_true_iff, Z.eqb_neq. lia.
Qed.

Lemma counting_length (from : Z) (k : nat) : length (counting from k) = k.
Proof. unfold counting. rewrite length_map, length_seq. reflexivity. Qed.

(** How long a check with budget 10 waits, by how it ends. *)
Lemma poll_waits (c : Check) (s : Shell) :
  MAX_RETRIES s = 10 ->
  match first_success c (world s) 10 with
  | Some k =>
      fst (fst (poll c s)) = Next tt
      /\ attempts_made c (snd (poll c s)) = S k
      /\ slept (snd (poll c s)) = 3 * Z.of_nat k /\ (k < 10)%nat
  | None => fst (fst (poll c s)) = Exit 1 /\ slept (snd (poll c s)) = 27
  end.
Proof.
  intros Hmax. pose proof (poll_run c s) as Hrun. pose proof (poll_slept c s) as Hsl.
  rewrite Hmax in Hrun, Hsl. change (Z.to_nat 10) with 10%nat in Hrun.
  change (0 =? 10) with false in Hsl. unfold waits in Hsl.
  destruct (first_success c (world s) 10) as [k|] eqn:Hfirst.
  - apply first_success_Some in Hfirst. destruct Hfirst as (Hk & _).
    destruct Hrun as (s' & t & Hpoll & _ & _ & Hatt & Hv & _).
    rewrite Hpoll in *. cbn [fst snd] in *. rewrite Hv in Hsl.
    cbn [filter] in Hsl. change (negb (0 =? 10)) with true in Hsl. cbn iota in Hsl.
    rewrite counting_below in Hsl by lia. cbn [length] in Hsl.
    rewrite counting_length in Hsl.
    repeat split; auto. lia.
  - destruct Hrun as (s' & t & Hpoll & _ & _ & _ & Hv & _).
    rewrite Hpoll in *. cbn [fst snd] in *.
    rewrite counter_values_app, Hv, filter_app in Hsl.
    cbn [filter] in Hsl. change (negb (0 =? 10)) with true in Hsl. cbn iota in Hsl.
    rewrite counting_below in Hsl by lia.
    split; [reflexivity|]. rewrite Hsl. reflexivity.
Qed.

(** X4.  A health check with budget 10 that succeeds at attempt [K] has
    waited 3 seconds after each of the [K - 1] failed attempts; one that
    fails has waited 27 seconds: there is no wait after the tenth
    attempt. *)
Theorem polling_time (c : Check) (s : Shell) :
  MAX_RETRIES s = 10 ->
  (forall K : nat, succeeds_at c s K ->
                   slept (snd (poll c s)) = 3 * (Z.of_nat K - 1))
  /\ (gives_up c s -> slept (snd (poll c s)) = 27).
Proof.
  intros Hmax. pose proof (poll_waits c s Hmax) as H.
  destruct (first_success c (world s) 10) as [k|].
  - destruct H as (Ho & Hatt & Hsl & _). split.
    + intros K (s' & t & Hpoll & HK). rewrite Hpoll in Hatt. cbn [snd] in Hatt.
      rewrite Hsl. lia.
    + intros (s' & t & Hpoll). rewrite Hpoll in Ho. discriminate Ho.
  - destruct H as (Ho & Hsl). split.
    + intros K (s' & t & Hpoll & _). rewrite Hpoll in Ho. discriminate Ho.
    + intros _. exact Hsl.
Qed.

Lemma rests_bind {A B} (n1 n2 : Z) (m : Sh A) (f : A -> Sh B) :
  0 <= n2 -> rests n1 m -> (forall a, rests n2 (f a)) -> rests (n1 + n2) (bind m f).
Proof.
  intros Hn2 Hm Hf s. specialize (Hm s). unfold bind.
  destruct (m s) as [[[a|code|] s1] t1]; cbn [snd] in *; [|lia..].
  specialize (Hf a s1). destruct (f a s1) as [[o s2] t2]. cbn [snd] in *.
  rewrite slept_app. lia.
Qed.

Lemma rests_then {A B} (m : Sh A) (f : A -> Sh B) (n : Z) :
  rests 0 m -> (forall a, rests n (f a)) -> 0 <= n -> rests n (bind m f).
Proof. intros Hm Hf Hn. apply (rests_bind 0 n); assumption. Qed.

Lemma rests_plain {A} (m : Sh A) :
  (forall s, slept (snd (m s)) = 0) -> rests 0 m.
Proof. intros H s. rewrite H. lia. Qed.

Lemma rests_run (c : Cmd) : rests 0 (run c).
Proof.
  apply rests_plain. intros s. unfold run. destruct (exec c (world s)). reflexivity.
Qed.

Lemma rests_le {A} (n n' : Z) (m : Sh A) : n <= n' -> rests n m -> rests n' m.
Proof. intros Hn H s. specialize (H s). lia. Qed.

Lemma rests_if {A} (n : Z) (b : bool) (m1 m2 : Sh A) :
  rests n m1 -> rests n m2 -> rests n (if b then m1 else m2).
Proof. destruct b; auto. Qed.

(** Fragments that never sleep. *)
Ltac restless :=
  repeat first
    [ apply rests_run
    | apply rests_then; [|intros|lia]
    | apply rests_if
    | apply rests_plain; intros; reflexivity
    | match goal with |- rests _ (match ?x with _ => _ end) => destruct x end ].

Lemma check_port_rests (port : Z) : rests 2 (check_port port).
Proof.
  unfold check_port.
  apply rests_then; [unfold port_in_use, succeeds; restless|intros busy|lia].
  destruct busy; [|apply (rests_le 0); [lia|restless]].
  apply rests_then; [unfold warning; restless|intros _|lia].
  apply rests_then; [restless|intros _|lia].
  apply (rests_bind 2 0); [lia| |intros _].
  - intros s. cbn. lia.
  - unfold port_in_use, succeeds, warning. restless.
Qed.

Lemma section1_rests : rests 8 section1.
Proof.
  unfold section1.
  apply rests_then; [unfold banner, log; restless|intros _|lia].
  apply rests_then; [unfold check_docker, succeeds, log, error; restless|intros _|lia].
  apply rests_then; [unfold check_compose, succeeds, log, error; restless|intros _|lia].
  apply rests_then; [unfold check_daemon, succeeds, log, error; restless|intros _|lia].
  unfold check_ports, REQUIRED_PORTS. cbn [for_each].
  apply rests_then; [unfold log; restless|intros _|lia].
  apply (rests_bind 8 0); [lia| |intros _; unfold log; restless].
  apply (rests_bind 2 6); [lia|apply check_port_rests|intros _].
  apply (rests_bind 2 4); [lia|apply check_port_rests|intros _].
  apply (rests_bind 2 2); [lia|apply check_port_rests|intros _].
  apply (rests_bind 2 0); [lia|apply check_port_rests|intros _]. restless.
Qed.

Lemma section2_rests : rests 0 section2.
Proof. unfold section2, banner, succeeds, log, error. restless. Qed.

Lemma section3_rests : rests 0 section3.
Proof. unfold section3, banner, log. restless. Qed.

Lemma section4_rests : rests 30 section4.
Proof.
  unfold section4.
  apply rests_then; [unfold banner, log; restless|intros _|lia].
  apply rests_then; [unfold log; restless|intros _|lia].
  apply rests_then; [unfold errexit; restless|intros _|lia].
  apply rests_then; [unfold log; restless|intros _|lia].
  intros s. cbn. lia.
Qed.

Lemma section5_rests : rests 0 section5.
Proof.
  unfold section5, list_images, show_containers, resolve_nginx, errexit, banner, log, error.
  restless.
Qed.

Lemma poll_rests (c : Check) (s : Shell) :
  MAX_RETRIES s = 10 -> 0 <= slept (snd (poll c s)) <= 27.
Proof.
  intros Hmax. pose proof (poll_waits c s Hmax) as H.
  destruct (first_success c (world s) 10) as [k|].
  - destruct H as (_ & _ & -> & Hk). lia.
  - destruct H as (_ & ->). lia.
Qed.

Lemma section6_rests : rests 54 section6.
Proof.
  intros s. unfold section6.
  rewrite (bind_Next (banner _) _ s tt s _ eq_refl). cbn [fst snd app slept].
  destruct (backend_health_budget s) as (s0 & Hmax & _ & Eb).
  pose proof (poll_rests Backend s0 Hmax) as Hb.
  destruct (poll Backend s0) as [[ob s1] t1] eqn:Epoll. cbn [fst snd] in *.
  destruct ob as [[]|code|].
  - rewrite (bind_Next backend_health _ s tt s1 _ Eb). cbn [fst snd slept].
    destruct (nginx_health_budget s0 s1 t1 Hmax Epoll) as (Hmax1 & En).
    pose proof (poll_rests Nginx s1 Hmax1) as Hn.
    destruct (poll Nginx s1) as [[on s2] t2]. cbn [fst snd] in *.
    destruct on as [[]|code|].
    + rewrite (bind_Next nginx_health _ s1 tt s2 _ En). cbn [fst snd].
      rewrite !slept_app. unfold log, emit. cbn [snd slept]. lia.
    + rewrite (bind_Exit nginx_health _ s1 _ s2 _ En). cbn [fst snd].
      rewrite !slept_app. cbn [slept]. lia.
    + rewrite (bind_OutOfFuel nginx_health _ s1 s2 _ En). cbn [fst snd].
      rewrite !slept_app. cbn [slept]. lia.
  - rewrite (bind_Exit backend_health _ s _ s1 _ Eb). cbn [fst snd slept]. lia.
  - rewrite (bind_OutOfFuel backend_health _ s s1 _ Eb). cbn [fst snd slept]. lia.
Qed.

Lemma section7_rests : rests 0 section7.
Proof. unfold section7, errexit, banner, log, echo. restless. Qed.

Lemma section8_rests : rests 0 section8.
Proof. unfold section8, banner, log, echo. restless. Qed.

(** X5.  A run sleeps for at most 92 seconds in all: 2 for each of the four
    ports, 30 after the build, and 27 in each health check. *)
Theorem total_wait_bounded (w : World) :
  0 <= slept (snd (deploy w)) <= 92.
Proof.
  rewrite deploy_script. cbn [snd].
  assert (H : rests 92 script).
  { unfold script.
    apply (rests_bind 8 84); [lia|apply section1_rests|intros _].
    apply (rests_bind 0 84); [lia|apply section2_rests|intros _].
    apply (rests_bind 0 84); [lia|apply section3_rests|intros _].
    apply (rests_bind 30 54); [lia|apply section4_rests|intros _].
    apply (rests_bind 0 54); [lia|apply section5_rests|intros _].
    apply (rests_bind 54 0); [lia|apply section6_rests|intros _].
    apply (rests_bind 0 0); [lia|apply section7_rests|intros _].
    apply section8_rests. }
  exact (H (fresh w)).
Qed.

End Waiting.

Ltac refute :=
  match goal with
  | H : always_fails ?c, E : exec ?c ?w = (?r, _), Z : status ?r = 0 |- _ =>
      exfalso; apply (H w); rewrite E; exact Z
  end.

Section Failures.

Context {host : Host}.

(** *** An nginx that never answers *)

(** X6.  If the backend check passes and nginx gets no success on any of 10
    attempts, section 6 ends the script with status 1 after exactly 10
    nginx attempts: the nginx loop runs on the budget that was set for
    the backend. *)
Theorem nginx_never_responds (s s1 : Shell) (t1 : list Event) :
  backend_health s = (Next tt, s1, t1) ->
  (forall j, (1 <= j <= 10)%nat -> responds Nginx (world s1) j = false) ->
  exists s' t0,
    section6 s
    = (Exit 1, s',
       ([Log "========================================="; Log "SECTION 6: HEALTH CHECKS";
         Log "========================================="]
        ++ t1
        ++ Log "Performing health check on nginx (http://localhost:80)..."
        :: t0 ++ failure_report Nginx 10)%list)
    /\ attempts_made Nginx t0 = 10%nat
    /\ MAX_RETRIES s1 = 10.
Proof.
  intros Eb Hdown.
  destruct (backend_health_budget s) as (s0 & Hmax & _ & Eb0).
  rewrite Eb in Eb0.
  destruct (poll Backend s0) as [[ob sb] tb] eqn:Epoll. cbn [fst snd] in Eb0.
  injection Eb0 as Ho Hs Ht. subst ob sb t1.
  destruct (nginx_health_budget s0 s1 tb Hmax Epoll) as (Hmax1 & En).
  pose proof (poll_run Nginx s1) as Hrun. rewrite Hmax1 in Hrun.
  change (Z.to_nat 10) with 10%nat in Hrun.
  rewrite (proj2 (first_success_None Nginx 10 (world s1)) Hdown) in Hrun.
  destruct Hrun as (s' & t0 & Hpoll & _ & _ & Hatt & _).
  rewrite Hpoll in En. cbn [fst snd] in En.
  exists s', t0. split; [|split; [exact Hatt|exact Hmax1]].
  unfold section6.
  rewrite (bind_Next (banner _) _ s tt s _ eq_refl). cbn [fst snd].
  rewrite (bind_Next backend_health _ s tt s1 _ Eb). cbn [fst snd].
  rewrite (bind_Exit nginx_health _ s1 _ s' _ En). reflexivity.
Qed.

(** *** A missing installation *)

Lemma section1_missing (s : Shell) :
  installation_missing -> fst (fst (section1 s)) = Exit 1.
Proof.
  intros Hmiss. unfold section1, check_docker, check_compose, check_daemon.
  open_sh. tidy.
  exec_step. status_step; [|reflexivity].
  exec_step. exec_step. status_step.
  - exec_step. status_step; [|reflexivity].
    destruct Hmiss as [H|[[H _]|H]]; refute.
  - exec_step. status_step; [|reflexivity].
    exec_step. status_step; [|reflexivity].
    destruct Hmiss as [H|[[_ H]|H]]; refute.
Qed.

(** X7.  When Docker, Docker Compose (in both of its forms) or the Docker
    daemon is missing, the script exits with status 1 having run
    installation checks only: no port is looked at, no file is tested
    and no container is touched. *)
Theorem missing_installation_halts_first (w : World) :
  installation_missing ->
  fst (deploy w) = Exit 1
  /\ forall c, In c (commands (snd (deploy w))) -> installation_check c = true.
Proof.
  intros Hmiss. rewrite deploy_script. unfold script. cbn [fst snd].
  pose proof (section1_missing (fresh w) Hmiss) as Hexit.
  pose proof (section1_halts_early (fresh w)) as Hearly.
  destruct (section1 (fresh w)) as [[o s1] t1] eqn:E1. cbn [fst] in Hexit. subst o.
  rewrite (bind_Exit section1 _ _ _ _ _ E1). cbn [fst snd].
  split; [reflexivity|exact Hearly].
Qed.

End Failures.

Section ExitStatus.

Context {host : Host}.

(** *** Where an exit status comes from *)

Lemma accounted_bind {A B} (before : list Event) (m : Sh A) (f : A -> Sh B) :
  accounted before m -> (forall a, accounted before (f a)) ->
  accounted before (bind m f).
Proof.
  intros Hm Hf s code. specialize (Hm s). unfold bind.
  destruct (m s) as [[[a|code'|] s1] t1]; cbn [fst snd] in *.
  - specialize (Hf a s1). destruct (f a s1) as [[o s2] t2]. cbn [fst snd] in *.
    intros Ho. destruct (Hf code Ho) as [H|(c & r & Hin & Hr)]; [auto|right].
    exists c, r. split; [|exact Hr].
    rewrite !in_app_iff in *. tauto.
  - intros [= ->]. apply Hm. reflexivity.
  - discriminate.
Qed.

Lemma accounted_run_bind {A} (before : list Event) (c : Cmd) (f : Result -> Sh A) :
  (forall r, accounted (before ++ [Ran c r]) (f r)) ->
  accounted before (bind (run c) f).
Proof.
  intros Hf s code. unfold bind, run.
  destruct (exec c (world s)) as [r w]. specialize (Hf r (set_world w s)).
  destruct (f r (set_world w s)) as [[o s2] t2]. cbn [fst snd] in *.
  intros Ho. destruct (Hf code Ho) as [H|(c' & r' & Hin & Hr)]; [auto|right].
  exists c', r'. split; [|exact Hr].
  rewrite <- app_assoc in Hin. exact Hin.
Qed.

Lemma accounted_plain {A} (before : list Event) (m : Sh A) :
  (forall s, exists a, fst (fst (m s)) = Next a) -> accounted before m.
Proof. intros H s code Ho. destruct (H s) as [a Ha]. rewrite Ha in Ho. discriminate. Qed.

Lemma accounted_run (before : list Event) (c : Cmd) : accounted before (run c).
Proof.
  apply accounted_plain. intros s. unfold run.
  destruct (exec c (world s)). eexists. reflexivity.
Qed.

Lemma accounted_exit_1 {A} (before : list Event) : accounted before (@exit host A 1).
Proof. intros s code [= <-]. left. reflexivity. Qed.

Lemma accounted_exit_status {A} (before : list Event) (c : Cmd) (r : Result) :
  In (Ran c r) before -> accounted before (@exit host A (status r)).
Proof.
  intros Hin s code [= <-]. right. exists c, r. split; [|reflexivity].
  apply in_or_app. left. exact Hin.
Qed.

Lemma accounted_if {A} (before : list Event) (b : bool) (m1 m2 : Sh A) :
  accounted before m1 -> accounted before m2 ->
  accounted before (if b then m1 else m2).
Proof. destruct b; auto. Qed.

Ltac ran_before :=
  solve [ repeat first [ apply in_or_app; right; left; reflexivity
                       | apply in_or_app; left ] ].

Ltac accounted_tac :=
  repeat first
    [ apply accounted_exit_1
    | eapply accounted_exit_status; ran_before
    | apply accounted_run
    | apply accounted_run_bind; intros
    | apply accounted_bind; [|intros]
    | apply accounted_if
    | apply accounted_plain; intros; eexists; reflexivity
    | match goal with |- accounted _ (match ?x with _ => _ end) => destruct x end ].

Lemma section1_accounted : accounted [] section1.
Proof.
  unfold section1, check_docker, check_compose, check_daemon, check_ports, banner,
    succeeds, log, error.
  accounted_tac.
Qed.

Lemma section2_accounted : accounted [] section2.
Proof. unfold section2, banner, succeeds, log, error. accounted_tac. Qed.

Lemma section3_accounted : accounted [] section3.
Proof. unfold section3, banner, log. accounted_tac. Qed.

Lemma section4_accounted : accounted [] section4.
Proof. unfold section4, errexit, banner, log. accounted_tac. Qed.

Lemma section5_accounted : accounted [] section5.
Proof.
  unfold section5, list_images, show_containers, resolve_nginx, errexit, banner, log, error.
  accounted_tac.
Qed.

Lemma section6_accounted : accounted [] section6.
Proof.
  assert (Hpoll : forall c, accounted [] (poll c)).
  { intros c s code. pose proof (poll_run c s) as H.
    destruct (first_success c (world s) (Z.to_nat (MAX_RETRIES s))).
    - destruct H as (s' & t & -> & _). discriminate.
    - destruct (Z.to_nat (MAX_RETRIES s)).
      + destruct H as (s' & ->). discriminate.
      + destruct H as (s' & t & -> & _). intros [= <-]. left. reflexivity. }
  unfold section6, backend_health, nginx_health, banner, log.
  repeat first [ apply Hpoll | apply accounted_bind; [|intros]
               | apply accounted_plain; intros; eexists; reflexivity ].
Qed.

Lemma section7_accounted : accounted [] section7.
Proof. unfold section7, errexit, banner, log, echo. accounted_tac. Qed.

Lemma section8_accounted : accounted [] section8.
Proof. unfold section8, banner, log, echo. accounted_tac. Qed.

(** X8.  The exit status of a run is 0, or 1, or the non-zero status of a
    command that the run has executed: the script makes up no other
    status. *)
Theorem exit_status_accounted (w : World) (code : Z) :
  exit_status (fst (deploy w)) = Some code ->
  code = 0 \/ code = 1
  \/ (code <> 0 /\ exists c r, In (Ran c r) (snd (deploy w)) /\ status r = code).
Proof.
  assert (H : accounted [] script).
  { unfold script.
    repeat first
      [ apply section1_accounted | apply section2_accounted | apply section3_accounted
      | apply section4_accounted | apply section5_accounted | apply section6_accounted
      | apply section7_accounted | apply section8_accounted
      | apply accounted_bind; [|intros _] ]. }
  pose proof (script_sound (fresh w)) as Hsound.
  rewrite deploy_script. cbn [fst snd].
  specialize (H (fresh w)).
  destruct (fst (fst (script (fresh w)))) as [[]|code'|]; cbn [exit_status].
  - intros [= <-]. left. reflexivity.
  - intros [= <-]. right. destruct (H code' eq_refl) as [H1|H2]; [left; exact H1|right].
    split; [exact Hsound|exact H2].
  - discriminate.
Qed.

End ExitStatus.

Ltac settle :=
  repeat match goal with
         | Z : status ?r = 0 |- _ =>
             apply Z.eqb_eq in Z; rewrite ?Z; clear Z
         | Z : status ?r <> 0 |- _ =>
             apply Z.eqb_neq in Z; rewrite ?Z; clear Z
         end.

Section PortCheck.

Context {host : Host}.

(** *** The teardown of the port check *)

Lemma warranted_bind {A B} (m : Sh A) (f : A -> Sh B) :
  warranted m -> (forall a, warranted (f a)) -> warranted (bind m f).
Proof.
  intros Hm Hf s. specialize (Hm s). unfold bind.
  destruct (m s) as [[[a|code|] s1] t1]; cbn [snd] in *; auto.
  specialize (Hf a s1). destruct (f a s1) as [[o s2] t2]. cbn [snd] in *.
  rewrite !existsb_app, Hm, Hf. reflexivity.
Qed.

Lemma elsewhere_trace (t : list Event) :
  (forall c, In c (commands t) -> elsewhere c = true) ->
  existsb tears_down t = false /\ existsb reports t = false.
Proof.
  induction t as [|e t IH]; intros H; [split; reflexivity|].
  destruct e as [c r| | | | | | | |]; cbn [existsb tears_down reports commands] in *;
    try (apply IH; exact H).
  assert (Hc : elsewhere c = true) by (apply H; left; reflexivity).
  destruct (IH (fun c' Hc' => H c' (or_intror Hc'))) as [-> ->].
  destruct c; try discriminate Hc; split; reflexivity.
Qed.

Lemma warranted_only {A} (pc : Cmd -> bool) (m : Sh A) :
  (forall c, pc c = true -> elsewhere c = true) -> only pc m -> warranted m.
Proof.
  intros Hpc Hm s.
  destruct (elsewhere_trace (snd (m s))) as [-> ->]; [|reflexivity].
  intros c Hc. apply Hpc, (Hm s c Hc).
Qed.

Lemma check_port_warranted (port : Z) :
  existsb (Z.eqb port) REQUIRED_PORTS = true -> warranted (check_port port).
Proof.
  intros Hport s. unfold check_port, port_in_use. open_sh. tidy.
  repeat first [exec_step | status_step];
    cbn [snd existsb tears_down reports app]; rewrite ?Hport; settle; reflexivity.
Qed.

Lemma check_port_unreported (port : Z) (s : Shell) :
  existsb (Z.eqb port) REQUIRED_PORTS = true ->
  existsb reports (snd (check_port port s)) = false ->
  commands (snd (check_port port s)) = [netstat_listen port; lsof_listen port]
  /\ slept (snd (check_port port s)) = 0
  /\ existsb warns (snd (check_port port s)) = false.
Proof.
  intros Hport. unfold check_port, port_in_use. open_sh. tidy.
  repeat first [exec_step | status_step];
    cbn [snd existsb reports app]; rewrite ?Hport;
    try (intros _; repeat split; reflexivity);
    settle; cbn [andb orb]; rewrite ?orb_true_r; intros H; discriminate H.
Qed.

Lemma check_ports_warranted : warranted check_ports.
Proof.
  unfold check_ports, REQUIRED_PORTS. cbn [for_each].
  repeat first
    [ apply check_port_warranted; reflexivity
    | apply warranted_bind; [|intros _]
    | intros s; reflexivity ].
Qed.

Lemma section1_warranted : warranted section1.
Proof.
  unfold section1.
  apply warranted_bind; [intros s; reflexivity|intros _].
  apply warranted_bind;
    [apply (warranted_only installation_check);
       [intros c; destruct c; (discriminate || reflexivity)|apply check_docker_only]
    |intros _].
  apply warranted_bind;
    [apply (warranted_only installation_check);
       [intros c; destruct c; (discriminate || reflexivity)|apply check_compose_only]
    |intros _].
  apply warranted_bind;
    [apply (warranted_only installation_check);
       [intros c; destruct c; (discriminate || reflexivity)|apply check_daemon_only]
    |intros _].
  apply check_ports_warranted.
Qed.

Lemma later_elsewhere (n : nat) (c : Cmd) :
  (2 <= n)%nat -> in_section n c = true -> elsewhere c = true.
Proof.
  intros Hn H. apply Nat.eqb_eq in H. destruct c; try reflexivity; simpl in H; lia.
Qed.

Lemma script_warranted : warranted script.
Proof.
  unfold script.
  apply warranted_bind; [apply section1_warranted|intros _].
  apply warranted_bind;
    [apply (warranted_only (in_section 2));
       [intros c; apply later_elsewhere; lia|apply section2_only]|intros _].
  apply warranted_bind;
    [apply (warranted_only (in_section 3));
       [intros c; apply later_elsewhere; lia|apply section3_only]|intros _].
  apply warranted_bind;
    [apply (warranted_only (in_section 4));
       [intros c; apply later_elsewhere; lia|apply section4_only]|intros _].
  apply warranted_bind;
    [apply (warranted_only (in_section 5));
       [intros c; apply later_elsewhere; lia|apply section5_only]|intros _].
  apply warranted_bind;
    [apply (warranted_only (in_section 6));
       [intros c; apply later_elsewhere; lia|apply section6_only]|intros _].
  apply warranted_bind;
    [apply (warranted_only (in_section 7));
       [intros c; apply later_elsewhere; lia|apply section7_only]|intros _].
  apply (warranted_only (in_section 8));
    [intros c; apply later_elsewhere; lia|apply section8_only].
Qed.

Lemma tears_down_spec (t : list Event) :
  existsb tears_down t = true <-> In compose_down (commands t).
Proof.
  induction t as [|e t IH]; cbn [existsb commands]; [split; [discriminate|intros []]|].
  rewrite orb_true_iff, IH.
  destruct e as [c r| | | | | | | |]; cbn [tears_down In];
    try (split; [intros [H|H]; [discriminate H|exact H]|auto]).
  destruct c; split; intros [H|H]; auto; discriminate H.
Qed.

Lemma reports_spec (t : list Event) :
  existsb reports t = true <->
  exists port r,
    In port REQUIRED_PORTS /\ status r = 0
    /\ (In (Ran (netstat_listen port) r) t \/ In (Ran (lsof_listen port) r) t).
Proof.
  rewrite existsb_exists. split.
  - intros (e & He & Hr). destruct e as [c r| | | | | | | |]; try discriminate Hr.
    destruct c; try discriminate Hr; cbn [reports] in Hr;
      apply andb_true_iff in Hr; destruct Hr as [Hp Hz];
      apply existsb_exists in Hp; destruct Hp as (p & Hp & Heq);
      apply Z.eqb_eq in Heq; subst p; apply Z.eqb_eq in Hz;
      exists port, r; auto.
  - intros (port & r & Hp & Hz & [H|H]).
    + exists (Ran (netstat_listen port) r). split; [exact H|]. cbn [reports].
      apply andb_true_iff. split; [|apply Z.eqb_eq, Hz].
      apply existsb_exists. exists port. split; [exact Hp|apply Z.eqb_refl].
    + exists (Ran (lsof_listen port) r). split; [exact H|]. cbn [reports].
      apply andb_true_iff. split; [|apply Z.eqb_eq, Hz].
      apply existsb_exists. exists port. split; [exact Hp|apply Z.eqb_refl].
Qed.

(** X2.  A run executes the teardown of the port check, [docker-compose
    down], exactly when one of its probes ([netstat] or [lsof]) has
    reported one of the ports 80, 5000, 3000, 27017 in use.  A port
    check in which no probe reports is the eight probes and nothing
    else: no pause and no warning. *)
Theorem port_teardown_iff_reported :
  (forall w : World,
      In compose_down (commands (snd (deploy w))) <->
      exists port r,
        In port REQUIRED_PORTS /\ status r = 0
        /\ (In (Ran (netstat_listen port) r) (snd (deploy w))
            \/ In (Ran (lsof_listen port) r) (snd (deploy w))))
  /\ (forall s : Shell,
         (forall port r,
             In (Ran (netstat_listen port) r) (snd (check_ports s))
             \/ In (Ran (lsof_listen port) r) (snd (check_ports s)) ->
             status r <> 0) ->
         commands (snd (check_ports s))
         = [netstat_listen 80; lsof_listen 80; netstat_listen 5000; lsof_listen 5000;
            netstat_listen 3000; lsof_listen 3000; netstat_listen 27017;
            lsof_listen 27017]
         /\ slept (snd (check_ports s)) = 0
         /\ forall msg, ~ In (Warning msg) (snd (check_ports s))).
Proof.
  split.
  - intros w. rewrite <- tears_down_spec, <- reports_spec.
    rewrite deploy_script. cbn [snd]. rewrite (script_warranted (fresh w)). reflexivity.
  - intros s Hnone.
    assert (Hquiet : existsb reports (snd (check_ports s)) = false).
    { destruct (existsb reports (snd (check_ports s))) eqn:E; [|reflexivity].
      apply reports_spec in E. destruct E as (port & r & _ & Hz & Hin).
      destruct (Hnone port r Hin Hz). }
    clear Hnone.
    destruct (check_ports_run s)
      as (s1 & t1 & s2 & t2 & s3 & t3 & s4 & t4 & E1 & E2 & E3 & E4 & E).
    rewrite E in *. cbn [snd existsb reports] in Hquiet.
    rewrite !existsb_app in Hquiet. cbn [existsb reports] in Hquiet.
    rewrite !orb_false_iff in Hquiet.
    destruct Hquiet as (_ & Q1 & Q2 & Q3 & Q4 & _).
    pose proof (check_port_unreported 80 s eq_refl) as H1.
    pose proof (check_port_unreported 5000 s1 eq_refl) as H2.
    pose proof (check_port_unreported 3000 s2 eq_refl) as H3.
    pose proof (check_port_unreported 27017 s3 eq_refl) as H4.
    rewrite E1 in H1. rewrite E2 in H2. rewrite E3 in H3. rewrite E4 in H4.
    cbn [snd] in H1, H2, H3, H4.
    destruct (H1 Q1) as (C1 & S1 & W1). destruct (H2 Q2) as (C2 & S2 & W2).
    destruct (H3 Q3) as (C3 & S3 & W3). destruct (H4 Q4) as (C4 & S4 & W4).
    cbn [snd]. repeat split.
    + cbn [commands]. rewrite !commands_app, C1, C2, C3, C4. reflexivity.
    + cbn [slept]. rewrite !slept_app, S1, S2, S3, S4. reflexivity.
    + intros msg Hin.
      assert (Hw : existsb warns
                     (Log "Checking if required ports are available..."
                        :: t1 ++ t2 ++ t3 ++ t4 ++ [Log "✓ Port check completed"]) = true).
      { apply existsb_exists. exists (Warning msg). split; [exact Hin|reflexivity]. }
      cbn [existsb warns] in Hw. rewrite !existsb_app, W1, W2, W3, W4 in Hw.
      discriminate Hw.
Qed.

End PortCheck.

(** *** Concrete runs *)

(** On a healthy host no probe reports, and the port check is the eight
    probes. *)
Lemma port_teardown_iff_reported_witness :
  commands (snd (check_ports (host := static_host healthy)
                   (fresh (host := static_host healthy) tt)))
  = [netstat_listen 80; lsof_listen 80; netstat_listen 5000; lsof_listen 5000;
     netstat_listen 3000; lsof_listen 3000; netstat_listen 27017; lsof_listen 27017]
  /\ slept (snd (check_ports (host := static_host healthy)
                   (fresh (host := static_host healthy) tt))) = 0
  /\ forall msg,
      ~ In (Warning msg) (snd (check_ports (host := static_host healthy)
                                 (fresh (host := static_host healthy) tt))).
Proof.
  apply (proj2 (port_teardown_iff_reported (host := static_host healthy))
           (fresh (host := static_host healthy) tt)).
  intros port r H. vm_compute in H.
  repeat match type of H with
         | _ \/ _ => destruct H as [H|H]
         | False => destruct H
         | _ = _ => injection H as _ <-; discriminate
         | _ = _ => discriminate H
         end.
Defined.

(** Without a daemon the run prints one error line, as its last act. *)
Lemma error_line_is_final_witness :
  In (Error "Docker daemon is not running. Please start Docker.")
     (snd (deploy (host := static_host no_daemon) tt))
  /\ fst (deploy (host := static_host no_daemon) tt) = Exit 1
  /\ exists t0,
      snd (deploy (host := static_host no_daemon) tt)
      = (t0 ++ [Error "Docker daemon is not running. Please start Docker."])%list
      /\ no_error t0.
Proof.
  assert (H : In (Error "Docker daemon is not running. Please start Docker.")
                 (snd (deploy (host := static_host no_daemon) tt))).
  { vm_compute.
    repeat match goal with |- _ \/ _ => first [left; reflexivity|right] end. }
  split; [exact H|].
  exact (proj1 (error_line_is_final (host := static_host no_daemon) tt) _ H).
Defined.

(** The backend that answers at its third attempt was waited for twice:
    6 seconds. *)
Lemma polling_time_witness :
  succeeds_at (host := clocked_host third_try) Backend
    (polling (host := clocked_host third_try) 0%nat) 3
  /\ slept (snd (poll (host := clocked_host third_try) Backend
                   (polling (host := clocked_host third_try) 0%nat))) = 3 * (Z.of_nat 3 - 1).
Proof.
  assert (H : succeeds_at (host := clocked_host third_try) Backend
                (polling (host := clocked_host third_try) 0%nat) 3).
  { eexists _, _. split; vm_compute; reflexivity. }
  split; [exact H|].
  exact (proj1 (polling_time (host := clocked_host third_try) Backend
                  (polling (host := clocked_host third_try) 0%nat) eq_refl) 3%nat H).
Defined.

(** nginx is down while the backend is up: section 6 halts after ten
    nginx attempts. *)
Lemma nginx_never_responds_witness :
  exists s' t0,
    section6 (host := static_host nginx_down) (fresh (host := static_host nginx_down) tt)
    = (Exit 1, s',
       ([Log "========================================="; Log "SECTION 6: HEALTH CHECKS";
         Log "========================================="]
        ++ snd (backend_health (host := static_host nginx_down)
                  (fresh (host := static_host nginx_down) tt))
        ++ Log "Performing health check on nginx (http://localhost:80)..."
        :: t0 ++ failure_report Nginx 10)%list)
    /\ attempts_made Nginx t0 = 10%nat
    /\ MAX_RETRIES (snd (fst (backend_health (host := static_host nginx_down)
                                (fresh (host := static_host nginx_down) tt)))) = 10.
Proof.
  apply (nginx_never_responds (host := static_host nginx_down)
           (fresh (host := static_host nginx_down) tt)).
  - vm_compute. reflexivity.
  - intros j _. unfold responds. destruct (host_before _ _ _). reflexivity.
Defined.

(** Without a daemon the run stops within the installation checks. *)
Lemma missing_installation_halts_first_witness :
  installation_missing (host := static_host no_daemon)
  /\ fst (deploy (host := static_host no_daemon) tt) = Exit 1
  /\ forall c, In c (commands (snd (deploy (host := static_host no_daemon) tt))) ->
                installation_check c = true.
Proof.
  assert (H : installation_missing (host := static_host no_daemon)).
  { right. right. intros w. simpl. discriminate. }
  split; [exact H|].
  exact (missing_installation_halts_first (host := static_host no_daemon) tt H).
Defined.

(** A build that fails with status 17 makes the script exit with 17. *)
Lemma exit_status_accounted_witness :
  exit_status (fst (deploy (host := static_host build_fails) tt)) = Some 17
  /\ (17 = 0 \/ 17 = 1
      \/ (17 <> 0
          /\ exists c r, In (Ran c r) (snd (deploy (host := static_host build_fails) tt))
                          /\ status r = 17)).
Proof.
  assert (H : exit_status (fst (deploy (host := static_host build_fails) tt)) = Some 17).
  { vm_compute. reflexivity. }
  split; [exact H|].
  exact (exit_status_accounted (host := static_host build_fails) tt 17 H).
Defined.

End BehaviourFacts.

(** ** Successful runs *)

Module SuccessFacts.

Import Text Deploy DeployFacts Behaviour.

#[local] Arguments show_Z : simpl never.
#[local] Arguments strip_trailing_newlines : simpl never.
#[local] Arguments grep_E : simpl never.
#[local] Arguments contains : simpl never.

(** The event of the trace that was answered with success. *)
Ltac evident :=
  apply existsb_exists;
  match goal with
  | Z : status ?r = 0 |- exists e, In e ?t /\ _ =>
      match t with
      | context [Ran ?c r] =>
          exists (Ran c r); split;
          [ cbn [In app]; repeat (first [left; reflexivity|right])
          | cbn [evidence]; cbn [String.eqb Ascii.eqb Bool.eqb andb orb];
            rewrite ?Z; reflexivity ]
      end
  end.

Ltac passes_tac :=
  let s := fresh "s" in
  intros s; open_sh; tidy;
  repeat first [ exec_step | status_step ];
  try exact I; try evident.

Section Passing.

Context {host : Host}.

Lemma passes_first {A B} (good : Event -> bool) (m : Sh A) (f : A -> Sh B) :
  passes good m -> passes good (bind m f).
Proof.
  intros Hm s. specialize (Hm s). unfold bind.
  destruct (m s) as [[[a|code|] s1] t1]; auto.
  destruct (f a s1) as [[[b|code|] s2] t2]; auto.
  rewrite existsb_app, Hm. reflexivity.
Qed.

Lemma passes_rest {A B} (good : Event -> bool) (m : Sh A) (f : A -> Sh B) :
  (forall a, passes good (f a)) -> passes good (bind m f).
Proof.
  intros Hf s. unfold bind.
  destruct (m s) as [[[a|code|] s1] t1]; auto.
  specialize (Hf a s1).
  destruct (f a s1) as [[[b|code|] s2] t2]; auto.
  rewrite existsb_app, Hf. apply orb_true_r.
Qed.

End Passing.

Ltac reach lem :=
  first [ solve [apply lem]
        | apply passes_first; solve [apply lem]
        | apply passes_rest; intros; reach lem ].

Section Success.

Context {host : Host}.

Lemma check_docker_passes : passes (evidence DockerInstalled) check_docker.
Proof. unfold check_docker. passes_tac. Qed.

Lemma check_compose_passes : passes (evidence ComposeInstalled) check_compose.
Proof. unfold check_compose. passes_tac. Qed.

Lemma check_daemon_passes : passes (evidence DaemonRunning) check_daemon.
Proof. unfold check_daemon. passes_tac. Qed.

Lemma section1_passes (k : Checkpoint) :
  k = DockerInstalled \/ k = ComposeInstalled \/ k = DaemonRunning ->
  passes (evidence k) section1.
Proof.
  unfold section1. intros [->|[->| ->]].
  - reach check_docker_passes.
  - reach check_compose_passes.
  - reach check_daemon_passes.
Qed.

Lemma section2_passes (k : Checkpoint) :
  k = ComposeFilePresent \/ k = BackendPresent \/ k = PortfolioPresent
  \/ k = NginxConfPresent ->
  passes (evidence k) section2.
Proof.
  unfold section2. intros [-> | [-> | [-> | ->] ] ]; passes_tac.
Qed.

Lemma section4_passes : passes (evidence Built) section4.
Proof. unfold section4. passes_tac. Qed.

Lemma list_images_passes : passes (evidence ImagesListed) list_images.
Proof.
  unfold list_images. intros s. open_sh. tidy. exec_step.
  destruct (grep_E image_filter (stdout r)) as [|line selected] eqn:Hsel; [exact I|].
  cbn [existsb evidence]. rewrite Hsel. reflexivity.
Qed.

Lemma show_containers_passes : passes (evidence ContainersShown) show_containers.
Proof. unfold show_containers. passes_tac. Qed.

Lemma resolve_nginx_passes : passes (evidence NginxResolved) resolve_nginx.
Proof.
  unfold resolve_nginx. intros s. open_sh. tidy. exec_step. status_step; [|exact I].
  destruct (String.eqb (strip_trailing_newlines (stdout r)) "") eqn:Hid; [exact I|].
  cbn [existsb evidence]. unfold identifier. rewrite Hid.
  apply Z.eqb_eq in Z. rewrite Z. reflexivity.
Qed.

Lemma section5_passes (k : Checkpoint) :
  k = ImagesListed \/ k = ContainersShown \/ k = NginxResolved ->
  passes (evidence k) section5.
Proof.
  unfold section5. intros [->|[->| ->]].
  - reach list_images_passes.
  - reach show_containers_passes.
  - reach resolve_nginx_passes.
Qed.

Lemma section7_passes : passes (evidence ImageInspected) section7.
Proof.
  unfold section7.
  apply passes_rest. intros _. apply passes_rest. intros _. apply passes_first.
  passes_tac.
Qed.

Lemma probe_passes (c : Check) (s s1 : Shell) (t1 : list Event) :
  probe c s = (Next true, s1, t1) -> existsb (evidence (answered c)) t1 = true.
Proof.
  destruct c; unfold probe, backend_probe, nginx_probe; open_sh; tidy.
  - exec_step. status_step.
    + intros [= <- <-]. evident.
    + exec_step. status_step; [|discriminate]. intros [= <- <-]. evident.
  - exec_step. status_step.
    + intros [= <- <-]. evident.
    + exec_step. intros [= Hc <- <-].
      cbn [existsb evidence]. cbn [String.eqb Ascii.eqb Bool.eqb andb orb].
      rewrite Hc. apply orb_true_r.
Qed.

Lemma retry_loop_passes (c : Check) (ok_msg Name name : string) :
  forall (fuel : nat) (s : Shell),
    RETRY_COUNT s < MAX_RETRIES s ->
    match retry_loop (probe c) ok_msg Name name fuel s with
    | (Next _, _, t) => existsb (evidence (answered c)) t = true
    | _ => True
    end.
Proof.
  induction fuel as [|fuel IH]; intros s Hlt.
  - cbn [retry_loop]. open_sh. tidy.
    apply Z.ltb_lt in Hlt. rewrite Hlt. exact I.
  - destruct (probe_run c s) as (tp & Hp & _).
    pose proof (probe_passes c s) as Hgood. rewrite Hp in Hgood.
    cbn [retry_loop]. open_sh. tidy.
    pose proof Hlt as Hltb. apply Z.ltb_lt in Hltb. rewrite Hltb.
    rewrite Hp. tidy.
    destruct (fst (attempt c (world s))).
    + rewrite existsb_app, (Hgood _ _ eq_refl). reflexivity.
    + destruct (Z.eqb_spec (RETRY_COUNT s + 1) (MAX_RETRIES s)) as [Hmax|Hmore]; tidy;
        [exact I|].
      set (s2 := mkShell (pause 3 (snd (attempt c (world s)))) (MAX_RETRIES s)
                         (RETRY_COUNT s + 1) (NGINX_CONTAINER_ID s) (SCRIPT_DIR s)).
      assert (Hlt2 : RETRY_COUNT s2 < MAX_RETRIES s2) by (cbn; lia).
      specialize (IH s2 Hlt2).
      destruct (retry_loop (probe c) ok_msg Name name fuel s2) as [[[[]|code|] s'] t];
        try exact I.
      rewrite existsb_app. cbn [existsb evidence app].
      rewrite IH, !orb_true_r. reflexivity.
Qed.

Lemma poll_passes (c : Check) (s : Shell) :
  0 < MAX_RETRIES s ->
  match poll c s with
  | (Next _, _, t) => existsb (evidence (answered c)) t = true
  | _ => True
  end.
Proof.
  intros Hmax.
  set (s0 := mkShell (world s) (MAX_RETRIES s) 0 (NGINX_CONTAINER_ID s) (SCRIPT_DIR s)).
  assert (Hc : exists ok_msg Name name,
             poll c s = health_check (probe c) ok_msg Name name s).
  { destruct c; eexists _, _, _; reflexivity. }
  destruct Hc as (ok_msg & Name & name & ->).
  pose proof (retry_loop_passes c ok_msg Name name (iterations_left s0) s0 Hmax) as H.
  unfold health_check. open_sh. tidy. fold s0.
  destruct (retry_loop (probe c) ok_msg Name name (iterations_left s0) s0)
    as [[[[]|code|] s'] t]; try exact I.
  cbn [existsb evidence]. exact H.
Qed.

Lemma section6_passes (k : Checkpoint) :
  k = BackendAnswered \/ k = NginxAnswered ->
  passes (evidence k) section6.
Proof.
  intros Hk s. unfold section6.
  rewrite (bind_Next (banner _) _ s tt s _ eq_refl). cbn [fst snd].
  destruct (backend_health_budget s) as (s0 & Hmax & _ & Eb).
  pose proof (poll_passes Backend s0 ltac:(lia)) as Hback.
  destruct (poll Backend s0) as [[ob sb] tb] eqn:Epoll. cbn [fst snd] in Eb.
  destruct ob as [[]|code|].
  - destruct (nginx_health_budget s0 sb tb Hmax Epoll) as (Hmax1 & En).
    pose proof (poll_passes Nginx sb ltac:(lia)) as Hfront.
    rewrite (bind_Next backend_health _ s tt sb _ Eb). cbn [fst snd].
    destruct (poll Nginx sb) as [[[[]|code|] sn] tn] eqn:Epoll'; cbn [fst snd] in En.
    + rewrite (bind_Next nginx_health _ sb tt sn _ En). cbn [fst snd].
      unfold log, emit. cbn [fst snd].
      rewrite !existsb_app. cbn [existsb].
      destruct Hk as [->| ->].
      * change (answered Backend) with BackendAnswered in Hback.
        rewrite Hback. cbn [evidence]. rewrite ?orb_true_r. reflexivity.
      * change (answered Nginx) with NginxAnswered in Hfront.
        rewrite Hfront. cbn [evidence]. rewrite ?orb_true_r. reflexivity.
    + rewrite (bind_Exit nginx_health _ sb _ sn _ En). exact I.
    + rewrite (bind_OutOfFuel nginx_health _ sb sn _ En). exact I.
  - rewrite (bind_Exit backend_health _ s _ sb _ Eb). exact I.
  - rewrite (bind_OutOfFuel backend_health _ s sb _ Eb). exact I.
Qed.

Lemma script_passes (k : Checkpoint) : passes (evidence k) script.
Proof.
  unfold script.
  destruct k.
  1-3: apply passes_first; apply section1_passes; auto.
  1-4: apply passes_rest; intros _; apply passes_first; apply section2_passes; auto 6.
  - do 3 (apply passes_rest; intros _). apply passes_first. apply section4_passes.
  - do 4 (apply passes_rest; intros _). apply passes_first.
    apply section5_passes; auto.
  - do 4 (apply passes_rest; intros _). apply passes_first.
    apply section5_passes; auto.
  - do 4 (apply passes_rest; intros _). apply passes_first.
    apply section5_passes; auto.
  - do 5 (apply passes_rest; intros _). apply passes_first.
    apply section6_passes; auto.
  - do 5 (apply passes_rest; intros _). apply passes_first.
    apply section6_passes; auto.
  - do 6 (apply passes_rest; intros _). apply passes_first. apply section7_passes.
Qed.

(** X9.  A run that ends with status 0 has passed every checkpoint: for each
    of them the trace holds the command that tests it, answered with
    success. *)
Theorem exit_0_means_checked (w : World) :
  exit_status (fst (deploy w)) = Some 0 ->
  forall k : Checkpoint, existsb (evidence k) (snd (deploy w)) = true.
Proof.
  intros Hexit k. rewrite deploy_script in *. cbn [fst snd] in *.
  pose proof (script_passes k (fresh w)) as H.
  pose proof (script_sound (fresh w)) as Hsound.
  destruct (script (fresh w)) as [[[[]|code|] s'] t]; cbn [fst snd] in *.
  - exact H.
  - injection Hexit as ->. contradiction.
  - discriminate Hexit.
Qed.

End Success.

(** On a healthy host the run ends with status 0. *)
Lemma exit_0_means_checked_witness :
  exit_status (fst (deploy (host := static_host healthy) tt)) = Some 0
  /\ forall k : Checkpoint,
      existsb (evidence k) (snd (deploy (host := static_host healthy) tt)) = true.
Proof.
  assert (H : exit_status (fst (deploy (host := static_host healthy) tt)) = Some 0).
  { vm_compute. reflexivity. }
  split; [exact H|].
  exact (exit_0_means_checked (host := static_host healthy) tt H).
Defined.

Ltac hushed :=
  let s := fresh "s" in
  let H := fresh "H" in
  intros s H; unfold completed in H; cbn in H;
  repeat (destruct H as [H|H]; [discriminate H|]); exact H.

Section Quiet.

Context {host : Host}.

Lemma unannounced_bind {A B} (m : Sh A) (f : A -> Sh B) :
  unannounced m -> (forall a, unannounced (f a)) -> unannounced (bind m f).
Proof.
  intros Hm Hf s. specialize (Hm s). unfold bind.
  destruct (m s) as [[[a|code|] s1] t1]; cbn [snd] in *; auto.
  specialize (Hf a s1). destruct (f a s1) as [[o s2] t2]. cbn [snd] in *.
  intros H. apply in_app_iff in H. tauto.
Qed.

Lemma unannounced_run (c : Cmd) : unannounced (run c).
Proof.
  intros s. unfold run. destruct (exec c (world s)) as [r w]. cbn.
  intros [H|[]]. discriminate H.
Qed.

Lemma unannounced_if {A} (b : bool) (m1 m2 : Sh A) :
  unannounced m1 -> unannounced m2 -> unannounced (if b then m1 else m2).
Proof. destruct b; auto. Qed.

Lemma announcing_bind {A} (m : Sh A) (f : A -> Sh unit) :
  unannounced m -> (forall a, announcing (f a)) -> announcing (bind m f).
Proof.
  intros Hm Hf s. specialize (Hm s). unfold bind.
  destruct (m s) as [[[a|code|] s1] t1]; cbn [fst snd] in *.
  - specialize (Hf a s1). destruct (f a s1) as [[o s2] t2]. cbn [fst snd] in *.
    rewrite in_app_iff. tauto.
  - split; [contradiction|discriminate].
  - split; [contradiction|discriminate].
Qed.

End Quiet.

Ltac quiet_tac :=
  repeat first
    [ apply unannounced_run
    | apply unannounced_bind; [|intros]
    | apply unannounced_if
    | hushed
    | match goal with |- unannounced (match ?x with _ => _ end) => destruct x end ].

Section Announcing.

Context {host : Host}.

Lemma retry_loop_unannounced (probe : Sh bool) (ok_msg Name name : string) :
  unannounced probe -> Log ok_msg <> completed ->
  forall fuel, unannounced (retry_loop probe ok_msg Name name fuel).
Proof.
  intros Hprobe Hok. induction fuel as [|fuel IH]; cbn [retry_loop].
  - unfold out_of_fuel. quiet_tac.
  - unfold log. quiet_tac; auto.
    intros s [H|[]]. cbn in H. apply Hok. exact H.
Qed.

Lemma section1_unannounced : unannounced section1.
Proof.
  unfold section1, check_docker, check_compose, check_daemon, check_ports, banner,
    succeeds, log.
  quiet_tac.
Qed.

Lemma section2_unannounced : unannounced section2.
Proof. unfold section2, banner, succeeds, log. quiet_tac. Qed.

Lemma section3_unannounced : unannounced section3.
Proof. unfold section3, banner, log. quiet_tac. Qed.

Lemma section4_unannounced : unannounced section4.
Proof. unfold section4, errexit, banner, log. quiet_tac. Qed.

Lemma section5_unannounced : unannounced section5.
Proof.
  unfold section5, list_images, show_containers, resolve_nginx, errexit, banner, log.
  quiet_tac.
Qed.

Lemma poll_unannounced (c : Check) : unannounced (poll c).
Proof.
  destruct c; unfold poll, health_check;
    (apply unannounced_bind; [hushed|intros _]);
    (apply unannounced_bind; [hushed|intros fuel]);
    apply retry_loop_unannounced;
    unfold backend_probe, nginx_probe, succeeds; quiet_tac; discriminate.
Qed.

Lemma section6_unannounced : unannounced section6.
Proof.
  unfold section6, backend_health, nginx_health, banner, log.
  repeat first
    [ apply poll_unannounced
    | apply unannounced_bind; [|intros]
    | hushed ].
Qed.

Lemma section7_unannounced : unannounced section7.
Proof. unfold section7, errexit, banner, log, echo. quiet_tac. Qed.

Lemma section8_announcing : announcing section8.
Proof.
  intros s. unfold section8, banner, log, echo. open_sh. cbn [fst snd].
  split; [reflexivity|]. intros _. unfold completed. cbn [In app].
  repeat (first [left; reflexivity|right]).
Qed.

(** X20.  The line "DEPLOYMENT COMPLETED SUCCESSFULLY!" is printed exactly in
    the runs that end with status 0. *)
Theorem completion_announced_iff_exit_0 (w : World) :
  In completed (snd (deploy w)) <-> exit_status (fst (deploy w)) = Some 0.
Proof.
  assert (H : announcing script).
  { unfold script.
    apply announcing_bind; [apply section1_unannounced|intros _].
    apply announcing_bind; [apply section2_unannounced|intros _].
    apply announcing_bind; [apply section3_unannounced|intros _].
    apply announcing_bind; [apply section4_unannounced|intros _].
    apply announcing_bind; [apply section5_unannounced|intros _].
    apply announcing_bind; [apply section6_unannounced|intros _].
    apply announcing_bind; [apply section7_unannounced|intros _].
    apply section8_announcing. }
  pose proof (script_sound (fresh w)) as Hsound.
  rewrite deploy_script. cbn [fst snd]. rewrite (H (fresh w)).
  destruct (fst (fst (script (fresh w)))) as [[]|code|]; cbn [exit_status].
  - split; reflexivity.
  - split; [discriminate|]. intros [= ->]. contradiction.
  - split; discriminate.
Qed.

End Announcing.

(** On a healthy host the line of completion is printed. *)
Lemma completion_announced_iff_exit_0_witness :
  In completed (snd (deploy (host := static_host healthy) tt)).
Proof.
  apply (proj2 (completion_announced_iff_exit_0 (host := static_host healthy) tt)).
  vm_compute. reflexivity.
Defined.

End SuccessFacts.

(** ** More properties of the transactions service *)

Module GroupingFacts.

Import Transactions TransactionsFacts.

Section More.
Context {Amount Timestamp : Type}.
Variable monthYear : Timestamp -> string.

Lemma entries_assign_present {V} (k : string) (g : list V) (e : V) (o : Obj (list V)) :
  own k o = Some g ->
  Permutation (concat (map snd (assign k (g ++ [e])%list o))) (e :: concat (map snd o)).
Proof.
  induction o as [|[k' g'] o IH]; simpl; [discriminate|].
  destruct (String.eqb k k') eqn:E; simpl.
  - intros [= ->]. rewrite <- app_assoc. simpl.
    apply Permutation_sym, Permutation_middle.
  - intros H. specialize (IH H).
    rewrite IH. apply Permutation_sym, Permutation_middle.
Qed.

Lemma entries_assign_absent {V} (k : string) (e : V) (o : Obj (list V)) :
  own k o = None ->
  Permutation (concat (map snd (assign k [e] o))) (e :: concat (map snd o)).
Proof.
  induction o as [|[k' g'] o IH]; simpl; [reflexivity|].
  destruct (String.eqb k k') eqn:E; simpl; [discriminate|].
  intros H. rewrite (IH H). apply Permutation_sym, Permutation_middle.
Qed.

Lemma reduce_thrown (l : list (Transaction Amount Timestamp)) :
  fold_left
    (fun a tx => match a with Some o => group_step monthYear o tx | None => None end)
    l None = None.
Proof. induction l as [|tx l IH]; simpl; auto. Qed.

Lemma group_step_entries (acc acc' : Obj (list (Entry Amount Timestamp)))
    (tx : Transaction Amount Timestamp) :
  group_step monthYear acc tx = Some acc' ->
  Permutation (concat (map snd acc')) (entry tx :: concat (map snd acc)).
Proof.
  unfold group_step.
  destruct (own (monthYear (timestamp tx)) acc) as [g|] eqn:Hown.
  - intros [= <-]. apply entries_assign_present, Hown.
  - destruct (inherited (monthYear (timestamp tx))); [discriminate|].
    intros [= <-]. apply entries_assign_absent, Hown.
Qed.

Lemma reduce_entries (l : list (Transaction Amount Timestamp)) :
  forall acc acc',
    fold_left
      (fun a tx => match a with Some o => group_step monthYear o tx | None => None end)
      l (Some acc) = Some acc' ->
    Permutation (concat (map snd acc')) (concat (map snd acc) ++ map entry l).
Proof.
  induction l as [|tx l IH]; intros acc acc'; simpl.
  - intros [= ->]. rewrite app_nil_r. reflexivity.
  - destruct (group_step monthYear acc tx) as [acc1|] eqn:Hstep.
    + intros H. rewrite (IH _ _ H), (group_step_entries _ _ _ Hstep).
      simpl. apply Permutation_middle.
    + rewrite reduce_thrown. discriminate.
Qed.

(** X10.  Whenever the endpoint answers with a grouping, the entries of all
    its groups together are the transactions of the user, each once. *)
Theorem groups_hold_each_transaction_once
    (stored : list (Transaction Amount Timestamp)) (user : string)
    (groups : Obj (list (Entry Amount Timestamp))) :
  get_transactions monthYear (Some stored) user = Json groups ->
  Permutation (concat (map snd groups)) (map entry (find stored user)).
Proof.
  unfold get_transactions.
  destruct (groupedByMonth monthYear (find stored user)) as [o|] eqn:Hrun;
    [|discriminate].
  intros [= <-]. apply (reduce_entries _ [] o). exact Hrun.
Qed.

(** X11.  A user without stored transactions gets the empty object. *)
Theorem unknown_user_gets_empty_object
    (stored : list (Transaction Amount Timestamp)) (user : string) :
  (forall tx, In tx stored -> email tx <> user) ->
  get_transactions monthYear (Some stored) user = Json [].
Proof.
  intros Hnone. unfold get_transactions.
  assert (E : find stored user = []).
  { unfold find. induction stored as [|tx stored IH]; simpl; [reflexivity|].
    destruct (String.eqb_spec (email tx) user) as [Heq|Hne].
    - exfalso. exact (Hnone tx (or_introl eq_refl) Heq).
    - apply IH. intros tx' Hin. apply Hnone. right. exact Hin. }
  rewrite E. reflexivity.
Qed.

Lemma find_app (stored more : list (Transaction Amount Timestamp)) (user : string) :
  find (stored ++ more) user = (find stored user ++ find more user)%list.
Proof. unfold find. apply filter_app. Qed.

(** X12.  Storing one more transaction of the user adds its entry at the end
    of the group of its month and changes no other group; storing a
    transaction of somebody else changes nothing. *)
Theorem one_more_transaction
    (stored : list (Transaction Amount Timestamp)) (tx : Transaction Amount Timestamp)
    (user : string) (groups : Obj (list (Entry Amount Timestamp))) :
  get_transactions monthYear (Some stored) user = Json groups ->
  inherited (monthYear (timestamp tx)) = false ->
  (email tx <> user ->
   get_transactions monthYear (Some (stored ++ [tx])%list) user = Json groups)
  /\ (email tx = user ->
      exists groups',
        get_transactions monthYear (Some (stored ++ [tx])%list) user = Json groups'
        /\ own (monthYear (timestamp tx)) groups'
           = Some (group_of groups (monthYear (timestamp tx)) ++ [entry tx])%list
        /\ forall label, label <> monthYear (timestamp tx) ->
                         own label groups' = own label groups).
Proof.
  intros Hrun Hfresh. unfold get_transactions in *.
  destruct (groupedByMonth monthYear (find stored user)) as [o|] eqn:Hold;
    [|discriminate].
  injection Hrun as <-. rewrite find_app. unfold groupedByMonth in *.
  rewrite fold_left_app.
  match goal with
  | |- context [fold_left ?f (find stored user) ?init] =>
      replace (fold_left f (find stored user) init) with (Some o) by (symmetry; exact Hold)
  end.
  split.
  - intros Hne. unfold find. simpl.
    destruct (String.eqb_spec (email tx) user); [contradiction|reflexivity].
  - intros Heq. unfold find. simpl.
    destruct (String.eqb_spec (email tx) user); [|contradiction].
    simpl. unfold group_step, group_of. rewrite Hfresh.
    destruct (own (monthYear (timestamp tx)) o) as [g|] eqn:Hown.
    + eexists. split; [reflexivity|]. split; [apply own_assign_eq|].
      intros label Hl. apply own_assign_ne. congruence.
    + eexists. split; [reflexivity|]. split; [apply own_assign_eq|].
      intros label Hl. apply own_assign_ne. congruence.
Qed.

End More.

(** *** Concrete requests *)

(** The three transactions of ann are all in her groups. *)
Lemma groups_hold_each_transaction_once_witness :
  exists groups,
    get_transactions sample_label (Some sample_store) "ann@example.com" = Json groups
    /\ Permutation (concat (map snd groups))
                   (map entry (find sample_store "ann@example.com")).
Proof.
  eexists. split; [reflexivity|].
  apply (groups_hold_each_transaction_once sample_label sample_store "ann@example.com").
  reflexivity.
Defined.

(** Nothing is stored for zed. *)
Lemma unknown_user_gets_empty_object_witness :
  (forall tx, In tx sample_store -> email tx <> "zed@example.com")
  /\ get_transactions sample_label (Some sample_store) "zed@example.com" = Json [].
Proof.
  assert (H : forall tx, In tx sample_store -> email tx <> "zed@example.com").
  { intros tx [<-|[<-|[<-|[<-|[]]]]]; simpl; discriminate. }
  split; [exact H|].
  exact (unknown_user_gets_empty_object sample_label sample_store "zed@example.com" H).
Defined.

(** One more deposit of bob in February: a new group for him, of that
    deposit alone. *)
Lemma one_more_transaction_witness :
  exists groups',
    get_transactions sample_label
      (Some (sample_store
             ++ [mkTransaction "bob@example.com" "deposit" 700 1707100000000])%list)
      "bob@example.com" = Json groups'
    /\ own "February 2024" groups'
       = Some [mkEntry "deposit" 700 1707100000000]
    /\ forall label, label <> "February 2024" ->
                     own label groups'
                     = own label [("January 2024", [mkEntry "deposit" 1000 1704189600000])].
Proof.
  exact (proj2 (one_more_transaction sample_label sample_store
                  (mkTransaction "bob@example.com" "deposit" 700 1707100000000)
                  "bob@example.com"
                  [("January 2024", [mkEntry "deposit" 1000 1704189600000])]
                  eq_refl eq_refl) eq_refl).
Defined.

End GroupingFacts.

(** ** Properties of the survey form *)

Module SurveyFacts.

Import Survey.

Section Matching.

Lemma lang_nil_app (r : Regex) (s1 s2 : JsString) :
  lang r (s1 ++ s2)%list -> (s1 ++ s2)%list = [] -> lang r s1 /\ s1 = [] /\ s2 = [].
Proof.
  intros H E. apply app_eq_nil in E as [-> ->]. auto.
Qed.

Lemma nullable_lang (r : Regex) : nullable r = true <-> lang r [].
Proof.
  split.
  - induction r; cbn; intros H; try discriminate.
    + constructor.
    + apply andb_true_iff in H as [H1 H2].
      change (lang (Seq r1 r2) ([] ++ [])%list). constructor; auto.
    + apply orb_true_iff in H as [H | H].
      * apply lang_Alt_l; auto.
      * apply lang_Alt_r; auto.
    + constructor.
  - intros H. remember (@nil N) as s eqn:Es.
    induction H; cbn; try discriminate; auto.
    + apply app_eq_nil in Es as [-> ->].
      rewrite IHlang1, IHlang2; auto.
    + rewrite IHlang; auto.
    + rewrite IHlang, orb_true_r; auto.
Qed.

Lemma star_cons (r : Regex) (c : N) (s : JsString) :
  lang (Star r) (c :: s) ->
  exists s1 s2, s = (s1 ++ s2)%list /\ lang r (c :: s1) /\ lang (Star r) s2.
Proof.
  intros H. remember (Star r) as r' eqn:Er. remember (c :: s) as s' eqn:Es.
  revert s Es. induction H; intros s' Es; try discriminate.
  injection Er as ->.
  destruct s1 as [| c1 s1].
  - cbn in Es. apply IHlang2; auto.
  - cbn in Es. injection Es as -> <-.
    exists s1, s2. auto.
Qed.

Lemma after_lang (c : N) (r : Regex) (s : JsString) :
  lang (after c r) s <-> lang r (c :: s).
Proof.
  revert s. induction r; intros s; cbn.
  - split; intros H; inversion H.
  - split; intros H; inversion H.
  - destruct (N.eqb_spec c c0) as [-> | Hne].
    + split; intros H; inversion H; subst; constructor.
    + split; intros H; inversion H; subst; congruence.
  - destruct (in_class items c) eqn:E.
    + split; intros H; inversion H; subst; congruence.
    + split; intros H; inversion H; subst; constructor; auto.
  - assert (Hseq : forall s, lang (Seq (after c r1) r2) s ->
                             lang (Seq r1 r2) (c :: s)).
    { intros s0 H. inversion H; subst.
      change (lang (Seq r1 r2) ((c :: s1) ++ s2)%list).
      constructor; auto. apply IHr1; auto. }
    assert (Hback : forall s, lang (Seq r1 r2) (c :: s) ->
              lang (Seq (after c r1) r2) s \/ (lang r1 [] /\ lang r2 (c :: s))).
    { intros s0 H. inversion H as [| | | ? ? s1 s2 H1 H2 | | | |]; subst.
      match goal with E : (s1 ++ s2)%list = _ |- _ => rename E into Es end.
      destruct s1 as [| c1 s1]; cbn in Es.
      - right. subst. auto.
      - injection Es as -> <-. left. constructor; auto. apply IHr1; auto. }
    destruct (nullable r1) eqn:En.
    + split; intros H.
      * inversion H; subst; auto.
        change (lang (Seq r1 r2) ([] ++ c :: s)%list).
        constructor; [apply nullable_lang; auto | apply IHr2; auto].
      * destruct (Hback _ H) as [H1 | [_ H2]].
        -- apply lang_Alt_l; auto.
        -- apply lang_Alt_r. apply IHr2; auto.
    + split; intros H; auto.
      destruct (Hback _ H) as [H1 | [H1 _]]; auto.
      apply nullable_lang in H1. congruence.
  - split; intros H; inversion H; subst.
    + apply lang_Alt_l, IHr1; auto.
    + apply lang_Alt_r, IHr2; auto.
    + apply lang_Alt_l, IHr1; auto.
    + apply lang_Alt_r, IHr2; auto.
  - split; intros H.
    + inversion H; subst.
      change (lang (Star r) ((c :: s1) ++ s2)%list).
      constructor; auto. apply IHr; auto.
    + apply star_cons in H as (s1 & s2 & -> & H1 & H2).
      constructor; auto. apply IHr; auto.
Qed.

Lemma test_lang (r : Regex) (s : JsString) : test r s = true <-> lang r s.
Proof.
  unfold test. revert r. induction s as [| c s IH]; intros r; cbn.
  - apply nullable_lang.
  - rewrite IH. apply after_lang.
Qed.

Lemma no_space_no_at_lang (s : JsString) :
  lang no_space_no_at s <-> exists c, s = [c] /\ plain c = true.
Proof.
  unfold no_space_no_at, plain. split.
  - intros H. inversion H as [| | items c E | | | | |]; subst.
    exists c. split; auto. cbn in E.
    rewrite orb_false_r in E. apply orb_false_iff in E as [-> ->]. auto.
  - intros (c & -> & H). constructor. cbn.
    apply andb_true_iff in H as [H1 H2].
    apply negb_true_iff in H1, H2. rewrite H1, H2. auto.
Qed.

Lemma star_plain (s : JsString) :
  lang (Star no_space_no_at) s <-> Forall (fun c => plain c = true) s.
Proof.
  split.
  - intros H. remember (Star no_space_no_at) as r eqn:Er.
    induction H; try discriminate; auto.
    injection Er as ->.
    apply no_space_no_at_lang in H as (c & -> & Hc).
    cbn. constructor; auto.
  - induction 1 as [| c s Hc _ IH].
    + constructor.
    + change (lang (Star no_space_no_at) ([c] ++ s)%list).
      constructor; auto. apply no_space_no_at_lang. eauto.
Qed.

Lemma plus_word (s : JsString) : lang (Plus no_space_no_at) s <-> word s.
Proof.
  unfold Plus, word. split.
  - intros H. inversion H as [| | | ? ? s1 s2 H1 H2 | | | |]; subst.
    apply no_space_no_at_lang in H1 as (c & -> & Hc).
    apply star_plain in H2. split; [discriminate | constructor; auto].
  - intros [Hne Hall]. destruct s as [| c s]; [congruence |].
    inversion Hall; subst.
    change (lang (Seq no_space_no_at (Star no_space_no_at)) ([c] ++ s)%list).
    constructor; [apply no_space_no_at_lang; eauto | apply star_plain; auto].
Qed.

Lemma accepted_parts (s : JsString) :
  test emailPattern s = true ->
  exists l d e,
    s = (l ++ [at_sign] ++ d ++ [full_stop] ++ e)%list /\
    word l /\ word d /\ word e.
Proof.
  rewrite test_lang. unfold emailPattern. intros H.
  inversion H as [| | | ? ? l s1 Hl H1 | | | |]; subst.
  inversion H1 as [| | | ? ? a s2 Ha H2 | | | |]; subst.
  inversion H2 as [| | | ? ? d s3 Hd H3 | | | |]; subst.
  inversion H3 as [| | | ? ? f e Hf He | | | |]; subst.
  inversion Ha; subst. inversion Hf; subst.
  exists l, d, e. rewrite <- !plus_word. auto.
Qed.

(** X13.  The pattern of the form accepts exactly the strings made of a
    local part, an at sign, a domain, a full stop and an ending, the
    three parts being non-empty and free of white space and at signs. *)
Theorem email_pattern_accepts (s : JsString) :
  test emailPattern s = true <->
  exists l d e,
    s = (l ++ [at_sign] ++ d ++ [full_stop] ++ e)%list /\
    word l /\ word d /\ word e.
Proof.
  split; [apply accepted_parts|].
  intros (l & d & e & -> & Hl & Hd & He).
  rewrite test_lang. unfold emailPattern.
  rewrite <- plus_word in Hl, Hd, He.
  constructor; [exact Hl|].
  constructor; [constructor|].
  constructor; [exact Hd|].
  constructor; [constructor|exact He].
Qed.

Lemma plain_not_at (s : JsString) :
  Forall (fun c => plain c = true) s -> count_occ N.eq_dec s at_sign = 0%nat.
Proof.
  induction 1 as [| c s Hc _ IH]; cbn; auto.
  destruct (N.eq_dec c at_sign) as [-> | _]; auto.
  discriminate Hc.
Qed.

Lemma plain_no_space (s : JsString) :
  Forall (fun c => plain c = true) s -> Forall (fun c => white_space c = false) s.
Proof.
  apply Forall_impl. intros c H. unfold plain in H.
  apply andb_true_iff in H as [H _]. apply negb_true_iff in H. auto.
Qed.

(** X14.  An accepted address holds exactly one at sign, holds a full stop,
    holds no white space and is at least five code units long. *)
Theorem accepted_email_shape (s : JsString) :
  test emailPattern s = true ->
  count_occ N.eq_dec s at_sign = 1%nat /\
  In full_stop s /\
  Forall (fun c => white_space c = false) s /\
  (5 <= length s)%nat.
Proof.
  intros H. apply accepted_parts in H
    as (l & d & e & -> & [Hl Hl'] & [Hd Hd'] & [He He']).
  repeat split.
  - rewrite !count_occ_app.
    rewrite (plain_not_at l), (plain_not_at d), (plain_not_at e) by auto.
    reflexivity.
  - rewrite !in_app_iff. do 3 right. left. left. reflexivity.
  - rewrite !Forall_app. repeat split; auto using plain_no_space.
    all: constructor; auto.
  - rewrite !length_app. cbn.
    destruct l; [congruence |]. destruct d; [congruence |].
    destruct e; [congruence |]. cbn. lia.
Qed.

End Matching.

Section Validation.

Lemma test_blank : test emailPattern [] = false.
Proof. reflexivity. Qed.

Lemma push_valid (m : ErrorMessage) (v : Validated) :
  isValid (push m v) = false /\ errorMessages (push m v) <> [].
Proof.
  split; auto. cbn. destruct (errorMessages v); discriminate.
Qed.

Lemma push_coherent (m : ErrorMessage) (v : Validated) : coherent (push m v).
Proof.
  destruct (push_valid m v) as [H1 H2]. unfold coherent. rewrite H1.
  split; [discriminate | contradiction].
Qed.

Lemma nameIsNotEmpty_coherent (f : Fields) (v : Validated) :
  coherent v -> coherent (nameIsNotEmpty f v).
Proof.
  unfold nameIsNotEmpty. destruct (_ <=? _)%nat; auto using push_coherent.
Qed.

Lemma isSelected_coherent (f : Fields) (v : Validated) :
  coherent v -> coherent (isSelected f v).
Proof.
  unfold isSelected. destruct (transportType f); auto using push_coherent.
Qed.

Lemma isValidEmail_coherent (f : Fields) (v : Validated) :
  coherent v -> coherent (isValidEmail f v).
Proof.
  unfold isValidEmail. intros H.
  destruct (negb _); [apply push_coherent |].
  destruct (emailInput f); auto using push_coherent.
Qed.

Lemma validateForm_coherent (f : Fields) : coherent (validateForm f).
Proof.
  apply isValidEmail_coherent, isSelected_coherent, nameIsNotEmpty_coherent.
  unfold coherent. cbn. tauto.
Qed.

(** What the three checks come to. *)
Lemma isValid_cases (f : Fields) :
  isValid (validateForm f) =
  match nameInput f, transportType f with
  | _ :: _, _ :: _ => test emailPattern (emailInput f)
  | _, _ => false
  end.
Proof.
  unfold validateForm, isValidEmail, isSelected, nameIsNotEmpty.
  destruct f as [name transport email]. cbn [nameInput transportType emailInput].
  destruct name as [| n name], transport as [| t transport];
    destruct (test emailPattern email) eqn:E; cbn [length Nat.leb negb].
  all: destruct email as [| e email];
    [try (rewrite test_blank in E; discriminate) |]; reflexivity.
Qed.

Lemma acceptable_cases (f : Fields) :
  acceptable f <->
  match nameInput f, transportType f with
  | _ :: _, _ :: _ => test emailPattern (emailInput f)
  | _, _ => false
  end = true.
Proof.
  unfold acceptable.
  destruct (nameInput f) as [| n name], (transportType f) as [| t transport].
  all: split; [intros (H1 & H2 & H3); try congruence | intros H; try discriminate].
  repeat split; [discriminate | discriminate | exact H].
Qed.

(** X15.  The form is valid exactly when no message was collected. *)
Theorem valid_iff_no_messages (f : Fields) :
  isValid (validateForm f) = true <-> errorMessages (validateForm f) = [].
Proof.
  unfold validateForm.
  set (v0 := mkValidated true []).
  assert (H0 : coherent v0) by (unfold coherent; cbn; tauto).
  pose proof (nameIsNotEmpty_coherent f v0 H0) as H1.
  pose proof (isSelected_coherent f _ H1) as H2.
  pose proof (isValidEmail_coherent f _ H2) as H3.
  exact H3.
Qed.

(** X16.  The form is valid exactly when the name and the transport type are
    not empty and the email matches the pattern. *)
Theorem valid_iff_acceptable (f : Fields) :
  isValid (validateForm f) = true <-> acceptable f.
Proof.
  rewrite isValid_cases. split; intros H.
  - apply acceptable_cases. exact H.
  - apply acceptable_cases in H. exact H.
Qed.

(** X17.  A blank email is reported twice: the last two messages are that it
    is blank and that it is not valid. *)
Theorem blank_email_reported_twice (f : Fields) :
  emailInput f = [] ->
  exists before,
    map fieldError (errorMessages (validateForm f)) =
    (before ++ ["Email cannot be blank. "; "Please enter a valid email address. "])%list /\
    (length before <= 2)%nat.
Proof.
  intros E. unfold validateForm, isValidEmail. rewrite E, test_blank.
  cbn [negb push errorMessages].
  exists (map fieldError (errorMessages (isSelected f (nameIsNotEmpty f (mkValidated true []))))).
  rewrite <- !app_assoc, !map_app. split; [reflexivity |].
  unfold isSelected, nameIsNotEmpty.
  destruct (_ <=? _)%nat, (transportType f); cbn; lia.
Qed.

End Validation.

Section Submits.

Context {dom : Dom}.

Lemma show_all (messages : list ErrorMessage) (p : Page) (calls : list Call) :
  fold_left
    (fun '(p, calls) message =>
       let '(p', shown) := showErrors (fieldError message) p in
       (p', (calls ++ shown)%list))
    messages (p, calls) =
  (fold_left (fun p message => appendChild (error_span (fieldError message)) p) messages p,
   (calls ++ map (fun message => Appended (error_span (fieldError message))) messages)%list).
Proof.
  revert p calls. induction messages as [| m ms IH]; intros p calls; cbn.
  - rewrite app_nil_r. reflexivity.
  - rewrite IH, <- app_assoc. reflexivity.
Qed.

Lemma submit_calls (p : Page) :
  let v := validateForm (fields (fst (clearErrors p))) in
  snd (submit p) =
  (map Removed (querySelectorAll "error-message" p) ++
   (if isValid v then []
    else PreventedDefault :: map Appended (alerts (fields (fst (clearErrors p))))))%list.
Proof.
  unfold submit, clearErrors, alerts. cbn [fst snd].
  destruct (isValid _); cbn [negb].
  - rewrite app_nil_r. reflexivity.
  - rewrite show_all. cbn [snd]. rewrite <- app_assoc, map_map. reflexivity.
Qed.

Lemma filter_removed (nodes : list Node) :
  filter is_appended (map Removed nodes) = [].
Proof. induction nodes; auto. Qed.

Lemma filter_appended (es : list Element) :
  filter is_appended (map Appended es) = map Appended es.
Proof. induction es; cbn; congruence. Qed.

(** X18.  The default action of a submit is prevented exactly when the fields
    are not acceptable; the listener then appends one alert for each
    message, after having prevented the default action, and it appends
    nothing when it lets the submit through. *)
Theorem submit_blocked_iff_unacceptable (p : Page) :
  let f := fields (fst (clearErrors p)) in
  (In PreventedDefault (snd (submit p)) <-> ~ acceptable f) /\
  (acceptable f -> filter is_appended (snd (submit p)) = []) /\
  (~ acceptable f ->
   exists cleared,
     snd (submit p) = (cleared ++ PreventedDefault :: map Appended (alerts f))%list /\
     alerts f <> [] /\
     Forall (fun e => role e = "alert" /\ localName e = "span") (alerts f)).
Proof.
  intros f. pose proof (submit_calls p) as Hcalls. cbv zeta in Hcalls.
  fold f in Hcalls. rewrite Hcalls.
  assert (Hval : isValid (validateForm f) = true <-> acceptable f).
  { rewrite isValid_cases. symmetry. apply acceptable_cases. }
  pose proof (validateForm_coherent f) as Hmsg. unfold coherent in Hmsg.
  assert (Hclear : ~ In PreventedDefault (map Removed (querySelectorAll "error-message" p))).
  { intros H. apply in_map_iff in H as (n & Hn & _). discriminate. }
  destruct (isValid (validateForm f)) eqn:E.
  - assert (Hf : acceptable f) by (apply Hval; auto).
    repeat split.
    + intros H. rewrite app_nil_r in H. contradiction.
    + intros H. contradiction.
    + intros _. rewrite app_nil_r. apply filter_removed.
    + contradiction.
  - assert (Hf : ~ acceptable f) by (intros H; apply Hval in H; discriminate).
    repeat split.
    + auto.
    + intros _. apply in_or_app. right. left. reflexivity.
    + contradiction.
    + intros _. eexists. split; [reflexivity |]. split.
      * unfold alerts. intros H. apply map_eq_nil in H.
        apply Hmsg in H. discriminate.
      * unfold alerts. apply Forall_forall. intros e He.
        apply in_map_iff in He as (m & <- & _). auto.
Qed.

End Submits.

Section Stale.

Lemma spans_app (inputs : Fields) (c1 c2 : list (nat * Element)) (n1 n2 n3 : nat) :
  spans (mkFlatPage inputs (c1 ++ c2) n1) =
  (spans (mkFlatPage inputs c1 n2) ++ spans (mkFlatPage inputs c2 n3))%list.
Proof.
  unfold spans. cbn. rewrite map_app, filter_app. reflexivity.
Qed.

Lemma remove_all (nodes : list nat) (p : FlatPage) :
  fold_left (fun p node => remove (Dom := flat) node p) nodes p =
  mkFlatPage (inputs p)
             (filter (fun '(id, _) => negb (existsb (Nat.eqb id) nodes)) (children p))
             (next_id p).
Proof.
  revert p. induction nodes as [| n nodes IH]; intros p.
  - cbn. destruct p as [i c k]. cbn. f_equal.
    induction c as [| [id e] c IHc]; cbn; congruence.
  - cbn [fold_left]. rewrite IH. cbn. f_equal.
    induction (children p) as [| [id e] c IHc]; cbn; auto.
    destruct (Nat.eqb id n); cbn; auto.
    destruct (existsb _ nodes); cbn; congruence.
Qed.

Lemma in_fst {A B : Type} (a : A) (b : B) (l : list (A * B)) :
  In (a, b) l -> In a (map fst l).
Proof. intros H. apply in_map_iff. exists (a, b). auto. Qed.

Lemma NoDup_fst_eq {A B : Type} (l : list (A * B)) (a : A) (b1 b2 : B) :
  NoDup (map fst l) -> In (a, b1) l -> In (a, b2) l -> b1 = b2.
Proof.
  induction l as [| [a' b'] l IH]; cbn; intros Hnd H1 H2; [contradiction |].
  inversion Hnd as [| ? ? Hnot Hnd']; subst.
  destruct H1 as [H1 | H1], H2 as [H2 | H2].
  - congruence.
  - injection H1 as -> ->. apply in_fst in H2. contradiction.
  - injection H2 as -> ->. apply in_fst in H1. contradiction.
  - auto.
Qed.

Lemma filter_keeps {A : Type} (f g : A -> bool) (l : list A) :
  (forall a, In a l -> g a = true -> f a = true) ->
  filter g (filter f l) = filter g l.
Proof.
  induction l as [| a l IH]; cbn; intros H; auto.
  destruct (f a) eqn:Ef; cbn.
  - rewrite IH by auto. reflexivity.
  - destruct (g a) eqn:Eg.
    + rewrite H in Ef by auto. discriminate.
    + apply IH. auto.
Qed.

Lemma spans_filter (p : FlatPage) :
  spans p = map snd (filter (fun '(_, e) => String.eqb (localName e) "span") (children p)).
Proof.
  unfold spans. induction (children p) as [| [id e] c IH]; cbn; auto.
  destruct (String.eqb _ _); cbn; congruence.
Qed.

Lemma distinct_filter (f : nat * Element -> bool) (p : FlatPage) :
  distinct_nodes p ->
  distinct_nodes (mkFlatPage (inputs p) (filter f (children p)) (next_id p)).
Proof.
  unfold distinct_nodes. cbn. intros [Hnd Hlt]. split.
  - clear Hlt. induction (children p) as [| [id e] c IH]; cbn; auto.
    inversion Hnd as [| ? ? Hnot Hnd']; subst.
    destruct (f (id, e)); cbn; auto.
    constructor; auto. intros H. apply Hnot.
    apply in_map_iff in H as ([id' e'] & Hid & Hin). cbn in Hid. subst.
    apply filter_In in Hin as [Hin _]. eapply in_fst; eauto.
  - apply Forall_forall. intros x Hx. apply filter_In in Hx as [Hx _].
    rewrite Forall_forall in Hlt. apply (Hlt x Hx).
Qed.

Lemma clearErrors_flat (p : FlatPage) :
  distinct_nodes p ->
  let p1 := fst (clearErrors (dom := flat) p) in
  spans p1 = spans p /\ inputs p1 = inputs p /\ distinct_nodes p1.
Proof.
  intros Hd. unfold clearErrors. cbn [fst].
  rewrite remove_all. cbn [inputs]. split; [| split]; auto.
  - rewrite !spans_filter. cbn [children]. f_equal.
    apply filter_keeps. intros [id e] Hin Hspan.
    apply negb_true_iff. destruct (existsb _ _) eqn:Ex; auto.
    apply existsb_exists in Ex as (n & Hn & Heq).
    apply Nat.eqb_eq in Heq. subst n.
    cbn in Hn. apply in_map_iff in Hn as ([id' e'] & Hid & Hin').
    cbn in Hid. subst id'. apply filter_In in Hin' as [Hin' Hname].
    destruct Hd as [Hnd _].
    rewrite (NoDup_fst_eq _ _ _ _ Hnd Hin Hin') in Hspan.
    apply String.eqb_eq in Hspan, Hname. congruence.
  - apply distinct_filter. auto.
Qed.

Lemma appendChild_flat (e : Element) (p : FlatPage) :
  distinct_nodes p ->
  localName e = "span" ->
  let p1 := appendChild (Dom := flat) e p in
  spans p1 = (spans p ++ [e])%list /\ inputs p1 = inputs p /\ distinct_nodes p1.
Proof.
  intros [Hnd Hlt] He. cbn. split; [| split]; auto.
  - unfold spans. cbn. rewrite map_app, filter_app. cbn. rewrite He. reflexivity.
  - unfold distinct_nodes. cbn. split.
    + rewrite map_app. cbn. apply NoDup_app; auto.
      * repeat constructor. auto.
      * intros id Hid [<- | []].
        apply in_map_iff in Hid as ([id' e'] & Hid & Hin). cbn in Hid. subst.
        rewrite Forall_forall in Hlt. apply Hlt in Hin. lia.
    + apply Forall_app. split.
      * eapply Forall_impl; [| exact Hlt]. intros [id e']. lia.
      * repeat constructor.
Qed.

Lemma show_all_flat (messages : list ErrorMessage) (p : FlatPage) :
  distinct_nodes p ->
  let p1 := fold_left (fun p message =>
                         appendChild (Dom := flat) (error_span (fieldError message)) p)
                      messages p in
  spans p1 = (spans p ++ map (fun m => error_span (fieldError m)) messages)%list /\
  inputs p1 = inputs p /\ distinct_nodes p1.
Proof.
  revert p. induction messages as [| m ms IH]; intros p Hd.
  - cbn. rewrite app_nil_r. auto.
  - cbn [fold_left map].
    destruct (appendChild_flat (error_span (fieldError m)) p Hd eq_refl)
      as (Hs & Hi & Hd').
    destruct (IH _ Hd') as (Hs' & Hi' & Hd'').
    cbv zeta. rewrite Hs', Hi', Hs, Hi, <- app_assoc. auto.
Qed.

Lemma submit_flat (p : FlatPage) :
  distinct_nodes p ->
  let p1 := fst (submit (dom := flat) p) in
  spans p1 = (spans p ++ alerts (inputs p))%list /\
  inputs p1 = inputs p /\ distinct_nodes p1.
Proof.
  intros Hd. destruct (clearErrors_flat p Hd) as (Hs & Hi & Hd').
  unfold submit. destruct (clearErrors (dom := flat) p) as [p1 cleared].
  cbn [fst] in Hs, Hi, Hd'. change (fields p1) with (inputs p1). rewrite Hi.
  destruct (isValid (validateForm (inputs p))) eqn:Ev; cbn [negb].
  - apply validateForm_coherent in Ev. unfold alerts. rewrite Ev.
    cbn. rewrite app_nil_r. auto.
  - rewrite show_all. cbn [fst].
    destruct (show_all_flat (errorMessages (validateForm (inputs p))) p1 Hd')
      as (Hs' & Hi' & Hd'').
    cbv zeta. unfold alerts. rewrite Hs', Hi', Hs, Hi. auto.
Qed.

(** X19.  The listener never clears the alerts it has shown: on a flat page,
    after [n] submits of unchanged fields the form holds the [span]s it
    had and, after them, [n] copies of the alerts of these fields. *)
Theorem alerts_pile_up (n : nat) (p : FlatPage) :
  distinct_nodes p ->
  spans (resubmit n p) =
  (spans p ++ concat (repeat (alerts (inputs p)) n))%list.
Proof.
  intros Hd. unfold resubmit.
  assert (H : spans (Nat.iter n (fun p => fst (submit (dom := flat) p)) p) =
              (spans p ++ concat (repeat (alerts (inputs p)) n))%list /\
              inputs (Nat.iter n (fun p => fst (submit (dom := flat) p)) p) = inputs p /\
              distinct_nodes (Nat.iter n (fun p => fst (submit (dom := flat) p)) p)).
  { induction n as [| n (Hs & Hi & Hd')].
    - cbn. rewrite app_nil_r. auto.
    - cbn [Nat.iter nat_rect].
      destruct (submit_flat _ Hd') as (Hs' & Hi' & Hd'').
      cbv zeta in Hs', Hi', Hd''. unfold Nat.iter in *.
      rewrite Hs', Hi', Hs, Hi. split; [| split]; auto.
      rewrite <- app_assoc. f_equal.
      clear. induction n as [| n IH]; cbn.
      + rewrite app_nil_r. reflexivity.
      + rewrite <- app_assoc, IH. reflexivity. }
  apply H.
Qed.

End Stale.

(** *** Concrete forms *)

Lemma email_pattern_accepts_witness :
  test emailPattern (js "ada@example.com") = true.
Proof.
  apply (proj2 (email_pattern_accepts (js "ada@example.com"))).
  exists (js "ada"), (js "example"), (js "com").
  split; [reflexivity|].
  repeat split; try discriminate; repeat constructor.
Defined.

Lemma accepted_email_shape_witness :
  count_occ N.eq_dec (js "ada@example.com") at_sign = 1%nat /\
  In full_stop (js "ada@example.com") /\
  Forall (fun c => white_space c = false) (js "ada@example.com") /\
  (5 <= length (js "ada@example.com"))%nat.
Proof.
  apply (accepted_email_shape (js "ada@example.com")). reflexivity.
Defined.

Lemma valid_iff_no_messages_witness :
  isValid (validateForm (mkFields (js "Ada") (js "bus") (js "ada@example.com"))) = true.
Proof.
  apply (proj2 (valid_iff_no_messages
                  (mkFields (js "Ada") (js "bus") (js "ada@example.com")))).
  reflexivity.
Defined.

Lemma valid_iff_acceptable_witness :
  acceptable (mkFields (js "Ada") (js "bus") (js "ada@example.com")).
Proof.
  apply (proj1 (valid_iff_acceptable
                  (mkFields (js "Ada") (js "bus") (js "ada@example.com")))).
  reflexivity.
Defined.

(** An empty form: four messages, two of them for the email. *)
Lemma blank_email_reported_twice_witness :
  exists before,
    map fieldError (errorMessages (validateForm (mkFields [] [] []))) =
    (before ++ ["Email cannot be blank. "; "Please enter a valid email address. "])%list /\
    (length before <= 2)%nat.
Proof.
  apply (blank_email_reported_twice (mkFields [] [] [])). reflexivity.
Defined.

(** No transport type and an email without a full stop: the submit is
    blocked. *)
Lemma submit_blocked_iff_unacceptable_witness :
  In PreventedDefault (snd (submit (dom := flat) sample_page)).
Proof.
  apply (proj2 (proj1 (submit_blocked_iff_unacceptable (dom := flat) sample_page))).
  intros (_ & H & _). apply H. reflexivity.
Defined.

(** Two submits of the sample page: the old alert is still there, and
    each of the two new ones is there twice. *)
Lemma alerts_pile_up_witness :
  distinct_nodes sample_page /\
  spans (resubmit 2 sample_page) =
  (spans sample_page ++ concat (repeat (alerts (inputs sample_page)) 2))%list.
Proof.
  assert (H : distinct_nodes sample_page).
  { split.
    - simpl. repeat constructor; simpl; intros H; intuition discriminate.
    - simpl. repeat constructor. }
  split; [exact H|]. exact (alerts_pile_up 2 sample_page H).
Defined.

End SurveyFacts.
